(** * Bake-and-rebind pipeline of [exporting/bakematerials.py]

    A shallow embedding of the scene-mutating functions of the material
    baker: [setup_camera], [sanitizeMaterialName], [bake_pass], [cleanup],
    [replace_all_baked_materials] and the operator's [execute] method.

    The host (Blender) owns the scene; the Python code mutates it in place
    and may raise at any point.  Every function is therefore written in a
    state-and-exception monad: a computation takes the scene, returns the
    scene it leaves behind, and either a value or the exception raised.
    Data-blocks are referred to by identity (an index into their registry)
    where the code holds a Python reference, and by name where the code
    looks them up by name. *)

From Stdlib Require Import ZArith QArith Qround Lia Bool.
From Stdlib Require Import String Ascii.
From stdpp Require Import base list strings.

Local Open Scope string_scope.
Local Open Scope list_scope.

(* ===================================================================== *)
(** ** Python effects: mutable state and exceptions *)

Inductive exn : Type :=
| KeyError (key : string)
| IndexError
| AttributeError
| TypeError
| ValueError
| RuntimeError (msg : string).

Inductive result (A : Type) : Type :=
| Ok (a : A)
| Raise (e : exn).
Arguments Ok {A} a.
Arguments Raise {A} e.

(** A computation over a mutable state [St]: the state survives a raise. *)
Definition Py (St A : Type) : Type := St -> St * result A.

Definition ret {St A} (a : A) : Py St A := fun s => (s, Ok a).
Definition raise {St A} (e : exn) : Py St A := fun s => (s, Raise e).
Definition bind {St A B} (m : Py St A) (k : A -> Py St B) : Py St B :=
  fun s => match m s with
           | (s', Ok a) => k a s'
           | (s', Raise e) => (s', Raise e)
           end.
Definition get {St} : Py St St := fun s => (s, Ok s).
Definition gets {St A} (f : St -> A) : Py St A := fun s => (s, Ok (f s)).
Definition modify {St} (f : St -> St) : Py St unit := fun s => (f s, Ok tt).

(** [try: m except: h] with a bare [except], which catches everything. *)
Definition try_except {St A} (m : Py St A) (h : exn -> Py St A) : Py St A :=
  fun s => match m s with
           | (s', Ok a) => (s', Ok a)
           | (s', Raise e) => h e s'
           end.

(** A value that must be present, else the given exception. *)
Definition expect {St A} (o : option A) (e : exn) : Py St A :=
  match o with Some a => ret a | None => raise e end.

(** Running a computation on a part of the state. *)
Definition zoom {St T A} (view : St -> T) (update : T -> St -> St)
    (m : Py T A) : Py St A :=
  fun s => match m (view s) with
           | (t, r) => (update t s, r)
           end.

Declare Scope py_scope.
Delimit Scope py_scope with py.
Notation "x <- m ;; k" := (bind m (fun x => k))
  (at level 100, m at next level, right associativity) : py_scope.
Notation "m ;; k" := (bind m (fun _ => k))
  (at level 100, right associativity) : py_scope.
Local Open Scope py_scope.

(** [for x in xs: body x] *)
Fixpoint for_each {St A} (xs : list A) (body : A -> Py St unit) : Py St unit :=
  match xs with
  | [] => ret tt
  | x :: xs' => body x ;; for_each xs' body
  end.

(** [for i in range(n): body i] *)
Definition for_range {St} (n : nat) (body : nat -> Py St unit) : Py St unit :=
  for_each (seq 0 n) body.

Definition when {St} (b : bool) (m : Py St unit) : Py St unit :=
  if b then m else ret tt.

(** Hoare triples with two postconditions: [Q] after a normal return,
    [E] after a raise. *)
Definition hoare {St A} (P : St -> Prop) (m : Py St A)
    (Q : A -> St -> Prop) (E : St -> Prop) : Prop :=
  forall s, P s ->
    match m s with
    | (s', Ok a) => Q a s'
    | (s', Raise _) => E s'
    end.

(** [m] leaves the observation [proj] of the state alone, whether it
    returns or raises. *)
Definition keeps {St A X} (proj : St -> X) (m : Py St A) : Prop :=
  forall s, proj (fst (m s)) = proj s.

(* ===================================================================== *)
(** ** Python string operations used by the module *)

Module Str.

(** [ch in text] for a one-character [ch] *)
Fixpoint has_char (ch : ascii) (text : string) : bool :=
  match text with
  | EmptyString => false
  | String c rest => if Ascii.eqb c ch then true else has_char ch rest
  end.

(** [text.replace(ch, '')] for a one-character [ch] *)
Fixpoint remove_char (ch : ascii) (text : string) : string :=
  match text with
  | EmptyString => EmptyString
  | String c rest =>
      if Ascii.eqb c ch then remove_char ch rest
      else String c (remove_char ch rest)
  end.

(** [text.replace('-ORG', '')]: leftmost non-overlapping occurrences,
    removed in a single pass. *)
Fixpoint remove_ORG (text : string) : string :=
  match text with
  | String "-" (String "O" (String "R" (String "G" rest))) => remove_ORG rest
  | String c rest => String c (remove_ORG rest)
  | EmptyString => EmptyString
  end.

(** ['-ORG' in text] *)
Fixpoint has_ORG (text : string) : bool :=
  match text with
  | String "-" (String "O" (String "R" (String "G" _))) => true
  | String _ rest => has_ORG rest
  | EmptyString => false
  end.

(** [needle in text] *)
Fixpoint contains (needle text : string) : bool :=
  if String.prefix needle text then true
  else match text with
       | EmptyString => false
       | String _ rest => contains needle rest
       end.

(** [text[-4:]] *)
Definition last4 (text : string) : string :=
  let n := String.length text in
  substring (n - 4) (Nat.min 4 n) text.

(** [text[:-4]] *)
Definition drop_last4 (text : string) : string :=
  substring 0 (String.length text - 4) text.

End Str.

(** The eleven characters stripped from a material name, in source order. *)
Definition illegal_chars : list ascii :=
  ["\"; "`"; "*"; "<"; ">"; "."; ":"; "?"; "|"; "/"; "034"]%char.

Definition sanitizeMaterialName (text : string) : string :=
  fold_left
    (fun text ch => if Str.has_char ch text then Str.remove_char ch text else text)
    illegal_chars text.

(* ===================================================================== *)
(** ** Per-material bake pass ([bake_pass]) *)

Module Bake.

Record Image : Type := {
  img_name : string;
  img_size : Z * Z                (* [image.size] *)
}.

(** A node of the material's [textures] group. *)
Record TexNode : Type := {
  node_name : string;
  node_type : string;             (* ['TEX_IMAGE'], ['GROUP'], ... *)
  node_image : option Image;      (* [.image]; [None] when unset *)
  node_input1 : option Q          (* [inputs[1].default_value], if the socket exists *)
}.

Record TexturesGroup : Type := {
  tex_nodes : list TexNode;       (* [nodes['textures'].node_tree.nodes] *)
  tex_outputs : nat               (* [len(nodes['textures'].outputs)] *)
}.

(** What drives the [out] node's first input. *)
Inductive Socket : Type :=
| TexturesOutput (i : nat)        (* [nodes['textures'].outputs[i]] *)
| CombineOutput0                  (* [nodes['combine'].outputs[0]] *)
| OtherSocket (label : string).

Record Material : Type := {
  mat_name : string;
  mat_bake : bool;                        (* truth value of [material.get('bake')] *)
  mat_textures : option TexturesGroup;    (* [nodes.get('textures')] *)
  mat_out : option (option Socket);       (* [nodes['out'].inputs[0].links]: no node / no link / link *)
  mat_combine : bool                      (* a [combine] node exists *)
}.

(** The [mix] node of the shared ['.Combine colors'] group: its first
    input is the light level. *)
Record Combine : Type := {
  mix_link : option string;       (* the link driving [mix.inputs[0]] *)
  mix_value : Q                   (* [mix.inputs[0].default_value] *)
}.

(** A Python number.  [scene.kkbp.bake_mult] is an [int] or a [float],
    as the add-on declares the property; the sizes of images are [int]s. *)
Inductive Number : Type :=
| PyInt (z : Z)
| PyFloat (q : Q).

(** [render.resolution_x] and [render.resolution_y] are int properties
    of the host. *)
Record Render : Type := {
  resolution_x : Z;
  resolution_y : Z;
  filepath : string;
  file_format : string;
  color_mode : string
}.

(** One call of [bpy.ops.render.render(write_still=True)], with the
    scene as the renderer saw it.  The file written is
    [rc_filepath ++ ".png"]. *)
Record RenderCall : Type := {
  rc_filepath : string;
  rc_x : Z;
  rc_y : Z;
  rc_format : string;
  rc_color : string;
  rc_slots : list (option nat);
  rc_filler : option nat;
  rc_materials : list Material;
  rc_combine : option Combine
}.

(** The part of the host scene [bake_pass] reads and writes.  A material
    is referred to by its index in [materials]; a slot holds such a
    reference or is empty. *)
Record Scene : Type := {
  materials : list Material;                (* [bpy.data.materials] *)
  slots : list (option nat);                (* slots of the active object *)
  fillerplane : option (list (option nat)); (* slots of [bpy.data.objects['fillerplane']] *)
  combine : option Combine;                 (* [bpy.data.node_groups['.Combine colors']] *)
  bake_mult : Number;                       (* [scene.kkbp.bake_mult] *)
  char_name : string;                       (* [c.get_name()] *)
  render : Render;                          (* [scene.render] *)
  renders : list RenderCall;                (* render calls so far, oldest first *)
  log : list string                         (* [c.kklog] lines, oldest first *)
}.

Definition set_materials (ms : list Material) (s : Scene) : Scene :=
  {| materials := ms; slots := slots s; fillerplane := fillerplane s;
     combine := combine s; bake_mult := bake_mult s; char_name := char_name s;
     render := render s; renders := renders s; log := log s |}.
Definition set_slots (ss : list (option nat)) (s : Scene) : Scene :=
  {| materials := materials s; slots := ss; fillerplane := fillerplane s;
     combine := combine s; bake_mult := bake_mult s; char_name := char_name s;
     render := render s; renders := renders s; log := log s |}.
Definition set_fillerplane (f : option (list (option nat))) (s : Scene) : Scene :=
  {| materials := materials s; slots := slots s; fillerplane := f;
     combine := combine s; bake_mult := bake_mult s; char_name := char_name s;
     render := render s; renders := renders s; log := log s |}.
Definition set_combine (c : option Combine) (s : Scene) : Scene :=
  {| materials := materials s; slots := slots s; fillerplane := fillerplane s;
     combine := c; bake_mult := bake_mult s; char_name := char_name s;
     render := render s; renders := renders s; log := log s |}.
Definition set_render (r : Render) (s : Scene) : Scene :=
  {| materials := materials s; slots := slots s; fillerplane := fillerplane s;
     combine := combine s; bake_mult := bake_mult s; char_name := char_name s;
     render := r; renders := renders s; log := log s |}.
Definition set_renders (rs : list RenderCall) (s : Scene) : Scene :=
  {| materials := materials s; slots := slots s; fillerplane := fillerplane s;
     combine := combine s; bake_mult := bake_mult s; char_name := char_name s;
     render := render s; renders := rs; log := log s |}.
Definition set_log (l : list string) (s : Scene) : Scene :=
  {| materials := materials s; slots := slots s; fillerplane := fillerplane s;
     combine := combine s; bake_mult := bake_mult s; char_name := char_name s;
     render := render s; renders := renders s; log := l |}.

(** *** Host primitives *)

(** [c.kklog(line)] *)
Definition kklog (line : string) : Py Scene unit :=
  modify (fun s => set_log (log s ++ [line]) s).

(** Dereference a material. *)
Definition material_at (id : nat) : Py Scene Material :=
  s <- get ;; expect (materials s !! id) (RuntimeError "removed data-block").

Definition update_material (id : nat) (f : Material -> Material) : Py Scene unit :=
  m <- material_at id ;;
  modify (fun s => set_materials (<[id := f m]> (materials s)) s).

(** Index of the first element satisfying [p]. *)
Fixpoint find_index {A} (p : A -> bool) (l : list A) : option nat :=
  match l with
  | [] => None
  | x :: l' => if p x then Some 0%nat else option_map S (find_index p l')
  end.

(** [bpy.data.materials[name]] *)
Definition materials_by_name (name : string) : Py Scene nat :=
  s <- get ;;
  expect (find_index (fun m => String.eqb (mat_name m) name) (materials s))
         (KeyError name).

(** [matslot.name]: the material's name, [''] for an empty slot. *)
Definition slot_name (ms : list Material) (slot : option nat) : string :=
  match slot with
  | Some id => match ms !! id with Some m => mat_name m | None => "" end
  | None => ""
  end.

(** [bpy.ops.render.render(write_still = True)] *)
Definition render_still : Py Scene unit :=
  modify (fun s =>
    set_renders
      (renders s ++
         [{| rc_filepath := filepath (render s);
             rc_x := resolution_x (render s);
             rc_y := resolution_y (render s);
             rc_format := file_format (render s);
             rc_color := color_mode (render s);
             rc_slots := slots s;
             rc_filler := match fillerplane s with
                          | Some (f :: _) => f
                          | _ => None
                          end;
             rc_materials := materials s;
             rc_combine := combine s |}]) s).

(** *** Pieces of the loop body, in source order *)

(** [nodes.get('textures').node_tree.nodes.get('shade')] as an index. *)
Definition shade_index (tg : TexturesGroup) : option nat :=
  find_index (fun n => String.eqb (node_name n) "shade") (tex_nodes tg).

Definition set_input1 (v : Q) (n : TexNode) : TexNode :=
  {| node_name := node_name n; node_type := node_type n;
     node_image := node_image n; node_input1 := Some v |}.

Definition set_tex_node (i : nat) (n : TexNode) (m : Material) : Material :=
  {| mat_name := mat_name m; mat_bake := mat_bake m;
     mat_textures :=
       option_map (fun tg => {| tex_nodes := <[i := n]> (tex_nodes tg);
                                tex_outputs := tex_outputs tg |})
                  (mat_textures m);
     mat_out := mat_out m; mat_combine := mat_combine m |}.

Definition set_out (o : option (option Socket)) (m : Material) : Material :=
  {| mat_name := mat_name m; mat_bake := mat_bake m;
     mat_textures := mat_textures m; mat_out := o;
     mat_combine := mat_combine m |}.

(** [links.remove(nodes['out'].inputs[0].links[0])] *)
Definition remove_out_link (id : nat) : Py Scene unit :=
  m <- material_at id ;;
  match mat_out m with
  | None => raise (KeyError "out")
  | Some None => raise IndexError
  | Some (Some _) => update_material id (set_out (Some None))
  end.

(** [links.new(src, nodes['out'].inputs[0])] *)
Definition new_out_link (id : nat) (src : Socket) : Py Scene unit :=
  m <- material_at id ;;
  match mat_out m with
  | None => raise (KeyError "out")
  | Some _ => update_material id (set_out (Some (Some src)))
  end.

(** Lines 161-172: silence the shade node's second input outside a
    normal pass, or route the normal passthrough to the output.  The
    result is [original_normal_state] when it was assigned. *)
Definition prepare_material (bake_type : string) (id : nat) : Py Scene (option Q) :=
  m <- material_at id ;;
  match mat_textures m with
  | None => ret None
  | Some tg =>
      if negb (String.eqb bake_type "normal") then
        match shade_index tg with
        | None => ret None
        | Some i =>
            toon_shading <- expect (tex_nodes tg !! i) IndexError ;;
            original_normal_state <- expect (node_input1 toon_shading) IndexError ;;
            update_material id (set_tex_node i (set_input1 0 toon_shading)) ;;
            ret (Some original_normal_state)
        end
      else
        if negb (Nat.eqb (tex_outputs tg) 0) then
          remove_out_link id ;;
          new_out_link id (TexturesOutput (tex_outputs tg - 1)) ;;
          ret None
        else ret None
  end.

(** Lines 176-182: the size of the largest image of the textures group;
    a Python list, [[0, 0]] until an image with a larger area is seen. *)
Definition highest_resolution_of (nodes : list TexNode) : list Z :=
  fold_left
    (fun highest_resolution image_node =>
       if String.eqb (node_type image_node) "TEX_IMAGE" then
         match node_image image_node with
         | Some image =>
             let image_size := (fst (img_size image) * snd (img_size image))%Z in
             let largest_so_far :=
               (nth 0 highest_resolution 0 * nth 1 highest_resolution 0)%Z in
             if (image_size >? largest_so_far)%Z
             then [fst (img_size image); snd (img_size image)]
             else highest_resolution
         | None => highest_resolution
         end
       else highest_resolution)
    nodes [0%Z; 0%Z].

(** Truth value of a Python list: non-empty. *)
Definition truthy {A} (l : list A) : bool :=
  match l with [] => false | _ => true end.

(** [size * multiplier] for an [int] size: an [int] if the multiplier is
    one, a [float] otherwise. *)
Definition times (size : Z) (multiplier : Number) : Number :=
  match multiplier with
  | PyInt z => PyInt (size * z)
  | PyFloat q => PyFloat (inject_Z size * q)
  end.

(** The host keeps a resolution between 4 and 65536. *)
Definition clamp_resolution (z : Z) : Z := Z.max 4 (Z.min 65536 z).

(** What the host makes of a value assigned to an int property with
    these limits: a [float] is refused with [TypeError], an [int] beyond
    the range of a C [int] with [ValueError], any other [int] is
    clamped. *)
Definition resolution_value (v : Number) : result Z :=
  match v with
  | PyFloat _ => Raise TypeError
  | PyInt z =>
      if (z <? -2147483648)%Z || (2147483647 <? z)%Z then Raise ValueError
      else Ok (clamp_resolution z)
  end.

(** [bpy.context.scene.render.resolution_x = v] *)
Definition set_resolution_x (v : Number) : Py Scene unit :=
  match resolution_value v with
  | Raise e => raise e
  | Ok x =>
      modify (fun s =>
        set_render {| resolution_x := x; resolution_y := resolution_y (render s);
                      filepath := filepath (render s);
                      file_format := file_format (render s);
                      color_mode := color_mode (render s) |} s)
  end.

(** [bpy.context.scene.render.resolution_y = v] *)
Definition set_resolution_y (v : Number) : Py Scene unit :=
  match resolution_value v with
  | Raise e => raise e
  | Ok y =>
      modify (fun s =>
        set_render {| resolution_x := resolution_x (render s); resolution_y := y;
                      filepath := filepath (render s);
                      file_format := file_format (render s);
                      color_mode := color_mode (render s) |} s)
  end.

Definition set_filepath (p : string) : Py Scene unit :=
  modify (fun s =>
    set_render {| resolution_x := resolution_x (render s);
                  resolution_y := resolution_y (render s);
                  filepath := p;
                  file_format := file_format (render s);
                  color_mode := color_mode (render s) |} s).

Definition set_image_settings (fmt mode : string) : Py Scene unit :=
  modify (fun s =>
    set_render {| resolution_x := resolution_x (render s);
                  resolution_y := resolution_y (render s);
                  filepath := filepath (render s);
                  file_format := fmt;
                  color_mode := mode |} s).

(** Lines 184-193 *)
Definition choose_resolution (tg : TexturesGroup) : Py Scene unit :=
  let highest_resolution := highest_resolution_of (tex_nodes tg) in
  resolution_multiplier <- gets bake_mult ;;
  if truthy highest_resolution then
    w <- expect (highest_resolution !! 0%nat) IndexError ;;
    set_resolution_x (times w resolution_multiplier) ;;
    h <- expect (highest_resolution !! 1%nat) IndexError ;;
    set_resolution_y (times h resolution_multiplier)
  else
    set_resolution_x (PyInt 64) ;;
    set_resolution_y (PyInt 64).

(** Lines 195-198: every slot not holding the current material gets the
    transparent placeholder. *)
Definition hide_other_slots (current : nat) : Py Scene unit :=
  n <- gets (fun s => length (slots s)) ;;
  for_range n (fun j =>
    s <- get ;;
    matslot <- expect (slots s !! j) IndexError ;;
    if bool_decide (matslot = Some current) then ret tt
    else
      placeholder <- materials_by_name ("KK Eyeline kage " ++ char_name s) ;;
      modify (fun s => set_slots (<[j := Some placeholder]> (slots s)) s)).

(** Line 201 *)
Definition fill_plane (current : nat) : Py Scene unit :=
  s <- get ;;
  match fillerplane s with
  | None => raise (KeyError "fillerplane")
  | Some [] => raise IndexError
  | Some (_ :: rest) => modify (set_fillerplane (Some (Some current :: rest)))
  end.

(** Lines 204-205: the file stem *)
Definition output_stem (name : string) : string :=
  let matname := sanitizeMaterialName name in
  if String.eqb (Str.last4 matname) "-ORG" then Str.drop_last4 matname
  else matname.

(** Lines 174-214 *)
Definition render_material (folderpath bake_type : string) (id : nat) : Py Scene unit :=
  m <- material_at id ;;
  match mat_textures m with
  | None => ret tt
  | Some tg =>
      choose_resolution tg ;;
      hide_other_slots id ;;
      fill_plane id ;;
      current_material <- material_at id ;;
      set_filepath (folderpath ++ output_stem (mat_name current_material)
                               ++ " " ++ bake_type) ;;
      set_image_settings "PNG" "RGBA" ;;
      render_still ;;
      set_filepath folderpath
  end.

(** Lines 216-226 *)
Definition restore_material (bake_type : string) (id : nat)
    (original_normal_state : option Q) : Py Scene unit :=
  m <- material_at id ;;
  match mat_textures m with
  | None => ret tt
  | Some tg =>
      if negb (String.eqb bake_type "normal") then
        match shade_index tg with
        | None => ret tt
        | Some i =>
            toon_shading <- expect (tex_nodes tg !! i) IndexError ;;
            v <- expect original_normal_state (RuntimeError "unbound local") ;;
            update_material id (set_tex_node i (set_input1 v toon_shading))
        end
      else
        if negb (Nat.eqb (tex_outputs tg) 0) then
          remove_out_link id ;;
          (if mat_combine m then new_out_link id CombineOutput0
           else raise (KeyError "combine"))
        else ret tt
  end.

(** Lines 228-230 *)
Definition restore_slots (original_material_order : list string) : Py Scene unit :=
  for_range (length original_material_order) (fun material_index =>
    name <- expect (original_material_order !! material_index) IndexError ;;
    id <- materials_by_name name ;;
    s <- get ;;
    if bool_decide (material_index < length (slots s))%nat
    then modify (fun s => set_slots (<[material_index := Some id]> (slots s)) s)
    else raise IndexError).

(** The body of the loop over [object_to_bake.data.materials]. *)
Definition bake_material (folderpath bake_type : string)
    (original_material_order : list string) (index : nat) : Py Scene unit :=
  s <- get ;;
  slot <- expect (slots s !! index) IndexError ;;
  match slot with
  | None => raise AttributeError
  | Some id =>
      current_material <- material_at id ;;
      if negb (mat_bake current_material) then
        kklog ("Detected material that cannot be finalized. Skipping: "
                 ++ mat_name current_material)
      else
        original_normal_state <- prepare_material bake_type id ;;
        render_material folderpath bake_type id ;;
        restore_material bake_type id original_normal_state ;;
        restore_slots original_material_order
  end.

(** Lines 147-149 *)
Definition force_light_level (bake_type : string) : Py Scene unit :=
  s <- get ;;
  match combine s with
  | None => raise (KeyError ".Combine colors")
  | Some c =>
      match mix_link c with
      | None => raise IndexError
      | Some _ =>
          modify (set_combine
            (Some {| mix_link := None;
                     mix_value := if String.eqb bake_type "light" then 1 else 0 |}))
      end
  end.

(** Lines 233-234 *)
Definition relink_light_level : Py Scene unit :=
  s <- get ;;
  match combine s with
  | None => raise (KeyError ".Combine colors")
  | Some c =>
      modify (set_combine
        (Some {| mix_link := Some "input.outputs[2]"; mix_value := mix_value c |}))
  end.

Definition bake_pass (folderpath bake_type : string) : Py Scene unit :=
  s <- get ;;
  let original_material_order := map (slot_name (materials s)) (slots s) in
  force_light_level bake_type ;;
  for_range (length (slots s))
    (bake_material folderpath bake_type original_material_order) ;;
  relink_light_level.

(** *** Vocabulary of the statements *)

Definition names (s : Scene) : list string := map mat_name (materials s).
Definition bakes (s : Scene) : list bool := map mat_bake (materials s).
Definition slot_count (s : Scene) : nat := length (slots s).

(** The host keeps material names non-empty and unique, so that a name
    resolves to the material that carries it. *)
Definition unique_names (ms : list Material) : Prop :=
  forall id m, ms !! id = Some m ->
    mat_name m <> "" /\
    find_index (fun m' => String.eqb (mat_name m') (mat_name m)) ms = Some id.

(** The material a render call shows on the filler plane is bake-tagged. *)
Definition exposes_baked (rc : RenderCall) : Prop :=
  exists id m, rc_filler rc = Some id /\ rc_materials rc !! id = Some m /\
               mat_bake m = true.

(** The render call [bake_pass] makes for material [id] (whose data at
    that point is [m], its largest image being [w] by [h]) from scene [s]. *)
Definition render_call_of (folderpath bake_type : string) (id : nat)
    (m : Material) (w h : Z) (s : Scene) (rc : RenderCall) : Prop :=
  rc_filepath rc =
    (folderpath ++ output_stem (mat_name m) ++ " " ++ bake_type)%string /\
  resolution_value (times w (bake_mult s)) = Ok (rc_x rc) /\
  resolution_value (times h (bake_mult s)) = Ok (rc_y rc) /\
  rc_format rc = "PNG" /\ rc_color rc = "RGBA" /\
  rc_filler rc = Some id /\
  rc_materials rc = materials s /\ rc_combine rc = combine s.

(** The render size the material's textures group calls for, if it has
    such a group. *)
Definition resolution_of (m : Material) : option (list Z) :=
  option_map (fun tg => highest_resolution_of (tex_nodes tg)) (mat_textures m).

(** Processing slot [index] from scene [s] made exactly one render call,
    for the bake-tagged material in that slot, reaching scene [s']. *)
Definition rendered (folderpath bake_type : string) (index : nat)
    (s s' : Scene) : Prop :=
  exists id m w h rc,
    slots s !! index = Some (Some id) /\ materials s !! id = Some m /\
    mat_bake m = true /\ resolution_of m = Some [w; h] /\
    renders s' = renders s ++ [rc] /\
    rc_filepath rc =
      (folderpath ++ output_stem (mat_name m) ++ " " ++ bake_type)%string /\
    resolution_value (times w (bake_mult s)) = Ok (rc_x rc) /\
    resolution_value (times h (bake_mult s)) = Ok (rc_y rc) /\
    rc_filler rc = Some id /\ rc_combine rc = combine s.

(** The light level as [bake_pass] forces it before the loop. *)
Definition forced_light_level (bake_type : string) : Combine :=
  {| mix_link := None;
     mix_value := if String.eqb bake_type "light" then 1 else 0 |}.

End Bake.

(* ===================================================================== *)
(** ** The projection rig: [setup_camera] and [cleanup] *)

Module Rig.

(** An object of the scene.  Objects are referred to by name, which the
    host keeps unique among objects. *)
Record Object : Type := {
  ob_name : string;
  ob_type : string;                   (* ['CAMERA'], ['MESH'], ... *)
  ob_data : string;                   (* name of the data-block it uses *)
  ob_selected : bool;
  ob_modifiers : list string;         (* modifier names, in stack order *)
  ob_drivers : option (list string);  (* [animation_data.drivers]; [None]: no animation data *)
  ob_scale : Q * Q * Q
}.

(** Camera data ([bpy.data.cameras]). *)
Record Camera : Type := {
  cam_name : string;
  cam_type : string;                  (* ['PERSP'] or ['ORTHO'] *)
  cam_ortho_scale : Q;
  cam_other_users : nat               (* users besides the objects of this scene: fake user, other scenes *)
}.

(** Mesh data ([bpy.data.meshes]). *)
Record Mesh : Type := {
  mesh_name : string;
  mesh_other_users : nat
}.

(** The part of the host scene the rig functions read and write.  One
    scene with one view layer: [bpy.context.scene.objects],
    [bpy.context.view_layer.objects] and [bpy.data.objects] are the same
    collection. *)
Record Scene : Type := {
  objects : list Object;
  cameras : list Camera;
  meshes : list Mesh;
  node_groups : list string;          (* names in [bpy.data.node_groups] *)
  active_object : option string;      (* [bpy.context.active_object] *)
  scene_camera : option string;       (* [bpy.context.scene.camera] *)
  pixel_aspect_x : Q;
  pixel_aspect_y : Q
}.

Definition set_objects (os : list Object) (s : Scene) : Scene :=
  {| objects := os; cameras := cameras s; meshes := meshes s;
     node_groups := node_groups s; active_object := active_object s;
     scene_camera := scene_camera s; pixel_aspect_x := pixel_aspect_x s;
     pixel_aspect_y := pixel_aspect_y s |}.
Definition set_cameras (cs : list Camera) (s : Scene) : Scene :=
  {| objects := objects s; cameras := cs; meshes := meshes s;
     node_groups := node_groups s; active_object := active_object s;
     scene_camera := scene_camera s; pixel_aspect_x := pixel_aspect_x s;
     pixel_aspect_y := pixel_aspect_y s |}.
Definition set_meshes (ms : list Mesh) (s : Scene) : Scene :=
  {| objects := objects s; cameras := cameras s; meshes := ms;
     node_groups := node_groups s; active_object := active_object s;
     scene_camera := scene_camera s; pixel_aspect_x := pixel_aspect_x s;
     pixel_aspect_y := pixel_aspect_y s |}.
Definition set_node_groups (gs : list string) (s : Scene) : Scene :=
  {| objects := objects s; cameras := cameras s; meshes := meshes s;
     node_groups := gs; active_object := active_object s;
     scene_camera := scene_camera s; pixel_aspect_x := pixel_aspect_x s;
     pixel_aspect_y := pixel_aspect_y s |}.
Definition set_active_object (a : option string) (s : Scene) : Scene :=
  {| objects := objects s; cameras := cameras s; meshes := meshes s;
     node_groups := node_groups s; active_object := a;
     scene_camera := scene_camera s; pixel_aspect_x := pixel_aspect_x s;
     pixel_aspect_y := pixel_aspect_y s |}.
Definition set_scene_camera (c : option string) (s : Scene) : Scene :=
  {| objects := objects s; cameras := cameras s; meshes := meshes s;
     node_groups := node_groups s; active_object := active_object s;
     scene_camera := c; pixel_aspect_x := pixel_aspect_x s;
     pixel_aspect_y := pixel_aspect_y s |}.
Definition set_pixel_aspect (x y : Q) (s : Scene) : Scene :=
  {| objects := objects s; cameras := cameras s; meshes := meshes s;
     node_groups := node_groups s; active_object := active_object s;
     scene_camera := scene_camera s; pixel_aspect_x := x;
     pixel_aspect_y := y |}.

Definition set_selected (b : bool) (o : Object) : Object :=
  {| ob_name := ob_name o; ob_type := ob_type o; ob_data := ob_data o;
     ob_selected := b; ob_modifiers := ob_modifiers o;
     ob_drivers := ob_drivers o; ob_scale := ob_scale o |}.

Definition set_camera_type (t : string) (c : Camera) : Camera :=
  {| cam_name := cam_name c; cam_type := t;
     cam_ortho_scale := cam_ortho_scale c;
     cam_other_users := cam_other_users c |}.

Definition set_ortho_scale (v : Q) (c : Camera) : Camera :=
  {| cam_name := cam_name c; cam_type := cam_type c;
     cam_ortho_scale := v; cam_other_users := cam_other_users c |}.

(** *** Host primitives *)

(** The name the host gives a new data-block: the requested name if it is
    free, else the first free one among [name.001], [name.002], ...  For
    a requested name that itself ends in such a number the host goes on
    from that number instead of appending a second one; no statement
    below reads a name generated that way. *)
Definition digit (n : nat) : ascii := ascii_of_nat (48 + n mod 10).

Definition numbered (base : string) (k : nat) : string :=
  base ++ "." ++ String (digit (k / 100)) (String (digit (k / 10)) (String (digit k) "")).

Definition taken (names : list string) (name : string) : bool :=
  existsb (String.eqb name) names.

Fixpoint first_free (base : string) (names : list string) (k fuel : nat) : string :=
  match fuel with
  | O => numbered base k
  | S fuel' =>
      if taken names (numbered base k) then first_free base names (S k) fuel'
      else numbered base k
  end.

Definition unique_name (base : string) (names : list string) : string :=
  if taken names base then first_free base names 1 (length names) else base.

(** [block.users] for camera data and for mesh data. *)
Definition users_of (type name : string) (others : nat) (s : Scene) : nat :=
  (length (List.filter (fun o => String.eqb (ob_type o) type && String.eqb (ob_data o) name)
                  (objects s)) + others)%nat.

Definition camera_users (c : Camera) (s : Scene) : nat :=
  users_of "CAMERA" (cam_name c) (cam_other_users c) s.

Definition mesh_users (m : Mesh) (s : Scene) : nat :=
  users_of "MESH" (mesh_name m) (mesh_other_users m) s.

(** Removing objects: references to them from the scene are cleared. *)
Definition clear_if_gone (gone : list string) (ref : option string) : option string :=
  match ref with
  | Some name => if taken gone name then None else Some name
  | None => None
  end.

Definition keep_objects (keep : Object -> bool) (s : Scene) : Scene :=
  let gone := map ob_name (List.filter (fun o => negb (keep o)) (objects s)) in
  set_scene_camera (clear_if_gone gone (scene_camera s))
    (set_active_object (clear_if_gone gone (active_object s))
       (set_objects (List.filter keep (objects s)) s)).

(** [bpy.ops.object.delete()]: the selected objects go. *)
Definition delete_selected : Py Scene unit :=
  modify (keep_objects (fun o => negb (ob_selected o))).

(** [for block in bpy.data.cameras: if block.users == 0: remove(block)] *)
Definition purge_cameras : Py Scene unit :=
  modify (fun s =>
    set_cameras (List.filter (fun c => negb (Nat.eqb (camera_users c s) 0)) (cameras s)) s).

(** [for block in bpy.data.meshes: if block.users == 0: remove(block)] *)
Definition purge_meshes : Py Scene unit :=
  modify (fun s =>
    set_meshes (List.filter (fun m => negb (Nat.eqb (mesh_users m s) 0)) (meshes s)) s).

(** [bpy.ops.object.camera_add(...)]: a new perspective camera and the
    object that carries it; the object becomes the only selected object
    and the active one. *)
Definition camera_add : Py Scene unit :=
  modify (fun s =>
    let data_name := unique_name "Camera" (map cam_name (cameras s)) in
    let object_name := unique_name "Camera" (map ob_name (objects s)) in
    let data := {| cam_name := data_name; cam_type := "PERSP";
                   cam_ortho_scale := 6; cam_other_users := 0 |} in
    let object := {| ob_name := object_name; ob_type := "CAMERA";
                     ob_data := data_name; ob_selected := true;
                     ob_modifiers := []; ob_drivers := None;
                     ob_scale := (1, 1, 1)%Q |} in
    set_active_object (Some object_name)
      (set_cameras (cameras s ++ [data])
         (set_objects (map (set_selected false) (objects s) ++ [object]) s))).

(** [bpy.data.cameras[name].field = value] *)
Definition update_camera_named (name : string) (f : Camera -> Camera) : Py Scene unit :=
  s <- get ;;
  match Bake.find_index (fun c => String.eqb (cam_name c) name) (cameras s) with
  | None => raise (KeyError name)
  | Some i =>
      match cameras s !! i with
      | Some c => modify (set_cameras (<[i := f c]> (cameras s)))
      | None => raise (KeyError name)
      end
  end.

(** *** [setup_camera] *)

Definition setup_camera : Py Scene string :=
  (* Delete all cameras in the scene *)
  modify (fun s =>
    set_objects
      (map (fun obj => set_selected (String.eqb (ob_type obj) "CAMERA") obj)
           (objects s)) s) ;;
  delete_selected ;;
  purge_cameras ;;
  (* Add a new camera *)
  camera_add ;;
  s <- get ;;
  camera <- expect (active_object s) AttributeError ;;
  (* and set it as the active one *)
  modify (set_scene_camera (Some camera)) ;;
  (* Set camera to orthographic *)
  update_camera_named camera (set_camera_type "ORTHO") ;;
  update_camera_named camera (set_ortho_scale 6) ;;
  modify (fun s => set_pixel_aspect (pixel_aspect_x s) 1 s) ;;
  modify (fun s => set_pixel_aspect 1 (pixel_aspect_y s) s) ;;
  ret camera.

(** *** [cleanup] *)

(** [ob.modifiers.remove(ob.modifiers['Flattener'])]: the first modifier
    of that name goes. *)
Fixpoint remove_first (name : string) (l : list string) : list string :=
  match l with
  | [] => []
  | x :: l' => if String.eqb x name then l' else x :: remove_first name l'
  end.

Definition update_object (name : string) (f : Object -> Object) : Py Scene unit :=
  modify (fun s =>
    set_objects
      (map (fun o => if String.eqb (ob_name o) name then f o else o) (objects s)) s).

Definition object_named (name : string) : Py Scene Object :=
  s <- get ;;
  expect (find (fun o => String.eqb (ob_name o) name) (objects s))
         (RuntimeError "removed object").

(** [ob.animation_data.drivers.remove(ob.animation_data.drivers[0])] *)
Definition remove_first_driver (name : string) : Py Scene unit :=
  ob <- object_named name ;;
  match ob_drivers ob with
  | None => raise AttributeError
  | Some [] => raise IndexError
  | Some (_ :: rest) =>
      update_object name (fun o =>
        {| ob_name := ob_name o; ob_type := ob_type o; ob_data := ob_data o;
           ob_selected := ob_selected o; ob_modifiers := ob_modifiers o;
           ob_drivers := Some rest; ob_scale := ob_scale o |})
  end.

(** Lines 252-259, for one mesh object. *)
Definition unflatten (name : string) : Py Scene unit :=
  ob <- object_named name ;;
  if taken (ob_modifiers ob) "Flattener" then
    update_object name (fun o =>
      {| ob_name := ob_name o; ob_type := ob_type o; ob_data := ob_data o;
         ob_selected := ob_selected o;
         ob_modifiers := remove_first "Flattener" (ob_modifiers o);
         ob_drivers := ob_drivers o; ob_scale := ob_scale o |}) ;;
    remove_first_driver name ;;
    remove_first_driver name ;;
    update_object name (fun o =>
      {| ob_name := ob_name o; ob_type := ob_type o; ob_data := ob_data o;
         ob_selected := ob_selected o; ob_modifiers := ob_modifiers o;
         ob_drivers := ob_drivers o; ob_scale := (1, 1, 1)%Q |})
  else ret tt.

Definition cleanup : Py Scene unit :=
  (* Deselect all objects *)
  modify (fun s => set_objects (map (set_selected false) (objects s)) s) ;;
  (* the cameras *)
  modify (keep_objects (fun o => negb (String.eqb (ob_type o) "CAMERA"))) ;;
  (* the filler planes *)
  modify (keep_objects (fun o => negb (Str.contains "fillerplane" (ob_name o)))) ;;
  (* delete orphan data *)
  purge_meshes ;;
  purge_cameras ;;
  s <- get ;;
  for_each
    (map ob_name (List.filter (fun obj => String.eqb (ob_type obj) "MESH") (objects s)))
    unflatten ;;
  s <- get ;;
  if taken (node_groups s) ".Geometry Nodes" then
    modify (fun s =>
      set_node_groups (remove_first ".Geometry Nodes" (node_groups s)) s)
  else raise (KeyError ".Geometry Nodes").

(** *** Vocabulary of the statements *)

(** A scene with nothing of the rig left in it, the node-graph asset
    apart: no camera, no filler plane, no Flattener modifier. *)
Definition rig_free (s : Scene) : Prop :=
  Forall (fun o => ob_type o <> "CAMERA" /\
                   Str.contains "fillerplane" (ob_name o) = false /\
                   taken (ob_modifiers o) "Flattener" = false) (objects s).

(** Nothing is selected and no mesh or camera data is orphaned. *)
Definition settled (s : Scene) : Prop :=
  Forall (fun o => ob_selected o = false) (objects s) /\
  Forall (fun m => mesh_users m s <> 0%nat) (meshes s) /\
  Forall (fun c => camera_users c s <> 0%nat) (cameras s).

(** The camera objects of the scene. *)
Definition camera_objects (s : Scene) : list Object :=
  List.filter (fun o => String.eqb (ob_type o) "CAMERA") (objects s).

(** The data-block an object uses, found among the cameras. *)
Definition camera_data_of (o : Object) (s : Scene) : option Camera :=
  find (fun c => String.eqb (cam_name c) (ob_data o)) (cameras s).

End Rig.

(* ===================================================================== *)
(** ** The pipeline driver ([bake_materials.execute]) *)

Module Driver.

(** What an operator returns. *)
Inductive Status : Type := FINISHED | CANCELLED.

(** The host as the driver sees it: the scene [W] the pipeline works on,
    the viewport shading mode, the log and the reports shown to the user. *)
Record Host (W : Type) : Type := {
  world : W;
  viewport_shading : string;
  log : list (option string * string);   (* [c.kklog(line, type = ...)] *)
  reports : list (string * string)       (* [self.report({kind}, message)] *)
}.
Arguments world {W} _.
Arguments viewport_shading {W} _.
Arguments log {W} _.
Arguments reports {W} _.

(** [traceback.format_exc()] for the exception being handled. *)
Definition format_exc (e : exn) : string :=
  "Traceback (most recent call last): " ++
  match e with
  | KeyError key => "KeyError: " ++ key
  | IndexError => "IndexError"
  | AttributeError => "AttributeError"
  | TypeError => "TypeError"
  | ValueError => "ValueError"
  | RuntimeError msg => "RuntimeError: " ++ msg
  end.

Section Execute.
Context {W : Type}.

Definition kklog (line : string) (type : option string) : Py (Host W) unit :=
  modify (fun h =>
    {| world := world h; viewport_shading := viewport_shading h;
       log := log h ++ [(type, line)]; reports := reports h |}).

Definition set_viewport_shading (mode : string) : Py (Host W) unit :=
  modify (fun h =>
    {| world := world h; viewport_shading := mode;
       log := log h; reports := reports h |}).

Definition report (kind message : string) : Py (Host W) unit :=
  modify (fun h =>
    {| world := world h; viewport_shading := viewport_shading h;
       log := log h; reports := reports h ++ [(kind, message)] |}).

(** Running a step of the pipeline on the scene. *)
Definition on_world {A} (m : Py W A) : Py (Host W) A :=
  zoom world
    (fun w h => {| world := w; viewport_shading := viewport_shading h;
                   log := log h; reports := reports h |})
    m.

(** Lines 555-653, everything the [try] block does before its closing
    log line: baking every object, rebinding, the optional atlas and the
    exporter setup.  It may change the host in any way and raise anywhere. *)
Variable pipeline : Py (Host W) unit.

(** [str(time.time() - last_step)[0:4]] *)
Variable elapsed : string.

Definition execute : Py (Host W) Status :=
  try_except
    (pipeline ;;
     kklog ("Finished in " ++ elapsed ++ "s") None ;;
     set_viewport_shading "SOLID" ;;
     ret FINISHED)
    (fun e =>
       kklog "Unknown python error occurred" (Some "error") ;;
       kklog (format_exc e) None ;;
       set_viewport_shading "SOLID" ;;
       report "ERROR" (format_exc e) ;;
       ret CANCELLED).

(** The host after the handler ran on what the failed pipeline left. *)
Definition failed (h : Host W) (e : exn) : Host W :=
  {| world := world h;
     viewport_shading := "SOLID";
     log := (log h ++ [(Some "error", "Unknown python error occurred")])
              ++ [(None, format_exc e)];
     reports := reports h ++ [("ERROR", format_exc e)] |}.

End Execute.

End Driver.

(* ===================================================================== *)
(** ** The scale drivers of [setup_geometry_nodes_and_fillerplane] *)

Module Drivers.

(** The driver variables: [r_x] and [r_y] read the render resolution,
    [cOS] the camera's orthographic scale.  The expressions are evaluated
    by the host as Python on floating-point numbers; here they are read
    over the rationals, which gives the value the host approximates.
    Only what rounding cannot change is stated of them: which branch is
    taken, the sign, the bound by [cOS] and the branch that returns [cOS]
    itself.  A division by zero makes the driver fail ([None]). *)

(** ["((r_x)/(r_y)*(cOS)) if (((r_x)/(r_y)) < 1) else (cOS)"], the
    expression of the X scale of the bake object and of the filler plane. *)
Definition scale_x_expression (r_x r_y cOS : Q) : option Q :=
  if Qeq_bool r_y 0 then None
  else Some (if negb (Qle_bool 1 (r_x / r_y)) then r_x / r_y * cOS else cOS)%Q.

(** ["((r_y)/(r_x)*(cOS)) if (((r_y)/(r_x)) < 1) else (cOS)"], the
    expression of their Y scale. *)
Definition scale_y_expression (r_x r_y cOS : Q) : option Q :=
  if Qeq_bool r_x 0 then None
  else Some (if negb (Qle_bool 1 (r_y / r_x)) then r_y / r_x * cOS else cOS)%Q.

End Drivers.

(* ===================================================================== *)
(** ** The search of the layer tree: [recurLayerCollection] *)

Module Layers.

(** [bpy.types.LayerCollection]: a name and the child layer collections,
    in the order the host lists them. *)
#[warnings="-register-all"]
Inductive LayerCollection : Type :=
| Layer (name : string) (children : list LayerCollection).

Definition name (l : LayerCollection) : string :=
  match l with Layer n _ => n end.

Definition children (l : LayerCollection) : list LayerCollection :=
  match l with Layer _ cs => cs end.

(** Lines 349-356 and again 626-633.  A layer collection is a truthy
    object, so [if found:] tests for [None]; falling off the end of the
    function returns [None]. *)
Fixpoint recurLayerCollection (layerColl : LayerCollection) (collName : string)
  : option LayerCollection :=
  match layerColl with
  | Layer n cs =>
      if String.eqb n collName then Some layerColl
      else
        (fix loop (layers : list LayerCollection) : option LayerCollection :=
           match layers with
           | [] => None
           | layer :: rest =>
               match recurLayerCollection layer collName with
               | Some found => Some found
               | None => loop rest
               end
           end) cs
  end.

(** The layer collections of a tree, parents before children and
    siblings in order. *)
Fixpoint preorder (l : LayerCollection) : list LayerCollection :=
  match l with
  | Layer _ cs => l :: flat_map preorder cs
  end.

(** Nesting depth, to reason by induction on the tree. *)
Fixpoint depth (l : LayerCollection) : nat :=
  match l with
  | Layer _ cs => S (list_max (map depth cs))
  end.

End Layers.

(* ===================================================================== *)
(** ** Stages of [setup_camera], named for the statements *)

Module RigStages.
Import Rig.

(** The scene once the camera objects are deleted and the orphaned camera
    data purged (lines 27-35). *)
Definition cleared (s : Scene) : Scene :=
  let s1 :=
    keep_objects (fun o => negb (ob_selected o))
      (set_objects
         (map (fun obj => set_selected (String.eqb (ob_type obj) "CAMERA") obj)
              (objects s)) s) in
  set_cameras
    (List.filter (fun c => negb (Nat.eqb (camera_users c s1) 0)) (cameras s1)) s1.

(** The names the host gives the new object and its data (line 38). *)
Definition new_object_name (s : Scene) : string :=
  unique_name "Camera" (map ob_name (objects (cleared s))).

Definition new_data_name (s : Scene) : string :=
  unique_name "Camera" (map cam_name (cameras (cleared s))).

Definition new_object (s : Scene) : Object :=
  {| ob_name := new_object_name s; ob_type := "CAMERA";
     ob_data := new_data_name s; ob_selected := true;
     ob_modifiers := []; ob_drivers := None; ob_scale := (1, 1, 1)%Q |}.

Definition new_data (s : Scene) : Camera :=
  {| cam_name := new_data_name s; cam_type := "PERSP";
     cam_ortho_scale := 6; cam_other_users := 0 |}.

(** The scene once the new camera is the scene camera (line 42). *)
Definition with_camera (s : Scene) : Scene :=
  set_scene_camera (Some (new_object_name s))
    (set_active_object (Some (new_object_name s))
       (set_cameras (cameras (cleared s) ++ [new_data s])
          (set_objects
             (map (set_selected false) (objects (cleared s)) ++ [new_object s])
             (cleared s)))).

(** A scene in which the host gives the new camera and its data the same
    name: no other kind of object is called [Camera], and no camera data
    of that name is held by a user outside the scene's objects. *)
Definition camera_name_free (s : Scene) : Prop :=
  Forall (fun o => ob_type o = "CAMERA" \/ ob_name o <> "Camera") (objects s) /\
  Forall (fun c => cam_other_users c = 0%nat \/ cam_name c <> "Camera") (cameras s).

(** *** Stages of [cleanup] *)

Definition is_rig_object (o : Object) : bool :=
  String.eqb (ob_type o) "CAMERA" || Str.contains "fillerplane" (ob_name o).

(** The scene once the camera and filler-plane objects are removed and
    the orphaned data purged (lines 238-250). *)
Definition stripped (s : Scene) : Scene :=
  let s1 :=
    keep_objects (fun o => negb (Str.contains "fillerplane" (ob_name o)))
      (keep_objects (fun o => negb (String.eqb (ob_type o) "CAMERA"))
         (set_objects (map (set_selected false) (objects s)) s)) in
  let s2 :=
    set_meshes (List.filter (fun m => negb (Nat.eqb (mesh_users m s1) 0)) (meshes s1)) s1 in
  set_cameras (List.filter (fun c => negb (Nat.eqb (camera_users c s2) 0)) (cameras s2)) s2.

(** A mesh object that carries the flattening modifier. *)
Definition flattened (o : Object) : bool :=
  String.eqb (ob_type o) "MESH" && taken (ob_modifiers o) "Flattener".

Definition has_two_drivers (o : Object) : bool :=
  match ob_drivers o with
  | Some (_ :: _ :: _) => true
  | _ => false
  end.

(** What lines 254-259 make of an object: the modifier and the first two
    drivers are gone and the scale is reset. *)
Definition unflattened_with (drivers : list string) (o : Object) : Object :=
  {| ob_name := ob_name o; ob_type := ob_type o; ob_data := ob_data o;
     ob_selected := ob_selected o;
     ob_modifiers := remove_first "Flattener" (ob_modifiers o);
     ob_drivers := Some drivers; ob_scale := (1, 1, 1)%Q |}.

Definition unflattened (o : Object) : Object :=
  if flattened o then unflattened_with (drop 2 (default [] (ob_drivers o))) o else o.

(** The loop of lines 252-259 over the objects named in [names]. *)
Definition restored (names : list string) (o : Object) : Object :=
  if taken names (ob_name o) && taken (ob_modifiers o) "Flattener"
  then unflattened_with (drop 2 (default [] (ob_drivers o))) o
  else o.

(** The flattened objects named in [names] have their two drivers. *)
Definition drivers_in_place (names : list string) (o : Object) : Prop :=
  In (ob_name o) names -> taken (ob_modifiers o) "Flattener" = true ->
  has_two_drivers o = true.

(** A flattened mesh that outlives the removal of the rig objects but
    has fewer than two drivers, or no animation data at all. *)
Definition lacks_drivers (o : Object) : bool :=
  negb (is_rig_object o) && flattened o && negb (has_two_drivers o).

(** The scene [cleanup] leaves when every step of it succeeds. *)
Definition cleaned (s : Scene) : Scene :=
  set_node_groups (remove_first ".Geometry Nodes" (node_groups s))
    (set_objects
       (map (fun o => unflattened (set_selected false o))
            (List.filter (fun o => negb (is_rig_object o)) (objects s)))
       (stripped s)).

(** The observation of the objects that the loop over the meshes leaves
    alone: which objects there are, by name and type. *)
Definition object_keys (s : Scene) : list (string * string) :=
  map (fun o => (ob_name o, ob_type o)) (objects s).

End RigStages.

(* ===================================================================== *)
(** ** Rebinding the baked images: [replace_all_baked_materials] *)

Module Rebind.

(** A material, as far as the rebinding reads and writes it. *)
Record Material : Type := {
  mat_name : string;
  mat_simple : bool;           (* [mat.get('simple')] is truthy *)
  mat_bake : bool;             (* [mat.get('bake')] is truthy *)
  mat_textures : option nat;   (* the group of the node ['textures']; [None]: no such node *)
  mat_fake_user : bool;
  mat_blend : string;          (* [blend_method]; [surface_render_method] from Blender 4 on *)
  mat_back : bool              (* [show_transparent_back]; [use_transparency_overlap] from Blender 4 on *)
}.

(** A node group: its name and its nodes, each with the image it shows. *)
Record Group : Type := {
  grp_name : string;
  grp_nodes : list (string * option string)
}.

(** Materials and node groups are referred to by their position in the
    registry (new data-blocks are appended, none is removed here), images
    by name (none is renamed here).  [slots] are the material slots of
    the object being rebound. *)
Record Scene : Type := {
  materials : list Material;
  node_groups : list Group;
  images : list string;
  slots : list (option nat)
}.

(** What the local variable [simple] holds. *)
Inductive Block : Type :=
| MaterialBlock (id : nat)
| NodeTreeBlock (id : nat).

Definition set_materials (ms : list Material) (s : Scene) : Scene :=
  {| materials := ms; node_groups := node_groups s; images := images s;
     slots := slots s |}.
Definition set_node_groups (gs : list Group) (s : Scene) : Scene :=
  {| materials := materials s; node_groups := gs; images := images s;
     slots := slots s |}.
Definition set_slots (sl : list (option nat)) (s : Scene) : Scene :=
  {| materials := materials s; node_groups := node_groups s; images := images s;
     slots := sl |}.

Definition set_name (name : string) (m : Material) : Material :=
  {| mat_name := name; mat_simple := mat_simple m; mat_bake := mat_bake m;
     mat_textures := mat_textures m; mat_fake_user := mat_fake_user m;
     mat_blend := mat_blend m; mat_back := mat_back m |}.
Definition set_simple (b : bool) (m : Material) : Material :=
  {| mat_name := mat_name m; mat_simple := b; mat_bake := mat_bake m;
     mat_textures := mat_textures m; mat_fake_user := mat_fake_user m;
     mat_blend := mat_blend m; mat_back := mat_back m |}.
Definition set_textures (g : nat) (m : Material) : Material :=
  {| mat_name := mat_name m; mat_simple := mat_simple m; mat_bake := mat_bake m;
     mat_textures := Some g; mat_fake_user := mat_fake_user m;
     mat_blend := mat_blend m; mat_back := mat_back m |}.
Definition set_fake_user (b : bool) (m : Material) : Material :=
  {| mat_name := mat_name m; mat_simple := mat_simple m; mat_bake := mat_bake m;
     mat_textures := mat_textures m; mat_fake_user := b;
     mat_blend := mat_blend m; mat_back := mat_back m |}.
Definition set_blend (v : string) (m : Material) : Material :=
  {| mat_name := mat_name m; mat_simple := mat_simple m; mat_bake := mat_bake m;
     mat_textures := mat_textures m; mat_fake_user := mat_fake_user m;
     mat_blend := v; mat_back := mat_back m |}.
Definition set_back (b : bool) (m : Material) : Material :=
  {| mat_name := mat_name m; mat_simple := mat_simple m; mat_bake := mat_bake m;
     mat_textures := mat_textures m; mat_fake_user := mat_fake_user m;
     mat_blend := mat_blend m; mat_back := b |}.

(** *** Host primitives *)

Definition material_at (id : nat) : Py Scene Material :=
  s <- get ;; expect (materials s !! id) (RuntimeError "removed data-block").

Definition update_material (id : nat) (f : Material -> Material) : Py Scene unit :=
  m <- material_at id ;;
  modify (fun s => set_materials (<[id := f m]> (materials s)) s).

Definition group_at (g : nat) : Py Scene Group :=
  s <- get ;; expect (node_groups s !! g) (RuntimeError "removed data-block").

(** [bpy.data.materials[name]] *)
Definition materials_by_name (name : string) : Py Scene nat :=
  s <- get ;;
  expect (Bake.find_index (fun m => String.eqb (mat_name m) name) (materials s))
         (KeyError name).

(** [bpy.data.node_groups[name]] *)
Definition node_groups_by_name (name : string) : Py Scene nat :=
  s <- get ;;
  expect (Bake.find_index (fun g => String.eqb (grp_name g) name) (node_groups s))
         (KeyError name).

(** [material.node_tree.nodes['textures'].node_tree] *)
Definition textures_group_of (id : nat) : Py Scene nat :=
  m <- material_at id ;; expect (mat_textures m) (KeyError "textures").

(** [group.nodes[node].image = image] *)
Definition set_node_image (g : nat) (node image : string) : Py Scene unit :=
  grp <- group_at g ;;
  match Bake.find_index (fun n => String.eqb (fst n) node) (grp_nodes grp) with
  | None => raise (KeyError node)
  | Some k =>
      modify (fun s =>
        set_node_groups
          (<[g := {| grp_name := grp_name grp;
                     grp_nodes := <[k := (node, Some image)]> (grp_nodes grp) |}]>
             (node_groups s)) s)
  end.

(** [material.name = name]: the host keeps names unique among the other
    materials. *)
Definition rename_material (id : nat) (name : string) : Py Scene unit :=
  s <- get ;;
  update_material id
    (set_name (Rig.unique_name name (map mat_name (delete id (materials s))))).

(** [group.name = name] *)
Definition rename_group (g : nat) (name : string) : Py Scene unit :=
  s <- get ;;
  grp <- group_at g ;;
  modify (set_node_groups
    (<[g := {| grp_name :=
                 Rig.unique_name name (map grp_name (delete g (node_groups s)));
               grp_nodes := grp_nodes grp |}]> (node_groups s))).

(** [material.copy()]: a new data-block under a free name, without the
    fake user; the copy's ['textures'] node shows the same group. *)
Definition copy_material (id : nat) : Py Scene nat :=
  m <- material_at id ;;
  s <- get ;;
  modify (set_materials
    (materials s ++
     [set_fake_user false
        (set_name (Rig.unique_name (mat_name m) (map mat_name (materials s))) m)])) ;;
  ret (length (materials s)).

(** [group.copy()] *)
Definition copy_group (g : nat) : Py Scene nat :=
  grp <- group_at g ;;
  s <- get ;;
  modify (set_node_groups
    (node_groups s ++
     [{| grp_name := Rig.unique_name (grp_name grp) (map grp_name (node_groups s));
         grp_nodes := grp_nodes grp |}])) ;;
  ret (length (node_groups s)).

(** [mat.material], for the slot [mat]; reading an attribute of the
    [None] of an empty slot raises. *)
Definition slot_material (i : nat) : Py Scene nat :=
  s <- get ;;
  slot <- expect (slots s !! i) IndexError ;;
  expect slot AttributeError.

Section Rebinding.

(** [bpy.app.version[0]] *)
Variable version : nat.

(** [bpy.context.scene.kkbp.shader_dropdown] *)
Variable shader_dropdown : string.

(** [c.get_name()] *)
Variable get_name : string.

(** [c.import_from_library_file(kind, [name], use_fake_user = False)],
    which loads a data-block from the add-on's library file. *)
Variable import_from_library_file : string -> string -> Py Scene unit.

(** Lines 264-277: the image files of the folder are loaded and packed,
    each replacing the image of the same name loaded earlier. *)
Variable load_baked_images : string -> Py Scene unit.

(** Lines 319-330, the local function [replace_mat] for the slot [i]; it
    reads [simple] from the enclosing function.  A material slot accepts
    a material only. *)
Definition replace_mat (i : nat) (simple : Block) : Py Scene unit :=
  current <- slot_material i ;;
  m <- material_at current ;;
  let blend_method := mat_blend m in
  match simple with
  | NodeTreeBlock _ => raise TypeError
  | MaterialBlock new =>
      modify (fun s => set_slots (<[i := Some new]> (slots s)) s) ;;
      update_material new (set_blend blend_method) ;;
      shown <- material_at new ;;
      update_material new
        (set_back
           (if Nat.ltb 3 version
            then Str.contains ("KK Eyewhites (sirome) " ++ get_name)%string (mat_name shown)
            else false)) ;;
      update_material new (set_simple true)
  end.

(** Lines 299-343: the original becomes [name-ORG] and a simplified
    material takes its name and its slot. *)
Definition create_simple (i id : nat) (bake_type image : string) : Py Scene unit :=
  m <- material_at id ;;
  rename_material id (mat_name m ++ "-ORG")%string ;;
  simple <-
    try_except
      (template <- materials_by_name "KK Simple" ;; copy_material template)
      (fun _ =>
         import_from_library_file "Material" "KK Simple" ;;
         template <- materials_by_name "KK Simple" ;; copy_material template) ;;
  original <- material_at id ;;
  rename_material simple (Str.remove_ORG (mat_name original)) ;;
  template_group <- textures_group_of simple ;;
  textures_group <- copy_group template_group ;;
  renamed <- material_at simple ;;
  rename_group textures_group (mat_name renamed) ;;
  update_material simple (set_textures textures_group) ;;
  set_node_image textures_group bake_type image ;;
  when (String.eqb bake_type "light") (set_node_image textures_group "dark" image) ;;
  (* and then replace the original material with this new simplified one *)
  update_material id (set_fake_user true) ;;
  replace_mat i (MaterialBlock simple) ;;
  (* load the Eevee Mod simple shader if using Eevee Mod *)
  when (String.eqb shader_dropdown "C")
    (shader <-
       try_except
         (g <- node_groups_by_name ".Simple Shader (Eevee Mod)" ;; copy_group g)
         (fun _ =>
            import_from_library_file "NodeTree" ".Simple Shader (Eevee Mod)" ;;
            g <- node_groups_by_name ".Simple Shader (Eevee Mod)" ;; copy_group g) ;;
     current <- slot_material i ;;
     update_material current (set_fake_user true) ;;
     replace_mat i (NodeTreeBlock shader)).

(** Lines 282-343, the body of the inner loop for the slot [i]. *)
Definition rebind_slot (bake_type : string) (i : nat) : Py Scene unit :=
  id <- slot_material i ;;
  m <- material_at id ;;
  s <- get ;;
  let image := (Str.remove_ORG (mat_name m) ++ " " ++ bake_type ++ ".png")%string in
  if Rig.taken (images s) image then
    if mat_simple m then
      (* the simplified material is already in the slot *)
      textures_group <- textures_group_of id ;;
      set_node_image textures_group bake_type image
    else if mat_bake m && Str.has_ORG (mat_name m) &&
            Rig.taken (map mat_name (materials s)) (Str.remove_ORG (mat_name m)) then
      (* the user swapped the slot back to the -ORG version *)
      simple <- materials_by_name (Str.remove_ORG (mat_name m)) ;;
      modify (fun s => set_slots (<[i := Some simple]> (slots s)) s) ;;
      textures_group <- textures_group_of simple ;;
      set_node_image textures_group bake_type image
    else if mat_bake m then
      create_simple i id bake_type image
    else ret tt
  else ret tt.

(** Lines 280-343. *)
Definition rebind : Py Scene unit :=
  for_each ["light"; "dark"; "normal"] (fun bake_type =>
    s <- get ;;
    for_range (length (slots s)) (rebind_slot bake_type)).

Definition replace_all_baked_materials (folderpath : string) : Py Scene unit :=
  load_baked_images folderpath ;;
  rebind.

End Rebinding.

(** *** Vocabulary of the statements *)

Definition bake_types : list string := ["light"; "dark"; "normal"].

(** The file name of the image baked for a material and a pass. *)
Definition image_name (m : Material) (bake_type : string) : string :=
  (Str.remove_ORG (mat_name m) ++ " " ++ bake_type ++ ".png")%string.

(** The image a node of a group shows. *)
Definition node_image (s : Scene) (g : nat) (node : string) : option string :=
  match node_groups s !! g with
  | Some grp =>
      match find (fun n => String.eqb (fst n) node) (grp_nodes grp) with
      | Some (_, image) => image
      | None => None
      end
  | None => None
  end.

(** A computation that never returns normally. *)
Definition raises {A} (m : Py Scene A) : Prop :=
  forall s, exists s' e, m s = (s', Raise e).

(** A computation that never raises the exception [bad]. *)
Definition avoids {A} (bad : exn) (m : Py Scene A) : Prop :=
  forall s s' e, m s = (s', Raise e) -> e <> bad.

(** The material in a slot. *)
Definition slot_holds (s : Scene) (i : nat) (m : Material) : Prop :=
  exists id, slots s !! i = Some (Some id) /\ materials s !! id = Some m.

End Rebind.

(* ===================================================================== *)
(** ** Concrete scenes *)

Module BakeDemo.
Import Bake.

Definition face_png : Image := {| img_name := "face.png"; img_size := (3, 3)%Z |}.
Definition thumb_png : Image := {| img_name := "thumb.png"; img_size := (2, 2)%Z |}.

Definition image_node (name : string) (image : Image) : TexNode :=
  {| node_name := name; node_type := "TEX_IMAGE";
     node_image := Some image; node_input1 := None |}.

Definition shade_node : TexNode :=
  {| node_name := "shade"; node_type := "GROUP";
     node_image := None; node_input1 := Some 1%Q |}.

(** A textured material, already suffixed by an earlier rebind. *)
Definition face : Material :=
  {| mat_name := "Face-ORG"; mat_bake := true;
     mat_textures :=
       Some {| tex_nodes := [image_node "thumb" thumb_png;
                             image_node "main" face_png; shade_node];
               tex_outputs := 2 |};
     mat_out := Some (Some CombineOutput0); mat_combine := true |}.

(** A purely procedural material: a textures group without any image. *)
Definition glow : Material :=
  {| mat_name := "Glow"; mat_bake := true;
     mat_textures := Some {| tex_nodes := [shade_node]; tex_outputs := 2 |};
     mat_out := Some (Some CombineOutput0); mat_combine := true |}.

(** A material without the bake tag. *)
Definition outline : Material :=
  {| mat_name := "Outline"; mat_bake := false; mat_textures := None;
     mat_out := None; mat_combine := false |}.

Definition placeholder : Material :=
  {| mat_name := "KK Eyeline kage Chara"; mat_bake := false;
     mat_textures := None; mat_out := None; mat_combine := false |}.

Definition scene : Scene :=
  {| materials := [face; glow; outline; placeholder];
     slots := [Some 0; Some 1; Some 2]%nat;
     fillerplane := Some [None];
     combine := Some {| mix_link := Some "input.outputs[2]"; mix_value := 1 # 2 |};
     bake_mult := PyInt 2;
     char_name := "Chara";
     render := {| resolution_x := 1920; resolution_y := 1080; filepath := "";
                  file_format := "PNG"; color_mode := "RGB" |};
     renders := [];
     log := [] |}.

(** The names [bake_pass] records before its loop. *)
Definition order : list string := ["Face-ORG"; "Glow"; "Outline"].

Definition glow_textures : TexturesGroup :=
  {| tex_nodes := [shade_node]; tex_outputs := 2 |}.


Definition skip_line : string :=
  "Detected material that cannot be finalized. Skipping: Outline".

Definition first_call (s : Scene) : option RenderCall :=
  match renders s with
  | rc :: _ => Some rc
  | [] => None
  end.

End BakeDemo.

Module RigDemo.
Import Rig.

Definition body : Object :=
  {| ob_name := "Body"; ob_type := "MESH"; ob_data := "Body";
     ob_selected := false; ob_modifiers := ["Outline"];
     ob_drivers := None; ob_scale := (1, 1, 1)%Q |}.

(** A scene with nothing of the rig in it, not even the node-graph asset. *)
Definition clean : Scene :=
  {| objects := [body];
     cameras := [];
     meshes := [{| mesh_name := "Body"; mesh_other_users := 0 |}];
     node_groups := [".Combine colors"];
     active_object := Some "Body";
     scene_camera := None;
     pixel_aspect_x := 1; pixel_aspect_y := 1 |}.

(** The same scene while the node-graph asset is still loaded. *)
Definition asset_left : Scene :=
  set_node_groups [".Combine colors"; ".Geometry Nodes"] clean.

(** A user's camera object [Shot] whose data-block [Camera] is protected
    by a fake user. *)
Definition shot : Object :=
  {| ob_name := "Shot"; ob_type := "CAMERA"; ob_data := "Camera";
     ob_selected := false; ob_modifiers := [];
     ob_drivers := None; ob_scale := (1, 1, 1)%Q |}.

Definition protected_camera : Scene :=
  {| objects := [body; shot];
     cameras := [{| cam_name := "Camera"; cam_type := "PERSP";
                    cam_ortho_scale := 2; cam_other_users := 1 |}];
     meshes := [{| mesh_name := "Body"; mesh_other_users := 0 |}];
     node_groups := [".Combine colors"];
     active_object := Some "Body";
     scene_camera := Some "Shot";
     pixel_aspect_x := 1; pixel_aspect_y := 1 |}.

End RigDemo.

Module DriverDemo.
Import Driver.

(** One object's worth of the pipeline on the two demo scenes: the rig
    goes up, a light pass is baked, the rig comes down.  The node-graph
    asset is not loaded, so the teardown raises. *)
Definition World : Type := Rig.Scene * Bake.Scene.

Definition one_object : Py (Host World) unit :=
  set_viewport_shading "RENDERED" ;;
  on_world (zoom fst (fun r w => (r, snd w)) Rig.setup_camera) ;;
  on_world (zoom snd (fun b w => (fst w, b)) (Bake.bake_pass "/out/" "light")) ;;
  on_world (zoom fst (fun r w => (r, snd w)) Rig.cleanup).

Definition start : Host World :=
  {| world := (RigDemo.clean, BakeDemo.scene);
     viewport_shading := "MATERIAL";
     log := [];
     reports := [] |}.

End DriverDemo.

Module MoreDemo.
Import Bake.

(** A bake-tagged material whose node tree has no [textures] group. *)
Definition flat : Material :=
  {| mat_name := "Flat"; mat_bake := true; mat_textures := None;
     mat_out := Some (Some CombineOutput0); mat_combine := true |}.

Definition flat_scene : Scene :=
  {| materials := [flat; BakeDemo.placeholder];
     slots := [Some 0%nat];
     fillerplane := Some [None];
     combine := Some {| mix_link := Some "input.outputs[2]"; mix_value := 1 # 2 |};
     bake_mult := PyInt 1;
     char_name := "Chara";
     render := {| resolution_x := 1920; resolution_y := 1080; filepath := "";
                  file_format := "PNG"; color_mode := "RGB" |};
     renders := [];
     log := [] |}.



(** The demo scene after the shared colour group lost its link. *)
Definition unlinked_scene : Scene :=
  set_combine (Some {| mix_link := None; mix_value := 1 # 2 |}) BakeDemo.scene.

(** A scene shot before: the camera object of the last bake is still
    there, and nothing else holds its data. *)
Definition reshoot : Rig.Scene :=
  {| Rig.objects := [RigDemo.body; RigDemo.shot];
     Rig.cameras := [{| Rig.cam_name := "Camera"; Rig.cam_type := "ORTHO";
                        Rig.cam_ortho_scale := 2; Rig.cam_other_users := 0 |}];
     Rig.meshes := [{| Rig.mesh_name := "Body"; Rig.mesh_other_users := 0 |}];
     Rig.node_groups := [".Combine colors"];
     Rig.active_object := Some "Body";
     Rig.scene_camera := Some "Shot";
     Rig.pixel_aspect_x := 2; Rig.pixel_aspect_y := 1 |}.

(** The scene while the projection rig is up: the body is flattened and
    carries the two scale drivers, the filler plane and the camera are
    there, and the node-graph asset is loaded. *)
Definition flat_body : Rig.Object :=
  {| Rig.ob_name := "Body"; Rig.ob_type := "MESH"; Rig.ob_data := "Body";
     Rig.ob_selected := true; Rig.ob_modifiers := ["Outline"; "Flattener"];
     Rig.ob_drivers := Some ["scale[0]"; "scale[1]"];
     Rig.ob_scale := (6, 27 # 8, 1)%Q |}.

Definition plane : Rig.Object :=
  {| Rig.ob_name := "fillerplane"; Rig.ob_type := "MESH"; Rig.ob_data := "Plane";
     Rig.ob_selected := false; Rig.ob_modifiers := [];
     Rig.ob_drivers := Some ["scale[0]"; "scale[1]"];
     Rig.ob_scale := (6, 27 # 8, 1)%Q |}.

Definition rig_camera : Rig.Object :=
  {| Rig.ob_name := "Camera"; Rig.ob_type := "CAMERA"; Rig.ob_data := "Camera";
     Rig.ob_selected := false; Rig.ob_modifiers := [];
     Rig.ob_drivers := None; Rig.ob_scale := (1, 1, 1)%Q |}.

Definition rigged : Rig.Scene :=
  {| Rig.objects := [flat_body; plane; rig_camera];
     Rig.cameras := [{| Rig.cam_name := "Camera"; Rig.cam_type := "ORTHO";
                        Rig.cam_ortho_scale := 6; Rig.cam_other_users := 0 |}];
     Rig.meshes := [{| Rig.mesh_name := "Body"; Rig.mesh_other_users := 0 |};
                    {| Rig.mesh_name := "Plane"; Rig.mesh_other_users := 0 |}];
     Rig.node_groups := [".Combine colors"; ".Geometry Nodes"];
     Rig.active_object := Some "Body";
     Rig.scene_camera := Some "Camera";
     Rig.pixel_aspect_x := 1; Rig.pixel_aspect_y := 1 |}.

End MoreDemo.

Module LayerDemo.
Import Layers.

(** A view layer with the character's collection nested below another
    one, and a rig collection beside it. *)
Definition chara : LayerCollection := Layer "Chara" [Layer "Hair" []].

Definition view_layer : LayerCollection :=
  Layer "Scene Collection"
    [Layer "Props" [Layer "Lights" []; chara]; Layer "Chara" []].

End LayerDemo.

Module RebindDemo.
Import Rebind.

(** The template of the simplified material and its textures group. *)
Definition template_group : Group :=
  {| grp_name := "Simple textures";
     grp_nodes := [("light", None); ("dark", None); ("normal", None)] |}.

Definition kk_simple : Material :=
  {| mat_name := "KK Simple"; mat_simple := false; mat_bake := false;
     mat_textures := Some 0%nat; mat_fake_user := false;
     mat_blend := "BLEND"; mat_back := true |}.

(** A bake-tagged material that has not been simplified yet. *)
Definition face : Material :=
  {| mat_name := "Face"; mat_simple := false; mat_bake := true;
     mat_textures := None; mat_fake_user := false;
     mat_blend := "HASHED"; mat_back := true |}.

(** After a light pass: the image of the face is loaded. *)
Definition baked : Scene :=
  {| materials := [kk_simple; face];
     node_groups := [template_group];
     images := ["Face light.png"];
     slots := [Some 1%nat] |}.

(** The same object before anything was baked. *)
Definition unbaked : Scene :=
  {| materials := [kk_simple; face];
     node_groups := [template_group];
     images := [];
     slots := [Some 1%nat] |}.

(** The object with an empty slot after its face. *)
Definition with_empty_slot : Scene :=
  {| materials := [kk_simple; face];
     node_groups := [template_group];
     images := ["Face light.png"];
     slots := [Some 1%nat; None] |}.

(** The baked object when the Eevee Mod shader group is loaded too. *)
Definition eevee_mod : Scene :=
  {| materials := [kk_simple; face];
     node_groups :=
       [template_group;
        {| grp_name := ".Simple Shader (Eevee Mod)"; grp_nodes := [] |}];
     images := ["Face light.png"];
     slots := [Some 1%nat] |}.

(** The object once its face has been simplified. *)
Definition simplified : Scene :=
  {| materials :=
       [kk_simple;
        {| mat_name := "Face-ORG"; mat_simple := false; mat_bake := true;
           mat_textures := None; mat_fake_user := true;
           mat_blend := "HASHED"; mat_back := true |};
        {| mat_name := "Face"; mat_simple := true; mat_bake := false;
           mat_textures := Some 1%nat; mat_fake_user := false;
           mat_blend := "HASHED"; mat_back := false |}];
     node_groups :=
       [template_group;
        {| grp_name := "Face";
           grp_nodes := [("light", None); ("dark", None); ("normal", None)] |}];
     images := ["Face light.png"; "Face dark.png"];
     slots := [Some 2%nat] |}.

(** The same object after the user put the original back in the slot
    to bake it again. *)
Definition swapped_back : Scene := set_slots [Some 1%nat] simplified.

(** A library file that cannot be read. *)
Definition no_library (kind name : string) : Py Scene unit :=
  raise (RuntimeError "library file not found").

End RebindDemo.

(* ===================================================================== *)
(** * Proofs *)

(** ** Rules for the triples *)

Section HoareRules.
Context {St : Type}.
Implicit Types (P E : St -> Prop).

Lemma hoare_ret {A} P (Q : A -> St -> Prop) E (a : A) :
  (forall s, P s -> Q a s) -> hoare P (ret a) Q E.
Proof. intros H s Hs. cbn. auto. Qed.

Lemma hoare_raise {A} P (Q : A -> St -> Prop) E (e : exn) :
  (forall s, P s -> E s) -> hoare P (raise e) Q E.
Proof. intros H s Hs. cbn. auto. Qed.

Lemma hoare_bind {A B} P (m : Py St A) (k : A -> Py St B)
    (R : A -> St -> Prop) (Q : B -> St -> Prop) E :
  hoare P m R E ->
  (forall a, hoare (R a) (k a) Q E) ->
  hoare P (bind m k) Q E.
Proof.
  intros Hm Hk s Hs. unfold bind. specialize (Hm s Hs).
  destruct (m s) as [s' [a|e]]; [exact (Hk a s' Hm) | exact Hm].
Qed.

Lemma hoare_conseq {A} P P' (m : Py St A) (Q Q' : A -> St -> Prop) E E' :
  hoare P' m Q' E' ->
  (forall s, P s -> P' s) ->
  (forall a s, Q' a s -> Q a s) ->
  (forall s, E' s -> E s) ->
  hoare P m Q E.
Proof.
  intros H HP HQ HE s Hs. specialize (H s (HP s Hs)).
  destruct (m s) as [s' [a|e]]; auto.
Qed.

Lemma hoare_get P E : hoare P get (fun a s => a = s /\ P s) E.
Proof. intros s Hs. cbn. auto. Qed.

Lemma hoare_gets {A} (f : St -> A) P E :
  hoare P (gets f) (fun a s => a = f s /\ P s) E.
Proof. intros s Hs. cbn. auto. Qed.

Lemma hoare_modify (f : St -> St) P (Q : unit -> St -> Prop) E :
  (forall s, P s -> Q tt (f s)) -> hoare P (modify f) Q E.
Proof. intros H s Hs. cbn. auto. Qed.

Lemma hoare_expect {A} (o : option A) (e : exn) P E :
  (forall s, P s -> E s) ->
  hoare P (expect o e) (fun a s => o = Some a /\ P s) E.
Proof. intros H s Hs. destruct o; cbn; auto. Qed.

(** A loop whose invariant is indexed by the position reached. *)
Lemma hoare_for_seq (I : nat -> St -> Prop) E (body : nat -> Py St unit) n a :
  (forall i, (a <= i < a + n)%nat -> hoare (I i) (body i) (fun _ => I (S i)) E) ->
  hoare (I a) (for_each (seq a n) body) (fun _ => I (a + n)%nat) E.
Proof.
  revert a. induction n as [|n IH]; intros a Hb.
  - cbn. apply hoare_ret. intros s Hs. now rewrite Nat.add_0_r.
  - cbn [seq for_each]. eapply hoare_bind.
    + apply Hb. lia.
    + intros []. eapply hoare_conseq.
      * apply (IH (S a)). intros i Hi. apply Hb. lia.
      * auto.
      * cbn. intros _ s Hs. now replace (a + S n)%nat with (S a + n)%nat by lia.
      * auto.
Qed.

Lemma hoare_for_each {A} (I : St -> Prop) E (body : A -> Py St unit) xs :
  (forall x, In x xs -> hoare I (body x) (fun _ => I) E) ->
  hoare I (for_each xs body) (fun _ => I) E.
Proof.
  induction xs as [|x xs IH]; intros Hb.
  - now apply hoare_ret.
  - cbn [for_each]. eapply hoare_bind.
    + apply Hb. now left.
    + intros []. apply IH. intros y Hy. apply Hb. now right.
Qed.

Lemma hoare_for_range (I : St -> Prop) E (body : nat -> Py St unit) n :
  (forall i, (i < n)%nat -> hoare I (body i) (fun _ => I) E) ->
  hoare I (for_range n body) (fun _ => I) E.
Proof.
  intros Hb. apply hoare_for_each. intros i Hi. apply Hb.
  apply in_seq in Hi. lia.
Qed.

End HoareRules.

(** ** Frame rules: what a computation does not touch *)

Section KeepsRules.
Context {St X : Type} (proj : St -> X).

Lemma keeps_ret {A} (a : A) : keeps proj (ret a).
Proof. now intros s. Qed.

Lemma keeps_raise {A} (e : exn) : keeps proj (@raise St A e).
Proof. now intros s. Qed.

Lemma keeps_get : keeps proj get.
Proof. now intros s. Qed.

Lemma keeps_gets {A} (f : St -> A) : keeps proj (gets f).
Proof. now intros s. Qed.

Lemma keeps_expect {A} (o : option A) e : keeps proj (expect o e).
Proof. intros s. now destruct o. Qed.

Lemma keeps_modify (f : St -> St) :
  (forall s, proj (f s) = proj s) -> keeps proj (modify f).
Proof. intros H s. apply H. Qed.

Lemma keeps_bind {A B} (m : Py St A) (k : A -> Py St B) :
  keeps proj m -> (forall a, keeps proj (k a)) -> keeps proj (bind m k).
Proof.
  intros Hm Hk s. unfold bind. specialize (Hm s).
  destruct (m s) as [s' [a|e]]; cbn in *.
  - now rewrite Hk.
  - exact Hm.
Qed.

Lemma keeps_for_each {A} (xs : list A) (body : A -> Py St unit) :
  (forall x, keeps proj (body x)) -> keeps proj (for_each xs body).
Proof.
  intros Hb. induction xs as [|x xs IH]; cbn [for_each].
  - apply keeps_ret.
  - apply keeps_bind; auto.
Qed.

Lemma keeps_for_range n (body : nat -> Py St unit) :
  (forall i, keeps proj (body i)) -> keeps proj (for_range n body).
Proof. intros Hb. now apply keeps_for_each. Qed.

Lemma keeps_try_except {A} (m : Py St A) (h : exn -> Py St A) :
  keeps proj m -> (forall e, keeps proj (h e)) -> keeps proj (try_except m h).
Proof.
  intros Hm Hh s. unfold try_except. specialize (Hm s).
  destruct (m s) as [s' [a|e]]; cbn in *; [exact Hm | now rewrite Hh].
Qed.

Lemma keeps_run {A} (m : Py St A) s s' r :
  keeps proj m -> m s = (s', r) -> proj s' = proj s.
Proof. intros H E. specialize (H s). now rewrite E in H. Qed.

End KeepsRules.

(** Splitting a sequence that returned normally. *)
Lemma bind_ok {St A B} (m : Py St A) (k : A -> Py St B) s s2 b :
  bind m k s = (s2, Ok b) ->
  exists a s1, m s = (s1, Ok a) /\ k a s1 = (s2, Ok b).
Proof.
  unfold bind. destruct (m s) as [s1 [a|e]]; intros H.
  - now exists a, s1.
  - discriminate.
Qed.

Lemma expect_ok {St A} (o : option A) e (s s' : St) a :
  expect o e s = (s', Ok a) -> o = Some a /\ s' = s.
Proof. destruct o; cbn; intros H; now inversion H. Qed.

(** Frame goals are solved by walking down the program text. *)
Ltac keeps_step :=
  match goal with
  | |- keeps _ (bind _ _) => apply keeps_bind; [| intros ?]
  | |- keeps _ (ret _) => apply keeps_ret
  | |- keeps _ (raise _) => apply keeps_raise
  | |- keeps _ get => apply keeps_get
  | |- keeps _ (gets _) => apply keeps_gets
  | |- keeps _ (expect _ _) => apply keeps_expect
  | |- keeps _ (for_range _ _) => apply keeps_for_range; intros ?
  | |- keeps _ (for_each _ _) => apply keeps_for_each; intros ?
  | |- keeps _ (modify _) => apply keeps_modify; intros ?; reflexivity
  | |- keeps _ (match ?x with _ => _ end) => destruct x
  end.

Create HintDb keeps discriminated.

Ltac keeps_auto := repeat (keeps_step || (progress auto with keeps)).

(** Taking apart a run that returned normally. *)
Ltac py_inv :=
  repeat match goal with
  | H : bind _ _ _ = (_, Ok _) |- _ =>
      apply bind_ok in H; destruct H as (? & ? & ? & H)
  | H : get _ = (_, Ok _) |- _ => cbv [get] in H; inversion H; subst; clear H
  | H : gets _ _ = (_, Ok _) |- _ => cbv [gets] in H; inversion H; subst; clear H
  | H : ret _ _ = (_, Ok _) |- _ => cbv [ret] in H; inversion H; subst; clear H
  | H : modify _ _ = (_, Ok _) |- _ => cbv [modify] in H; inversion H; subst; clear H
  | H : raise _ _ = (_, Ok _) |- _ => discriminate H
  | H : expect _ _ _ = (_, Ok _) |- _ =>
      apply expect_ok in H; destruct H as [? ?]; subst
  end.

(** Case analysis on the run a triple is about; the raise case is closed
    when its postcondition is trivial. *)
Ltac run_cases s' H :=
  match goal with
  | |- match ?m with _ => _ end =>
      destruct m as [s' [[]|?]] eqn:H; [| try exact Logic.I]
  end.

Lemma bind_run {St A B} (m : Py St A) (k : A -> Py St B) s :
  bind m k s =
  match m s with
  | (s', Ok a) => k a s'
  | (s', Raise e) => (s', Raise e)
  end.
Proof. reflexivity. Qed.

(** One step of symbolic execution of a sequence in the goal. *)
Ltac step_bind s1 a E :=
  match goal with
  | |- context [bind ?m ?k ?s] =>
      rewrite (bind_run m k s); destruct (m s) as [s1 [a|?]] eqn:E
  end.

Ltac step_bind_in H s1 a E :=
  match type of H with
  | context [bind ?m ?k ?s] =>
      rewrite (bind_run m k s) in H; destruct (m s) as [s1 [a|?]] eqn:E
  end.

(** Unfold the sequencing and the pure steps at the head of a run. *)
Ltac run_pure :=
  repeat (progress (rewrite ?bind_run; cbn [get gets ret raise expect modify])).

(* ===================================================================== *)
(** ** The bake pass *)

Section BakeProofs.
Import Bake.

(** *** Name lookup *)

Lemma find_index_Some {A} (p : A -> bool) (l : list A) i :
  find_index p l = Some i -> exists x, l !! i = Some x /\ p x = true.
Proof.
  revert i. induction l as [|x l IH]; intros i; cbn; [discriminate|].
  destruct (p x) eqn:Hp.
  - intros [= <-]. now exists x.
  - destruct (find_index p l) as [j|]; cbn; [|discriminate].
    intros [= <-]. destruct (IH j eq_refl) as (y & Hy & Hpy). now exists y.
Qed.

Lemma find_index_fmap {A B} (f : A -> B) (p : B -> bool) (l : list A) :
  find_index (fun x => p (f x)) l = find_index p (map f l).
Proof. induction l as [|x l IH]; cbn; [easy|]. now rewrite IH. Qed.

Lemma lookup_name_stable (ms ms' : list Material) name :
  map mat_name ms = map mat_name ms' ->
  find_index (fun m => String.eqb (mat_name m) name) ms =
  find_index (fun m => String.eqb (mat_name m) name) ms'.
Proof.
  intros H.
  rewrite (find_index_fmap mat_name (fun n => String.eqb n name) ms).
  rewrite (find_index_fmap mat_name (fun n => String.eqb n name) ms').
  now rewrite H.
Qed.

(** *** What each piece leaves alone *)

Lemma keeps_material_at {X} (proj : Scene -> X) id : keeps proj (material_at id).
Proof. unfold material_at. keeps_auto. Qed.

Lemma keeps_materials_by_name {X} (proj : Scene -> X) name :
  keeps proj (materials_by_name name).
Proof. unfold materials_by_name. keeps_auto. Qed.

Hint Resolve keeps_material_at keeps_materials_by_name : keeps.

Lemma keeps_update_material {X} (proj : Scene -> X) id f :
  (forall ms s, proj (set_materials ms s) = proj s) ->
  keeps proj (update_material id f).
Proof.
  intros H. unfold update_material. keeps_auto.
  apply keeps_modify. intros s. apply H.
Qed.

Lemma names_update_material id f :
  (forall m, mat_name (f m) = mat_name m) ->
  keeps names (update_material id f).
Proof.
  intros Hf s. unfold update_material, material_at, bind, get, expect.
  destruct (materials s !! id) as [m|] eqn:E; cbn; [|reflexivity].
  unfold names. cbn. rewrite list_fmap_insert, Hf.
  apply list_insert_id. now rewrite list_lookup_fmap, E.
Qed.

Lemma bakes_update_material id f :
  (forall m, mat_bake (f m) = mat_bake m) ->
  keeps bakes (update_material id f).
Proof.
  intros Hf s. unfold update_material, material_at, bind, get, expect.
  destruct (materials s !! id) as [m|] eqn:E; cbn; [|reflexivity].
  unfold bakes. cbn. rewrite list_fmap_insert, Hf.
  apply list_insert_id. now rewrite list_lookup_fmap, E.
Qed.

(** A projection that does not look at the materials registry. *)
Definition ignores_materials {X} (proj : Scene -> X) : Prop :=
  forall ms s, proj (set_materials ms s) = proj s.

Lemma keeps_remove_out_link {X} (proj : Scene -> X) id :
  ignores_materials proj -> keeps proj (remove_out_link id).
Proof.
  intros H. unfold remove_out_link. keeps_auto;
    now apply keeps_update_material.
Qed.

Lemma keeps_new_out_link {X} (proj : Scene -> X) id src :
  ignores_materials proj -> keeps proj (new_out_link id src).
Proof.
  intros H. unfold new_out_link. keeps_auto;
    now apply keeps_update_material.
Qed.

Lemma keeps_prepare_material {X} (proj : Scene -> X) bake_type id :
  ignores_materials proj -> keeps proj (prepare_material bake_type id).
Proof.
  intros H. unfold prepare_material. keeps_auto;
    auto using keeps_update_material, keeps_remove_out_link, keeps_new_out_link.
Qed.

Lemma keeps_restore_material {X} (proj : Scene -> X) bake_type id v :
  ignores_materials proj -> keeps proj (restore_material bake_type id v).
Proof.
  intros H. unfold restore_material. keeps_auto;
    auto using keeps_update_material, keeps_remove_out_link, keeps_new_out_link.
Qed.

Lemma names_remove_out_link id : keeps names (remove_out_link id).
Proof.
  unfold remove_out_link. keeps_auto; now apply names_update_material.
Qed.

Lemma names_new_out_link id src : keeps names (new_out_link id src).
Proof.
  unfold new_out_link. keeps_auto; now apply names_update_material.
Qed.

Lemma bakes_remove_out_link id : keeps bakes (remove_out_link id).
Proof.
  unfold remove_out_link. keeps_auto; now apply bakes_update_material.
Qed.

Lemma bakes_new_out_link id src : keeps bakes (new_out_link id src).
Proof.
  unfold new_out_link. keeps_auto; now apply bakes_update_material.
Qed.

Lemma names_prepare_material bake_type id :
  keeps names (prepare_material bake_type id).
Proof.
  unfold prepare_material. keeps_auto;
    auto using names_update_material, names_remove_out_link, names_new_out_link.
Qed.

Lemma bakes_prepare_material bake_type id :
  keeps bakes (prepare_material bake_type id).
Proof.
  unfold prepare_material. keeps_auto;
    auto using bakes_update_material, bakes_remove_out_link, bakes_new_out_link.
Qed.

Lemma names_restore_material bake_type id v :
  keeps names (restore_material bake_type id v).
Proof.
  unfold restore_material. keeps_auto;
    auto using names_update_material, names_remove_out_link, names_new_out_link.
Qed.

Lemma bakes_restore_material bake_type id v :
  keeps bakes (restore_material bake_type id v).
Proof.
  unfold restore_material. keeps_auto;
    auto using bakes_update_material, bakes_remove_out_link, bakes_new_out_link.
Qed.

(** The render block touches slots, filler plane, render settings and
    the list of render calls, never the materials themselves. *)
Lemma materials_render_material folderpath bake_type id :
  keeps materials (render_material folderpath bake_type id).
Proof.
  unfold render_material, choose_resolution, hide_other_slots, fill_plane,
    set_filepath, set_image_settings, set_resolution_x, set_resolution_y,
    render_still.
  keeps_auto.
Qed.

Lemma slot_count_render_material folderpath bake_type id :
  keeps slot_count (render_material folderpath bake_type id).
Proof.
  unfold render_material, choose_resolution, hide_other_slots, fill_plane,
    set_filepath, set_image_settings, set_resolution_x, set_resolution_y,
    render_still.
  keeps_auto.
  apply keeps_modify. intros s. unfold slot_count. cbn.
  apply length_insert.
Qed.

Lemma materials_restore_slots order : keeps materials (restore_slots order).
Proof. unfold restore_slots. keeps_auto. Qed.

Lemma renders_restore_slots order : keeps renders (restore_slots order).
Proof. unfold restore_slots. keeps_auto. Qed.

Lemma slot_count_restore_slots order : keeps slot_count (restore_slots order).
Proof.
  unfold restore_slots. keeps_auto.
  apply keeps_modify. intros s. unfold slot_count. cbn. apply length_insert.
Qed.

(** *** Restoring the slots *)

Lemma material_at_ok id s s' m :
  material_at id s = (s', Ok m) -> s' = s /\ materials s !! id = Some m.
Proof. unfold material_at. intros H. py_inv. auto. Qed.

Lemma materials_by_name_ok name s s' id :
  materials_by_name name s = (s', Ok id) ->
  s' = s /\
  find_index (fun m => String.eqb (mat_name m) name) (materials s) = Some id.
Proof. unfold materials_by_name. intros H. py_inv. auto. Qed.

(** A name recorded from a slot resolves back to what the slot held. *)
Lemma recorded_name_resolves (ms ms' : list Material) (slot : option nat) id :
  unique_names ms ->
  map mat_name ms' = map mat_name ms ->
  find_index (fun m => String.eqb (mat_name m) (slot_name ms slot)) ms' = Some id ->
  slot = Some id.
Proof.
  intros Hu Hn F. rewrite (lookup_name_stable ms' ms _ Hn) in F.
  destruct slot as [id0|]; cbn in F.
  - destruct (ms !! id0) as [m0|] eqn:E.
    + destruct (Hu id0 m0 E) as [_ Hf]. congruence.
    + apply find_index_Some in F. destruct F as (x & Hx & Hp).
      apply String.eqb_eq in Hp. destruct (Hu id x Hx) as [Hne _]. contradiction.
  - apply find_index_Some in F. destruct F as (x & Hx & Hp).
    apply String.eqb_eq in Hp. destruct (Hu id x Hx) as [Hne _]. contradiction.
Qed.

Lemma restore_slots_ok (s0 s s' : Scene) :
  unique_names (materials s0) ->
  names s = names s0 ->
  slot_count s = slot_count s0 ->
  restore_slots (map (slot_name (materials s0)) (slots s0)) s = (s', Ok tt) ->
  slots s' = slots s0.
Proof.
  intros Hu Hn Hl Hrun.
  set (order := map (slot_name (materials s0)) (slots s0)) in *.
  set (I := fun (j : nat) (st : Scene) =>
              names st = names s0 /\ slot_count st = slot_count s0 /\
              take j (slots st) = take j (slots s0)).
  assert (Hloop : hoare (I 0%nat) (restore_slots order)
                        (fun _ => I (0 + length order)%nat) (fun _ => True)).
  { unfold restore_slots, for_range.
    apply (hoare_for_seq I (fun _ => True) _ (length order) 0%nat).
    intros j Hj st HI. destruct HI as (Hn' & Hl' & Ht).
    run_cases st' Hbody. py_inv.
    match goal with
    | H : materials_by_name _ _ = _ |- _ =>
        apply materials_by_name_ok in H; destruct H as [-> F]
    end.
    match goal with
    | H : order !! j = Some _ |- _ => rename H into Hname
    end.
    match goal with
    | H : (if ?b then _ else _) _ = _ |- _ =>
        destruct b eqn:Hb; [|cbv [raise] in H; discriminate]
    end.
    py_inv. apply bool_decide_eq_true in Hb.
    unfold order in Hname. rewrite list_lookup_fmap in Hname.
    destruct (slots s0 !! j) as [slot0|] eqn:Hs0; [|discriminate].
    cbn in Hname. injection Hname as <-.
    apply (recorded_name_resolves _ _ _ _ Hu Hn') in F. subst slot0.
    match goal with |- I _ (set_slots (<[j := Some ?i]> _) _) => rename i into id end.
    unfold I, names, slot_count in *. cbn. repeat split; auto.
    - now rewrite length_insert.
    - rewrite (take_S_r (slots s0) j (Some id) Hs0).
      rewrite (take_S_r _ j (Some id)).
      + now rewrite take_insert_ge, Ht by lia.
      + now apply list_lookup_insert_eq. }
  specialize (Hloop s). rewrite Hrun in Hloop.
  destruct Hloop as (_ & Hl' & Ht).
  { unfold I. auto. }
  unfold order in Ht. rewrite length_map in Ht. cbn in Ht.
  unfold slot_count in *.
  rewrite take_ge in Ht by lia. now rewrite take_ge in Ht by lia.
Qed.

(** *** The slot mapping across one material and across the pass *)

Lemma ignores_materials_slots : ignores_materials slots.
Proof. now intros ms s. Qed.

Lemma ignores_materials_slot_count : ignores_materials slot_count.
Proof. now intros ms s. Qed.

Lemma ignores_materials_renders : ignores_materials renders.
Proof. now intros ms s. Qed.

Lemma names_of_materials s s' : materials s' = materials s -> names s' = names s.
Proof. unfold names. now intros ->. Qed.

Lemma bake_material_restores folderpath bake_type index (s0 s s' : Scene) :
  unique_names (materials s0) ->
  names s = names s0 ->
  slots s = slots s0 ->
  bake_material folderpath bake_type
    (map (slot_name (materials s0)) (slots s0)) index s = (s', Ok tt) ->
  names s' = names s0 /\ slots s' = slots s0.
Proof.
  intros Hu Hn Hs Hrun. unfold bake_material in Hrun. py_inv.
  match goal with
  | H : match ?slot with _ => _ end _ = _ |- _ =>
      destruct slot as [id|]; [|discriminate H]; rename H into Hrun
  end.
  py_inv.
  match goal with
  | H : material_at _ _ = _ |- _ => apply material_at_ok in H; destruct H as [-> Hm]
  end.
  match goal with
  | H : (if ?b then _ else _) _ = _ |- _ => destruct b; rename H into Hrun
  end.
  - unfold kklog in Hrun. py_inv. auto.
  - py_inv.
    repeat match goal with
    | H : prepare_material _ _ ?a = (?b, _) |- _ =>
        pose proof (keeps_run names _ _ _ _ (names_prepare_material _ _) H);
        pose proof (keeps_run slot_count _ _ _ _
                      (keeps_prepare_material _ _ _ ignores_materials_slot_count) H);
        clear H
    | H : render_material _ _ _ ?a = (?b, _) |- _ =>
        pose proof (names_of_materials _ _
                      (keeps_run materials _ _ _ _ (materials_render_material _ _ _) H));
        pose proof (keeps_run slot_count _ _ _ _ (slot_count_render_material _ _ _) H);
        clear H
    | H : restore_material _ _ _ ?a = (?b, _) |- _ =>
        pose proof (keeps_run names _ _ _ _ (names_restore_material _ _ _) H);
        pose proof (keeps_run slot_count _ _ _ _
                      (keeps_restore_material _ _ _ _ ignores_materials_slot_count) H);
        clear H
    end.
    match goal with
    | H : restore_slots _ ?a = (s', Ok _) |- _ =>
        pose proof (names_of_materials _ _
                      (keeps_run materials _ _ _ _ (materials_restore_slots _) H));
        apply restore_slots_ok in H; auto
    end.
    + split; [congruence | assumption].
    + congruence.
    + unfold slot_count in *. congruence.
Qed.

Lemma keeps_force_light_level {X} (proj : Scene -> X) bake_type :
  (forall c s, proj (set_combine c s) = proj s) ->
  keeps proj (force_light_level bake_type).
Proof.
  intros H. unfold force_light_level. keeps_auto.
  apply keeps_modify. intros ?. apply H.
Qed.

Lemma keeps_relink_light_level {X} (proj : Scene -> X) :
  (forall c s, proj (set_combine c s) = proj s) ->
  keeps proj relink_light_level.
Proof.
  intros H. unfold relink_light_level. keeps_auto.
  apply keeps_modify. intros ?. apply H.
Qed.

Lemma force_light_level_frame bake_type s s' r :
  force_light_level bake_type s = (s', r) ->
  names s' = names s /\ slots s' = slots s.
Proof.
  intros H. split.
  - eapply (keeps_run names); [|exact H]. now apply keeps_force_light_level.
  - eapply (keeps_run slots); [|exact H]. now apply keeps_force_light_level.
Qed.

Lemma relink_light_level_frame s s' r :
  relink_light_level s = (s', r) ->
  names s' = names s /\ slots s' = slots s.
Proof.
  intros H. split.
  - eapply (keeps_run names); [|exact H]. now apply keeps_relink_light_level.
  - eapply (keeps_run slots); [|exact H]. now apply keeps_relink_light_level.
Qed.

(** C2: a bake pass that completes leaves every material slot of the
    object holding the material it held before the pass, for any number
    of slots and any pass type.  The host's naming discipline (names of
    [bpy.data.materials] are non-empty and unique) is what lets the
    recorded names resolve back. *)
Theorem bake_pass_restores_slots folderpath bake_type (s s' : Scene) :
  unique_names (materials s) ->
  bake_pass folderpath bake_type s = (s', Ok tt) ->
  slots s' = slots s.
Proof.
  intros Hu Hrun. unfold bake_pass, bind at 1, get in Hrun.
  apply bind_ok in Hrun. destruct Hrun as ([] & s1 & Hforce & Hrun).
  apply bind_ok in Hrun. destruct Hrun as ([] & s2 & Hloop & Hrelink).
  apply force_light_level_frame in Hforce. destruct Hforce as [Hn1 Hs1].
  apply relink_light_level_frame in Hrelink. destruct Hrelink as [_ Hs3].
  rewrite Hs3.
  assert (Hinv : hoare (fun st => names st = names s /\ slots st = slots s)
                   (for_range (length (slots s))
                      (bake_material folderpath bake_type
                         (map (slot_name (materials s)) (slots s))))
                   (fun _ st => names st = names s /\ slots st = slots s)
                   (fun _ => True)).
  { apply hoare_for_range. intros i _ st [Hn Hs].
    run_cases st' Hbody.
    eapply bake_material_restores; eauto. }
  specialize (Hinv s1). rewrite Hloop in Hinv. now apply Hinv.
Qed.

(** *** The render block *)

(** The resolution list always has two entries: the [else] branch of
    [if highest_resolution:] is never taken. *)
Lemma highest_resolution_shape nodes :
  exists w h, highest_resolution_of nodes = [w; h].
Proof.
  unfold highest_resolution_of.
  assert (H0 : exists w h : Z, [0%Z; 0%Z] = [w; h]) by now exists 0%Z, 0%Z.
  revert H0. generalize [0%Z; 0%Z] as acc.
  induction nodes as [|n nodes IH]; intros acc Hacc; cbn [fold_left].
  - exact Hacc.
  - apply IH.
    destruct (String.eqb (node_type n) "TEX_IMAGE"); [|exact Hacc].
    destruct (node_image n) as [image|]; [|exact Hacc].
    match goal with |- context [if ?b then _ else _] => destruct b end;
      [eauto | exact Hacc].
Qed.

Lemma highest_resolution_truthy nodes :
  truthy (highest_resolution_of nodes) = true.
Proof. destruct (highest_resolution_shape nodes) as (w & h & ->). reflexivity. Qed.

Lemma choose_resolution_run tg w h s :
  highest_resolution_of (tex_nodes tg) = [w; h] ->
  choose_resolution tg s =
  match resolution_value (times w (bake_mult s)) with
  | Raise e => (s, Raise e)
  | Ok x =>
      let s1 := set_render {| resolution_x := x;
                              resolution_y := resolution_y (render s);
                              filepath := filepath (render s);
                              file_format := file_format (render s);
                              color_mode := color_mode (render s) |} s in
      match resolution_value (times h (bake_mult s)) with
      | Raise e => (s1, Raise e)
      | Ok y =>
          (set_render {| resolution_x := x; resolution_y := y;
                         filepath := filepath (render s);
                         file_format := file_format (render s);
                         color_mode := color_mode (render s) |} s, Ok tt)
      end
  end.
Proof.
  intros H. unfold choose_resolution, set_resolution_x, set_resolution_y.
  rewrite H. run_pure. cbn [truthy lookup list_lookup expect ret]. run_pure.
  destruct (resolution_value (times w (bake_mult s))) as [x|e]; [|reflexivity].
  run_pure. cbn [bake_mult set_render].
  destruct (resolution_value (times h (bake_mult s))) as [y|e]; reflexivity.
Qed.

(** What the slot swap touches: the slots only. *)
Definition same_but_slots (s s' : Scene) : Prop :=
  materials s' = materials s /\ fillerplane s' = fillerplane s /\
  combine s' = combine s /\ bake_mult s' = bake_mult s /\
  char_name s' = char_name s /\ render s' = render s /\
  renders s' = renders s /\ log s' = log s.

Lemma hide_other_slots_frame id s s' r :
  hide_other_slots id s = (s', r) -> same_but_slots s s'.
Proof.
  intros H. unfold same_but_slots.
  repeat split;
    match goal with
    | |- ?proj s' = ?proj s =>
        apply (keeps_run proj (hide_other_slots id) s s' r); [|exact H];
        unfold hide_other_slots; keeps_auto
    end.
Qed.

Lemma render_material_no_textures folderpath bake_type id s m :
  materials s !! id = Some m -> mat_textures m = None ->
  render_material folderpath bake_type id s = (s, Ok tt).
Proof.
  intros Hm Ht. unfold render_material, material_at.
  rewrite !bind_run. cbn [get]. rewrite Hm. cbn [expect ret]. now rewrite Ht.
Qed.

Lemma render_material_outcome folderpath bake_type id s s' r m tg w h :
  materials s !! id = Some m -> mat_textures m = Some tg ->
  highest_resolution_of (tex_nodes tg) = [w; h] ->
  render_material folderpath bake_type id s = (s', r) ->
  materials s' = materials s /\ combine s' = combine s /\
  bake_mult s' = bake_mult s /\ log s' = log s /\
  match r with
  | Ok _ => exists rc, renders s' = renders s ++ [rc] /\
                       render_call_of folderpath bake_type id m w h s rc
  | Raise _ => renders s' = renders s
  end.
Proof.
  intros Hm Ht Hhr Hrun. unfold render_material in Hrun.
  rewrite bind_run in Hrun. unfold material_at at 1 in Hrun.
  rewrite bind_run in Hrun. cbn [get] in Hrun. rewrite Hm in Hrun.
  cbn [expect ret] in Hrun. rewrite Ht in Hrun.
  rewrite bind_run, (choose_resolution_run tg w h s Hhr) in Hrun.
  destruct (resolution_value (times w (bake_mult s))) as [x|ex] eqn:Hx.
  2:{ injection Hrun as <- <-. auto. }
  cbv zeta in Hrun.
  destruct (resolution_value (times h (bake_mult s))) as [y|ey] eqn:Hy.
  2:{ injection Hrun as <- <-. cbn. auto. }
  step_bind_in Hrun s2 u Hhide;
    apply hide_other_slots_frame in Hhide;
    destruct Hhide as (Hms & Hfp & Hco & Hbm & Hcn & Hre & Hrs & Hlg);
    cbn in Hms, Hfp, Hco, Hbm, Hcn, Hre, Hrs, Hlg.
  2:{ injection Hrun as <- <-. auto. }
  unfold fill_plane in Hrun. rewrite !bind_run in Hrun. cbn [get] in Hrun.
  destruct (fillerplane s2) as [[|f0 rest]|] eqn:Hf2; cbn in Hrun;
    try (injection Hrun as <- <-; auto; fail).
  unfold material_at in Hrun. rewrite !bind_run in Hrun. cbn in Hrun.
  rewrite Hms, Hm in Hrun. cbn in Hrun.
  injection Hrun as <- <-. cbn. rewrite Hms, Hco, Hbm, Hlg, Hrs, Hre. cbn.
  repeat split; auto.
  eexists. split; [reflexivity|]. unfold render_call_of. cbn.
  repeat split; auto.
Qed.

(** *** Preparing a material does not change what is rendered from it *)

Lemma highest_resolution_ext (l l' : list TexNode) :
  map (fun n => (node_type n, node_image n)) l =
  map (fun n => (node_type n, node_image n)) l' ->
  highest_resolution_of l = highest_resolution_of l'.
Proof.
  unfold highest_resolution_of. generalize [0%Z; 0%Z] as acc.
  revert l'. induction l as [|n l IH]; intros [|n' l'] acc H;
    try discriminate; [reflexivity|].
  cbn in H. injection H as Hty Him Hl. cbn [fold_left].
  rewrite Hty, Him. now apply IH.
Qed.

Lemma highest_resolution_set_input1 nodes i n v :
  nodes !! i = Some n ->
  highest_resolution_of (<[i := set_input1 v n]> nodes) =
  highest_resolution_of nodes.
Proof.
  intros H. apply highest_resolution_ext.
  change (map ?f ?l) with (f <$> l).
  rewrite list_fmap_insert. cbn.
  apply list_insert_id. now rewrite list_lookup_fmap, H.
Qed.

Lemma update_material_run id f s m :
  materials s !! id = Some m ->
  update_material id f s = (set_materials (<[id := f m]> (materials s)) s, Ok tt).
Proof.
  intros H. unfold update_material, material_at.
  rewrite !bind_run. cbn [get]. rewrite H. reflexivity.
Qed.

(** What survives every edit [bake_pass] makes to a material. *)
Definition same_look (m m' : Material) : Prop :=
  mat_name m' = mat_name m /\ mat_bake m' = mat_bake m /\
  resolution_of m' = resolution_of m.

Lemma same_look_refl m : same_look m m.
Proof. now unfold same_look. Qed.

Lemma same_look_trans m1 m2 m3 :
  same_look m1 m2 -> same_look m2 m3 -> same_look m1 m3.
Proof. unfold same_look. intros (? & ? & ?) (? & ? & ?). repeat split; congruence. Qed.

Lemma same_look_set_out o m : same_look m (set_out o m).
Proof. now unfold same_look. Qed.

Lemma same_look_set_tex_node m tg i n v :
  mat_textures m = Some tg -> tex_nodes tg !! i = Some n ->
  same_look m (set_tex_node i (set_input1 v n) m).
Proof.
  intros Ht Hn. unfold same_look, resolution_of. cbn. rewrite Ht. cbn.
  repeat split. f_equal. now apply highest_resolution_set_input1.
Qed.

(** A step that rewrites material [id] in place, keeping its look, and
    touches nothing else. *)
Definition edits_material (id : nat) (s s' : Scene) : Prop :=
  s' = s \/
  exists m m', materials s !! id = Some m /\ same_look m m' /\
               s' = set_materials (<[id := m']> (materials s)) s.

Lemma edits_material_trans id s1 s2 s3 :
  edits_material id s1 s2 -> edits_material id s2 s3 -> edits_material id s1 s3.
Proof.
  intros [->|(m & m' & Hm & Hl & ->)]; [easy|].
  intros [->|(m2 & m2' & Hm2 & Hl2 & ->)].
  - right. now exists m, m'.
  - right. cbn in Hm2. rewrite list_lookup_insert_eq in Hm2
      by (now apply lookup_lt_Some in Hm).
    injection Hm2 as <-. exists m, m2'.
    split; [assumption|]. split; [eapply same_look_trans; eauto|].
    unfold set_materials. cbn. now rewrite list_insert_insert_eq.
Qed.

Lemma edits_material_lookup id s s' m :
  edits_material id s s' -> materials s !! id = Some m ->
  exists m', materials s' !! id = Some m' /\ same_look m m'.
Proof.
  intros [->|(m0 & m' & Hm & Hl & ->)] H.
  - exists m. split; [assumption | apply same_look_refl].
  - rewrite H in Hm. injection Hm as <-. exists m'. split; [|assumption].
    cbn. apply list_lookup_insert_eq. now apply lookup_lt_Some in H.
Qed.

Lemma edits_material_fields id s s' :
  edits_material id s s' ->
  slots s' = slots s /\ fillerplane s' = fillerplane s /\
  combine s' = combine s /\ bake_mult s' = bake_mult s /\
  char_name s' = char_name s /\ render s' = render s /\
  renders s' = renders s /\ log s' = log s /\ bakes s' = bakes s.
Proof.
  intros [->|(m & m' & Hm & (Hn & Hb & Hr) & ->)]; [now repeat split|].
  cbn. repeat split. unfold bakes. cbn.
  change (map ?f ?l) with (f <$> l). rewrite list_fmap_insert, Hb.
  apply list_insert_id. now rewrite list_lookup_fmap, Hm.
Qed.

Lemma remove_out_link_edits id s s' r :
  remove_out_link id s = (s', r) -> edits_material id s s'.
Proof.
  unfold remove_out_link, material_at. rewrite !bind_run. cbn [get].
  destruct (materials s !! id) as [m|] eqn:Hm; cbn [expect ret raise].
  - destruct (mat_out m) as [[src|]|]; cbn [raise];
      try (intros [= <- <-]; now left).
    rewrite (update_material_run _ _ _ _ Hm). intros [= <- <-].
    right. exists m, (set_out (Some None) m). auto using same_look_set_out.
  - intros [= <- <-]. now left.
Qed.

Lemma new_out_link_edits id src s s' r :
  new_out_link id src s = (s', r) -> edits_material id s s'.
Proof.
  unfold new_out_link, material_at. rewrite !bind_run. cbn [get].
  destruct (materials s !! id) as [m|] eqn:Hm; cbn [expect ret raise].
  - destruct (mat_out m) as [o|]; cbn [raise];
      try (intros [= <- <-]; now left).
    rewrite (update_material_run _ _ _ _ Hm). intros [= <- <-].
    right. exists m, (set_out (Some (Some src)) m). auto using same_look_set_out.
  - intros [= <- <-]. now left.
Qed.

Ltac close_unchanged :=
  try (intros [= <- <-]; now left).

Lemma prepare_material_edits bake_type id s s' r :
  prepare_material bake_type id s = (s', r) -> edits_material id s s'.
Proof.
  unfold prepare_material, material_at. rewrite !bind_run. cbn [get].
  destruct (materials s !! id) as [m|] eqn:Hm; cbn [expect ret raise];
    [|close_unchanged].
  destruct (mat_textures m) as [tg|] eqn:Ht; cbn [ret]; [|close_unchanged].
  destruct (negb (String.eqb bake_type "normal")).
  - destruct (shade_index tg) as [i|]; cbn [ret]; [|close_unchanged].
    rewrite !bind_run.
    destruct (tex_nodes tg !! i) as [n|] eqn:Hn; cbn [expect ret raise];
      [|close_unchanged].
    destruct (node_input1 n) as [v|]; cbn [expect ret raise]; [|close_unchanged].
    run_pure. rewrite (update_material_run _ _ _ _ Hm). cbn [ret]. intros [= <- <-].
    right. exists m, (set_tex_node i (set_input1 0 n) m).
    eauto using same_look_set_tex_node.
  - destruct (negb (Nat.eqb (tex_outputs tg) 0)); cbn [ret]; [|close_unchanged].
    rewrite !bind_run.
    destruct (remove_out_link id s) as [s1 [[]|e]] eqn:H1;
      apply remove_out_link_edits in H1; [|now intros [= <- <-]].
    rewrite !bind_run.
    destruct (new_out_link id _ s1) as [s2 [[]|e]] eqn:H2;
      apply new_out_link_edits in H2; cbn [ret];
      intros [= <- <-]; eauto using edits_material_trans.
Qed.

Lemma restore_material_edits bake_type id v s s' r :
  restore_material bake_type id v s = (s', r) -> edits_material id s s'.
Proof.
  unfold restore_material, material_at. rewrite !bind_run. cbn [get].
  destruct (materials s !! id) as [m|] eqn:Hm; cbn [expect ret raise];
    [|close_unchanged].
  destruct (mat_textures m) as [tg|] eqn:Ht; cbn [ret]; [|close_unchanged].
  destruct (negb (String.eqb bake_type "normal")).
  - destruct (shade_index tg) as [i|]; cbn [ret]; [|close_unchanged].
    rewrite !bind_run.
    destruct (tex_nodes tg !! i) as [n|] eqn:Hn; cbn [expect ret raise];
      [|close_unchanged].
    destruct v as [v|]; cbn [expect ret raise]; [|close_unchanged].
    run_pure. rewrite (update_material_run _ _ _ _ Hm). intros [= <- <-].
    right. exists m, (set_tex_node i (set_input1 v n) m).
    eauto using same_look_set_tex_node.
  - destruct (negb (Nat.eqb (tex_outputs tg) 0)); cbn [ret]; [|close_unchanged].
    rewrite !bind_run.
    destruct (remove_out_link id s) as [s1 [[]|e]] eqn:H1;
      apply remove_out_link_edits in H1; [|now intros [= <- <-]].
    destruct (mat_combine m); [|now intros [= <- <-]].
    destruct (new_out_link id _ s1) as [s2 r2] eqn:H2;
      apply new_out_link_edits in H2.
    intros [= <- <-]; eauto using edits_material_trans.
Qed.

(** *** One material, every outcome *)

Lemma restore_slots_frame order s s' r :
  restore_slots order s = (s', r) -> same_but_slots s s'.
Proof.
  intros H. unfold same_but_slots.
  repeat split;
    match goal with
    | |- ?proj s' = ?proj s =>
        apply (keeps_run proj (restore_slots order) s s' r); [|exact H];
        unfold restore_slots; keeps_auto
    end.
Qed.

Lemma bakes_of_materials s s' : materials s' = materials s -> bakes s' = bakes s.
Proof. unfold bakes. now intros ->. Qed.

Lemma bake_material_outcome folderpath bake_type order index s s' r :
  bake_material folderpath bake_type order index s = (s', r) ->
  (bakes s' = bakes s /\ combine s' = combine s /\ bake_mult s' = bake_mult s) /\
  (rendered folderpath bake_type index s s' \/
   (renders s' = renders s /\
    (r = Ok tt ->
     exists id m, slots s !! index = Some (Some id) /\
                  materials s !! id = Some m /\
                  (mat_bake m = false \/ mat_textures m = None)))).
Proof.
  unfold bake_material, material_at. run_pure.
  destruct (slots s !! index) as [[id|]|] eqn:Hslot; run_pure;
    try (intros [= <- <-]; split; [auto | right; split; [auto | discriminate]]).
  destruct (materials s !! id) as [m|] eqn:Hm; run_pure;
    try (intros [= <- <-]; split; [auto | right; split; [auto | discriminate]]).
  destruct (mat_bake m) eqn:Hbake; cbn [negb].
  2:{ unfold kklog. run_pure. intros [= <- <-]. split; [auto|].
      right. split; [reflexivity|]. intros _. exists id, m. auto. }
  intros Hrun.
  step_bind_in Hrun s1 v Hprep; apply prepare_material_edits in Hprep;
    pose proof (edits_material_fields _ _ _ Hprep)
      as (Hsl1 & Hfp1 & Hco1 & Hbm1 & Hcn1 & Hre1 & Hrs1 & Hlg1 & Hbk1).
  2:{ injection Hrun as <- <-. split; [auto|].
      right. split; [auto | discriminate]. }
  destruct (edits_material_lookup _ _ _ _ Hprep Hm) as (m1 & Hm1 & Hn1 & Hb1 & Hr1).
  destruct (mat_textures m1) as [tg1|] eqn:Ht1.
  - (* the textures group exists: a render is attempted *)
    destruct (highest_resolution_shape (tex_nodes tg1)) as (w & h & Hhr).
    step_bind_in Hrun s2 u Hrender;
      pose proof (render_material_outcome _ _ _ _ _ _ _ _ _ _ Hm1 Ht1 Hhr Hrender)
        as (Hms2 & Hco2 & Hbm2 & Hlg2 & Hrc).
    2:{ injection Hrun as <- <-. split.
        - rewrite (bakes_of_materials _ _ Hms2). repeat split; congruence.
        - right. split; [congruence | discriminate]. }
    destruct Hrc as (rc & Hrs2 & Hfile & Hx & Hy & _ & _ & Hfill & _ & Hcomb).
    step_bind_in Hrun s3 u3 Hrest; apply restore_material_edits in Hrest;
      pose proof (edits_material_fields _ _ _ Hrest)
        as (Hsl3 & Hfp3 & Hco3 & Hbm3 & Hcn3 & Hre3 & Hrs3 & Hlg3 & Hbk3).
    + apply restore_slots_frame in Hrun.
      destruct Hrun as (Hms4 & Hfp4 & Hco4 & Hbm4 & Hcn4 & Hre4 & Hrs4 & Hlg4).
      split.
      * rewrite (bakes_of_materials _ _ Hms4), Hbk3,
          (bakes_of_materials _ _ Hms2). repeat split; congruence.
      * left. exists id, m, w, h, rc.
        unfold resolution_of in *. rewrite Ht1 in Hr1. cbn in Hr1.
        repeat split; try congruence.
    + injection Hrun as <- <-. split.
      * rewrite Hbk3, (bakes_of_materials _ _ Hms2). repeat split; congruence.
      * left. exists id, m, w, h, rc.
        unfold resolution_of in *. rewrite Ht1 in Hr1. cbn in Hr1.
        repeat split; try congruence.
  - (* no textures group: nothing is rendered *)
    rewrite bind_run, (render_material_no_textures _ _ _ _ _ Hm1 Ht1) in Hrun.
    assert (Ht : mat_textures m = None).
    { unfold resolution_of in Hr1. rewrite Ht1 in Hr1.
      destruct (mat_textures m); [discriminate | reflexivity]. }
    step_bind_in Hrun s3 u3 Hrest; apply restore_material_edits in Hrest;
      pose proof (edits_material_fields _ _ _ Hrest)
        as (Hsl3 & Hfp3 & Hco3 & Hbm3 & Hcn3 & Hre3 & Hrs3 & Hlg3 & Hbk3).
    + apply restore_slots_frame in Hrun.
      destruct Hrun as (Hms4 & Hfp4 & Hco4 & Hbm4 & Hcn4 & Hre4 & Hrs4 & Hlg4).
      split.
      * rewrite (bakes_of_materials _ _ Hms4). repeat split; congruence.
      * right. split; [congruence|]. intros _. exists id, m. auto.
    + injection Hrun as <- <-. split.
      * repeat split; congruence.
      * right. split; [congruence | discriminate].
Qed.

(** *** Every render call of a pass *)

Lemma force_light_level_run bake_type s s' :
  force_light_level bake_type s = (s', Ok tt) ->
  s' = set_combine (Some (forced_light_level bake_type)) s.
Proof.
  unfold force_light_level. run_pure.
  destruct (combine s) as [c|]; run_pure; [|discriminate].
  destruct (mix_link c); run_pure; [|discriminate].
  now intros [= <-].
Qed.

Lemma bake_pass_render_calls folderpath bake_type s rc :
  In rc (renders (fst (bake_pass folderpath bake_type s))) ->
  In rc (renders s) \/
  ((exists id, rc_filler rc = Some id /\ bakes s !! id = Some true) /\
   rc_combine rc = Some (forced_light_level bake_type)).
Proof.
  set (J := fun st : Scene =>
    bakes st = bakes s /\
    combine st = Some (forced_light_level bake_type) /\
    forall rc, In rc (renders st) ->
      In rc (renders s) \/
      ((exists id, rc_filler rc = Some id /\ bakes s !! id = Some true) /\
       rc_combine rc = Some (forced_light_level bake_type))).
  unfold bake_pass. run_pure.
  destruct (force_light_level bake_type s) as [s1 [[]|e]] eqn:Hforce.
  2:{ cbn. rewrite (keeps_run renders _ _ _ _
                      (keeps_force_light_level renders _ (fun _ _ => eq_refl)) Hforce).
      auto. }
  apply force_light_level_run in Hforce. subst s1.
  assert (Hloop : hoare J
            (for_range (length (slots s))
               (bake_material folderpath bake_type
                  (map (slot_name (materials s)) (slots s))))
            (fun _ => J) J).
  { apply hoare_for_range. intros i _ st (Hb & Hc & Hr).
    destruct (bake_material _ _ _ i st) as [st' r] eqn:Hbody.
    apply bake_material_outcome in Hbody.
    destruct Hbody as ((Hb' & Hc' & _) & Hcase).
    assert (J st').
    { unfold J. split; [congruence|]. split; [congruence|].
      destruct Hcase as [(id & m & w & h & rc' & Hsl & Hm & Hbk & _ & Hrs
                          & _ & _ & _ & Hfill & Hcomb) | [Hrs _]].
      - intros rc0. rewrite Hrs, in_app_iff. intros [Hin|[<-|[]]]; [auto|].
        right. split; [|congruence].
        exists id. split; [assumption|]. rewrite <- Hb. unfold bakes.
        change (map ?f ?l) with (f <$> l). now rewrite list_lookup_fmap, Hm, <- Hbk.
      - now rewrite Hrs. }
    now destruct r. }
  rewrite bind_run.
  match goal with
  | |- context [for_range ?n ?body ?st] =>
      specialize (Hloop st); destruct (for_range n body st) as [s2 [[]|e]]
  end.
  - destruct Hloop as (_ & _ & Hr); [unfold J; cbn; auto|].
    destruct (relink_light_level s2) as [s3 r3] eqn:Hrelink. cbn.
    rewrite (keeps_run renders _ _ _ _
               (keeps_relink_light_level renders (fun _ _ => eq_refl)) Hrelink).
    apply Hr.
  - destruct Hloop as (_ & _ & Hr); [unfold J; cbn; auto|]. cbn. apply Hr.
Qed.

(** *** What the resolution list is *)

(** The list is the size of an image of the group whose area no other
    image of the group exceeds, or [[0, 0]] when no image has positive
    area. *)
Lemma highest_resolution_is_max nodes w h :
  highest_resolution_of nodes = [w; h] ->
  (forall n image, In n nodes -> node_type n = "TEX_IMAGE" ->
     node_image n = Some image ->
     (fst (img_size image) * snd (img_size image) <= w * h)%Z) /\
  ((w = 0 /\ h = 0)%Z \/
   exists n image, In n nodes /\ node_type n = "TEX_IMAGE" /\
     node_image n = Some image /\ img_size image = (w, h)).
Proof.
  unfold highest_resolution_of.
  assert (Hgen : forall (l : list TexNode) (w0 h0 : Z),
    let F := fun (highest_resolution : list Z) (image_node : TexNode) =>
       if String.eqb (node_type image_node) "TEX_IMAGE" then
         match node_image image_node with
         | Some image =>
             let image_size := (fst (img_size image) * snd (img_size image))%Z in
             let largest_so_far :=
               (nth 0 highest_resolution 0 * nth 1 highest_resolution 0)%Z in
             if (image_size >? largest_so_far)%Z
             then [fst (img_size image); snd (img_size image)]
             else highest_resolution
         | None => highest_resolution
         end
       else highest_resolution in
    fold_left F l [w0; h0] = [w; h] ->
    (w0 * h0 <= w * h)%Z /\
    (forall n image, In n l -> node_type n = "TEX_IMAGE" ->
       node_image n = Some image ->
       (fst (img_size image) * snd (img_size image) <= w * h)%Z) /\
    ((w = w0 /\ h = h0) \/
     exists n image, In n l /\ node_type n = "TEX_IMAGE" /\
       node_image n = Some image /\ img_size image = (w, h))).
  { induction l as [|n l IH]; intros w0 h0 F; cbn [fold_left].
    - intros [= -> ->]. split; [lia|]. split; [intros ? ? []|]. now left.
    - unfold F at 2.
      destruct (String.eqb (node_type n) "TEX_IMAGE") eqn:Hty.
      + destruct (node_image n) as [image|] eqn:Him.
        * cbn [nth]. destruct (Z.gtb_spec
            (fst (img_size image) * snd (img_size image)) (w0 * h0)) as [Hgt|Hle].
          -- intros Hf. apply IH in Hf. destruct Hf as (Hge & Hall & Hsrc).
             split; [lia|]. split.
             ++ intros n' image' [<-|Hin] Hty' Him'.
                ** rewrite Him in Him'. injection Him' as <-. exact Hge.
                ** eauto.
             ++ right. destruct Hsrc as [[-> ->]|(n' & image' & Hin & ? & ? & ?)].
                ** exists n, image. apply String.eqb_eq in Hty.
                   repeat split; auto. now left. now destruct (img_size image).
                ** exists n', image'. repeat split; auto. now right.
          -- intros Hf. apply IH in Hf. destruct Hf as (Hge & Hall & Hsrc).
             split; [lia|]. split.
             ++ intros n' image' [<-|Hin] Hty' Him'.
                ** rewrite Him in Him'. injection Him' as <-. lia.
                ** eauto.
             ++ destruct Hsrc as [?|(n' & image' & Hin & ? & ? & ?)]; [now left|].
                right. exists n', image'. repeat split; auto. now right.
        * intros Hf. apply IH in Hf. destruct Hf as (Hge & Hall & Hsrc).
          split; [lia|]. split.
          -- intros n' image' [<-|Hin] Hty' Him'; [congruence | eauto].
          -- destruct Hsrc as [?|(n' & image' & Hin & ? & ? & ?)]; [now left|].
             right. exists n', image'. repeat split; auto. now right.
      + intros Hf. apply IH in Hf. destruct Hf as (Hge & Hall & Hsrc).
        split; [lia|]. split.
        * intros n' image' [<-|Hin] Hty' Him'.
          -- apply String.eqb_neq in Hty. contradiction.
          -- eauto.
        * destruct Hsrc as [?|(n' & image' & Hin & ? & ? & ?)]; [now left|].
          right. exists n', image'. repeat split; auto. now right. }
  intros H. apply Hgen in H. destruct H as (_ & Hall & Hsrc). split; auto.
Qed.

(** Without any image the list stays [[0, 0]]. *)
Lemma highest_resolution_no_image nodes :
  (forall n, In n nodes -> node_image n = None) ->
  highest_resolution_of nodes = [0%Z; 0%Z].
Proof.
  intros H. destruct (highest_resolution_shape nodes) as (w & h & Hhr).
  destruct (highest_resolution_is_max _ _ _ Hhr) as [_ [[-> ->]|Hsrc]]; [assumption|].
  destruct Hsrc as (n & image & Hin & _ & Him & _).
  rewrite (H n Hin) in Him. discriminate.
Qed.

(** *** The statements about the bake pass *)

Lemma bake_material_renders folderpath bake_type order index s s' id m tg :
  slots s !! index = Some (Some id) -> materials s !! id = Some m ->
  mat_bake m = true -> mat_textures m = Some tg ->
  bake_material folderpath bake_type order index s = (s', Ok tt) ->
  exists rc,
    renders s' = renders s ++ [rc] /\
    (forall w h, highest_resolution_of (tex_nodes tg) = [w; h] ->
       resolution_value (times w (bake_mult s)) = Ok (rc_x rc) /\
       resolution_value (times h (bake_mult s)) = Ok (rc_y rc)) /\
    rc_filepath rc =
      (folderpath ++ output_stem (mat_name m) ++ " " ++ bake_type)%string /\
    rc_filler rc = Some id.
Proof.
  intros Hsl Hm Hb Ht Hrun. apply bake_material_outcome in Hrun.
  destruct Hrun as [_ [Hr | [_ Hno]]].
  - destruct Hr as (id' & m' & w & h & rc & Hsl' & Hm' & _ & Hres & Hrs
                    & Hfile & Hx & Hy & Hfill & _).
    rewrite Hsl in Hsl'. injection Hsl' as <-.
    rewrite Hm in Hm'. injection Hm' as <-.
    unfold resolution_of in Hres. rewrite Ht in Hres. cbn in Hres.
    injection Hres as Hres.
    exists rc. repeat split; auto.
    + rewrite Hres in H. now injection H as <- <-.
    + rewrite Hres in H. now injection H as <- <-.
  - destruct (Hno eq_refl) as (id' & m' & Hsl' & Hm' & Hcase).
    rewrite Hsl in Hsl'. injection Hsl' as <-.
    rewrite Hm in Hm'. injection Hm' as <-.
    destruct Hcase; congruence.
Qed.

(** An accepted product: the multiplier is an int and the value is the
    clamped product. *)
Lemma resolution_value_times size multiplier x :
  resolution_value (times size multiplier) = Ok x ->
  exists z, multiplier = PyInt z /\ x = clamp_resolution (size * z).
Proof.
  destruct multiplier as [z|q]; cbn [times resolution_value]; [|discriminate].
  destruct (_ || _); [discriminate|]. intros [= <-]. now exists z.
Qed.

(** C1: the 64x64 failsafe is never reached.  The list tested by
    [if highest_resolution:] starts as [[0, 0]], which is not empty, so a
    bake-tagged material whose textures group holds no image has zero
    times the multiplier assigned as its resolution.  The host clamps
    that to its smallest resolution: the material is rendered at 4 by 4,
    not at 64 by 64. *)
Theorem failsafe_resolution_unreached
    folderpath bake_type order index s s' id m tg :
  slots s !! index = Some (Some id) -> materials s !! id = Some m ->
  mat_bake m = true -> mat_textures m = Some tg ->
  (forall n, In n (tex_nodes tg) -> node_image n = None) ->
  bake_material folderpath bake_type order index s = (s', Ok tt) ->
  exists rc, renders s' = renders s ++ [rc] /\
             rc_x rc = 4%Z /\ rc_y rc = 4%Z /\
             rc_x rc <> 64%Z /\ rc_y rc <> 64%Z.
Proof.
  intros Hsl Hm Hb Ht Hno Hrun.
  destruct (bake_material_renders _ _ _ _ _ _ _ _ _ Hsl Hm Hb Ht Hrun)
    as (rc & Hrs & Hres & _).
  destruct (Hres _ _ (highest_resolution_no_image _ Hno)) as [Hx Hy].
  apply resolution_value_times in Hx. destruct Hx as (z & _ & Hx).
  apply resolution_value_times in Hy. destruct Hy as (z' & _ & Hy).
  cbn in Hx, Hy. exists rc. split; [assumption|].
  rewrite Hx, Hy. repeat split; discriminate.
Qed.

Lemma failsafe_resolution_unreached_witness :
  exists rc,
    renders (fst (bake_material "/out/" "light" BakeDemo.order 1 BakeDemo.scene))
    = renders BakeDemo.scene ++ [rc] /\
    rc_x rc = 4%Z /\ rc_y rc = 4%Z /\
    rc_x rc <> 64%Z /\ rc_y rc <> 64%Z.
Proof.
  apply (failsafe_resolution_unreached "/out/" "light" BakeDemo.order 1%nat
           BakeDemo.scene _ 1%nat BakeDemo.glow BakeDemo.glow_textures).
  - reflexivity.
  - reflexivity.
  - reflexivity.
  - reflexivity.
  - intros n [<-|[]]. reflexivity.
  - vm_compute. reflexivity.
Defined.

Lemma demo_unique_names : unique_names (materials BakeDemo.scene).
Proof.
  intros id m H.
  destruct id as [|[|[|[|id]]]]; cbn in H; try discriminate;
    injection H as <-; split; (discriminate || reflexivity).
Qed.

Lemma bake_pass_restores_slots_witness :
  slots (fst (bake_pass "/out/" "light" BakeDemo.scene)) = slots BakeDemo.scene.
Proof.
  apply (bake_pass_restores_slots "/out/" "light" BakeDemo.scene
           (fst (bake_pass "/out/" "light" BakeDemo.scene))).
  - exact demo_unique_names.
  - vm_compute. reflexivity.
Defined.

(** C4: the light-level input is detached and forced for every pass
    type.  In a normal pass too, each render call sees the [mix] input
    without its driving link and set to 0, although the comment above
    the code restricts this to the light and dark passes. *)
Theorem normal_pass_forces_light_level folderpath s rc :
  In rc (renders (fst (bake_pass folderpath "normal" s))) ->
  In rc (renders s) \/
  rc_combine rc = Some {| mix_link := None; mix_value := 0 |}.
Proof.
  intros H. apply bake_pass_render_calls in H.
  destruct H as [H|[_ H]]; [now left | now right].
Qed.

Lemma normal_pass_forces_light_level_witness :
  exists rc,
    BakeDemo.first_call (fst (bake_pass "/out/" "normal" BakeDemo.scene)) = Some rc /\
    (In rc (renders BakeDemo.scene) \/
     rc_combine rc = Some {| mix_link := None; mix_value := 0 |}).
Proof.
  eexists. split; [vm_compute; reflexivity|].
  apply (normal_pass_forces_light_level "/out/" BakeDemo.scene).
  vm_compute. left. reflexivity.
Defined.






End BakeProofs.

(* ===================================================================== *)
(** ** The projection rig *)

Section RigProofs.
Import Rig.

Lemma filter_all {A} (p : A -> bool) (l : list A) :
  Forall (fun x => p x = true) l -> List.filter p l = l.
Proof.
  induction 1 as [|x l Hx _ IH]; cbn; [reflexivity|]. now rewrite Hx, IH.
Qed.

Lemma filter_none {A} (p : A -> bool) (l : list A) :
  Forall (fun x => p x = false) l -> List.filter p l = [].
Proof.
  induction 1 as [|x l Hx _ IH]; cbn; [reflexivity|]. now rewrite Hx, IH.
Qed.

Lemma deselect_unselected (l : list Object) :
  Forall (fun o => ob_selected o = false) l -> map (set_selected false) l = l.
Proof.
  induction 1 as [|o l Ho _ IH]; cbn; [reflexivity|].
  rewrite IH. f_equal. destruct o; cbn in *. now subst.
Qed.

Lemma clear_if_gone_nil ref : clear_if_gone [] ref = ref.
Proof. now destruct ref. Qed.

Lemma keep_objects_all keep s :
  Forall (fun o => keep o = true) (objects s) -> keep_objects keep s = s.
Proof.
  intros H. unfold keep_objects.
  rewrite (filter_all keep _ H).
  rewrite (filter_none (fun o => negb (keep o))).
  - cbn. rewrite !clear_if_gone_nil. now destruct s.
  - eapply Forall_impl; [exact H|]. cbn. now intros o ->.
Qed.

Lemma set_objects_same s : set_objects (objects s) s = s.
Proof. now destruct s. Qed.

Lemma set_meshes_same s : set_meshes (meshes s) s = s.
Proof. now destruct s. Qed.

Lemma set_cameras_same s : set_cameras (cameras s) s = s.
Proof. now destruct s. Qed.

(** On an object without the modifier, [unflatten] does nothing. *)
Lemma unflatten_skips name s :
  (forall ob, find (fun o => String.eqb (ob_name o) name) (objects s) = Some ob ->
              taken (ob_modifiers ob) "Flattener" = false) ->
  In name (map ob_name (objects s)) ->
  unflatten name s = (s, Ok tt).
Proof.
  intros Hno Hin. unfold unflatten, object_named. run_pure.
  destruct (find _ (objects s)) as [ob|] eqn:Hf.
  - run_pure. now rewrite (Hno ob eq_refl).
  - exfalso. apply in_map_iff in Hin. destruct Hin as (o & Hname & Ho).
    apply (find_none _ _ Hf) in Ho. cbn in Ho.
    rewrite Hname, String.eqb_refl in Ho. discriminate.
Qed.

Lemma for_each_skips {St A} (xs : list A) (body : A -> Py St unit) s :
  (forall x, In x xs -> body x s = (s, Ok tt)) ->
  for_each xs body s = (s, Ok tt).
Proof.
  induction xs as [|x xs IH]; intros H; cbn [for_each]; [reflexivity|].
  rewrite bind_run, (H x) by now left. apply IH. intros y Hy. apply H. now right.
Qed.

(** C3 as stated fails: on a scene with no camera, no filler plane, no
    Flattener modifier and no node-graph asset, [cleanup] raises at its
    last line. *)
Lemma cleanup_on_clean_scene_raises :
  rig_free RigDemo.clean /\
  taken (node_groups RigDemo.clean) ".Geometry Nodes" = false /\
  cleanup RigDemo.clean = (RigDemo.clean, Raise (KeyError ".Geometry Nodes")) /\
  snd (cleanup (fst (cleanup RigDemo.asset_left))) = Raise (KeyError ".Geometry Nodes").
Proof.
  split; [|split; [|split]].
  - repeat constructor. cbn. discriminate.
  - reflexivity.
  - vm_compute. reflexivity.
  - vm_compute. reflexivity.
Qed.

(** C3, amended: on a scene that is already clean (no camera, no filler
    plane, no Flattener modifier, nothing selected, no orphaned mesh or
    camera data) [cleanup] changes nothing but the node-graph asset: if
    ['.Geometry Nodes'] is still loaded it is removed and [cleanup]
    returns; if it is not, [cleanup] leaves the scene as it is and raises
    [KeyError]. *)
Theorem cleanup_on_clean_scene s :
  rig_free s -> settled s ->
  cleanup s =
    if taken (node_groups s) ".Geometry Nodes"
    then (set_node_groups (remove_first ".Geometry Nodes" (node_groups s)) s, Ok tt)
    else (s, Raise (KeyError ".Geometry Nodes")).
Proof.
  intros Hfree (Hsel & Hmesh & Hcam). unfold cleanup, purge_meshes, purge_cameras.
  run_pure.
  rewrite (deselect_unselected _ Hsel), set_objects_same.
  rewrite (keep_objects_all (fun o => negb (String.eqb (ob_type o) "CAMERA")) s).
  2:{ eapply Forall_impl; [exact Hfree|]. cbn. intros o (Hty & _ & _).
      apply negb_true_iff, String.eqb_neq. exact Hty. }
  rewrite (keep_objects_all
             (fun o => negb (Str.contains "fillerplane" (ob_name o))) s).
  2:{ eapply Forall_impl; [exact Hfree|]. cbn. intros o (_ & Hname & _).
      now rewrite Hname. }
  rewrite (filter_all _ (meshes s)), set_meshes_same.
  2:{ eapply Forall_impl; [exact Hmesh|]. cbn. intros m Hm.
      apply negb_true_iff, Nat.eqb_neq. exact Hm. }
  rewrite (filter_all _ (cameras s)), set_cameras_same.
  2:{ eapply Forall_impl; [exact Hcam|]. cbn. intros c Hc.
      apply negb_true_iff, Nat.eqb_neq. exact Hc. }
  rewrite for_each_skips.
  - run_pure. now destruct (taken (node_groups s) ".Geometry Nodes").
  - intros name Hin. apply unflatten_skips.
    + intros ob Hf. apply find_some in Hf. destruct Hf as [Hob _].
      unfold rig_free in Hfree. rewrite Forall_forall in Hfree.
      apply list_elem_of_In in Hob.
      now destruct (Hfree ob Hob) as (_ & _ & ?).
    + apply in_map_iff in Hin. destruct Hin as (o & <- & Ho).
      apply filter_In in Ho. apply in_map. tauto.
Qed.

Lemma clean_scene_settled : rig_free RigDemo.asset_left /\ settled RigDemo.asset_left.
Proof.
  split; [|split; [|split]]; repeat constructor; cbn; discriminate.
Qed.

Lemma cleanup_on_clean_scene_witness :
  cleanup RigDemo.asset_left =
    if taken (node_groups RigDemo.asset_left) ".Geometry Nodes"
    then (set_node_groups
            (remove_first ".Geometry Nodes" (node_groups RigDemo.asset_left))
            RigDemo.asset_left, Ok tt)
    else (RigDemo.asset_left, Raise (KeyError ".Geometry Nodes")).
Proof.
  apply (cleanup_on_clean_scene RigDemo.asset_left).
  - exact (proj1 clean_scene_settled).
  - exact (proj2 clean_scene_settled).
Defined.

(** C10: the orthographic settings go to the camera data-block that bears
    the new object's name, which need not be the new object's own data.
    When a camera data-block named [Camera] survives the purge (here it
    has another user), the new object is [Camera] but its data is
    [Camera.001]: [setup_camera] returns, the scene has exactly one
    camera object and it is the scene camera, yet its data is still a
    perspective camera, and the surviving block was switched instead. *)
Theorem setup_camera_configures_namesake :
  exists s' o c old,
    setup_camera RigDemo.protected_camera = (s', Ok "Camera") /\
    camera_objects s' = [o] /\ ob_name o = "Camera" /\
    scene_camera s' = Some "Camera" /\
    camera_data_of o s' = Some c /\ cam_name c = "Camera.001" /\
    cam_type c = "PERSP" /\
    cameras s' !! 0%nat = Some old /\ cam_name old = "Camera" /\
    cam_type old = "ORTHO" /\ cam_other_users old = 1%nat.
Proof.
  do 4 eexists. split; [vm_compute; reflexivity|].
  repeat split; vm_compute; reflexivity.
Qed.

End RigProofs.

(* ===================================================================== *)
(** ** The pipeline driver *)

Section DriverProofs.
Import Driver.

(** C8: whatever the pipeline raises and wherever it raises it, [execute]
    does not let it through.  The handler logs the error line and the
    traceback, puts the viewport back to ['SOLID'], reports the traceback
    to the user as an ['ERROR'] and returns [CANCELLED]; the scene stays
    as the failed pipeline left it. *)
Theorem execute_catches_everything {W : Type}
    (pipeline : Py (Host W) unit) (elapsed : string) (h h1 : Host W) (e : exn) :
  pipeline h = (h1, Raise e) ->
  execute pipeline elapsed h = (failed h1 e, Ok CANCELLED) /\
  viewport_shading (fst (execute pipeline elapsed h)) = "SOLID" /\
  In (None, format_exc e) (log (fst (execute pipeline elapsed h))) /\
  In ("ERROR", format_exc e) (reports (fst (execute pipeline elapsed h))).
Proof.
  intros Hrun.
  assert (Hexec : execute pipeline elapsed h = (failed h1 e, Ok CANCELLED)).
  { unfold execute, try_except. rewrite bind_run, Hrun. reflexivity. }
  rewrite Hexec. cbn [fst failed viewport_shading log reports].
  repeat split.
  - apply in_or_app. right. now left.
  - apply in_or_app. right. now left.
Qed.

Lemma execute_catches_everything_witness :
  execute DriverDemo.one_object "0.52" DriverDemo.start =
    (failed (fst (DriverDemo.one_object DriverDemo.start))
            (KeyError ".Geometry Nodes"), Ok CANCELLED) /\
  viewport_shading (fst (execute DriverDemo.one_object "0.52" DriverDemo.start))
    = "SOLID" /\
  In (None, format_exc (KeyError ".Geometry Nodes"))
     (log (fst (execute DriverDemo.one_object "0.52" DriverDemo.start))) /\
  In ("ERROR", format_exc (KeyError ".Geometry Nodes"))
     (reports (fst (execute DriverDemo.one_object "0.52" DriverDemo.start))).
Proof.
  apply (execute_catches_everything DriverDemo.one_object "0.52" DriverDemo.start
           (fst (DriverDemo.one_object DriverDemo.start))
           (KeyError ".Geometry Nodes")).
  vm_compute. reflexivity.
Defined.

(** [execute] itself never raises. *)
Lemma execute_returns {W : Type}
    (pipeline : Py (Host W) unit) (elapsed : string) (h : Host W) :
  exists status, snd (execute pipeline elapsed h) = Ok status.
Proof.
  unfold execute, try_except. rewrite bind_run.
  destruct (pipeline h) as [h1 [[]|e]]; cbn; eauto.
Qed.

End DriverProofs.

(* ===================================================================== *)
(** ** File names: [sanitizeMaterialName] and the output stem *)

Section NameProofs.

Lemma has_char_remove_same ch text :
  Str.has_char ch (Str.remove_char ch text) = false.
Proof.
  induction text as [|c rest IH]; cbn; [reflexivity|].
  destruct (Ascii.eqb c ch) eqn:E; cbn; [exact IH|]. now rewrite E.
Qed.

Lemma has_char_remove_other ch d text :
  Str.has_char ch text = false ->
  Str.has_char ch (Str.remove_char d text) = false.
Proof.
  induction text as [|c rest IH]; cbn; [reflexivity|].
  destruct (Ascii.eqb c ch) eqn:E; [discriminate|]. intros H.
  destruct (Ascii.eqb c d); cbn; [auto|]. rewrite E. auto.
Qed.

Lemma remove_char_absent ch text :
  Str.has_char ch text = false -> Str.remove_char ch text = text.
Proof.
  induction text as [|c rest IH]; cbn; [reflexivity|].
  destruct (Ascii.eqb c ch); [discriminate|]. intros H. now rewrite IH.
Qed.

Lemma remove_char_append ch a b :
  Str.remove_char ch (a ++ b) = (Str.remove_char ch a ++ Str.remove_char ch b)%string.
Proof.
  induction a as [|c rest IH]; simpl; [reflexivity|].
  destruct (Ascii.eqb c ch); simpl; now rewrite IH.
Qed.

(** The guard [if ch in text] changes nothing: removing an absent
    character is the identity. *)
Lemma sanitize_step ch text :
  (if Str.has_char ch text then Str.remove_char ch text else text) =
  Str.remove_char ch text.
Proof.
  destruct (Str.has_char ch text) eqn:E; [reflexivity|].
  symmetry. now apply remove_char_absent.
Qed.

Lemma sanitize_fold chars text :
  fold_left
    (fun text ch => if Str.has_char ch text then Str.remove_char ch text else text)
    chars text =
  fold_left (fun text ch => Str.remove_char ch text) chars text.
Proof.
  revert text. induction chars as [|ch chars IH]; intros text; cbn; [reflexivity|].
  now rewrite sanitize_step, IH.
Qed.

Lemma fold_remove_absent ch chars text :
  Str.has_char ch text = false ->
  Str.has_char ch (fold_left (fun text ch => Str.remove_char ch text) chars text) = false.
Proof.
  revert text. induction chars as [|d chars IH]; intros text H; cbn; [exact H|].
  apply IH. now apply has_char_remove_other.
Qed.

Lemma fold_remove_gone ch chars text :
  In ch chars ->
  Str.has_char ch (fold_left (fun text ch => Str.remove_char ch text) chars text) = false.
Proof.
  revert text. induction chars as [|d chars IH]; intros text; cbn; [intros []|].
  intros [->|Hin].
  - apply fold_remove_absent, has_char_remove_same.
  - now apply IH.
Qed.

(** X1: none of the eleven illegal characters survives sanitizing. *)
Theorem sanitized_name_has_no_illegal_char text ch :
  In ch illegal_chars ->
  Str.has_char ch (sanitizeMaterialName text) = false.
Proof.
  intros H. unfold sanitizeMaterialName. rewrite sanitize_fold.
  now apply fold_remove_gone.
Qed.

Lemma sanitized_name_has_no_illegal_char_witness :
  Str.has_char ":" (sanitizeMaterialName "cf_m_face:00*.001") = false.
Proof.
  apply (sanitized_name_has_no_illegal_char "cf_m_face:00*.001" ":"%char).
  cbn. tauto.
Defined.

Lemma fold_remove_clean chars text :
  (forall ch, In ch chars -> Str.has_char ch text = false) ->
  fold_left (fun text ch => Str.remove_char ch text) chars text = text.
Proof.
  revert text. induction chars as [|d chars IH]; intros text H; cbn; [reflexivity|].
  rewrite remove_char_absent by (apply H; now left).
  apply IH. intros ch Hch. apply H. now right.
Qed.

(** X2: a name without illegal characters is returned as it is, so
    sanitizing twice is the same as sanitizing once. *)
Theorem sanitize_is_idempotent text :
  sanitizeMaterialName (sanitizeMaterialName text) = sanitizeMaterialName text /\
  ((forall ch, In ch illegal_chars -> Str.has_char ch text = false) ->
   sanitizeMaterialName text = text).
Proof.
  assert (Hclean : forall t,
            (forall ch, In ch illegal_chars -> Str.has_char ch t = false) ->
            sanitizeMaterialName t = t).
  { intros t H. unfold sanitizeMaterialName. rewrite sanitize_fold.
    now apply fold_remove_clean. }
  split; [|apply Hclean].
  apply Hclean. intros ch Hch. unfold sanitizeMaterialName.
  rewrite sanitize_fold. now apply fold_remove_gone.
Qed.

Lemma fold_remove_append chars a b :
  fold_left (fun text ch => Str.remove_char ch text) chars (a ++ b)%string =
  (fold_left (fun text ch => Str.remove_char ch text) chars a ++
   fold_left (fun text ch => Str.remove_char ch text) chars b)%string.
Proof.
  revert a b. induction chars as [|d chars IH]; intros a b; cbn; [reflexivity|].
  now rewrite remove_char_append, IH.
Qed.

(** X3: sanitizing works character by character: the sanitized form of
    a concatenation is the concatenation of the sanitized parts, so the
    kept characters stay in their order. *)
Theorem sanitize_distributes_over_append a b :
  sanitizeMaterialName (a ++ b) =
  (sanitizeMaterialName a ++ sanitizeMaterialName b)%string.
Proof.
  unfold sanitizeMaterialName. rewrite !sanitize_fold. apply fold_remove_append.
Qed.

Lemma string_length_append a b :
  String.length (a ++ b) = (String.length a + String.length b)%nat.
Proof. induction a as [|c a IH]; simpl; [reflexivity|]. now rewrite IH. Qed.

Lemma substring_past_prefix a b m :
  substring (String.length a) m (a ++ b) = substring 0 m b.
Proof. induction a as [|c a IH]; simpl; [reflexivity|]. exact IH. Qed.

Lemma substring_prefix a b :
  substring 0 (String.length a) (a ++ b) = a.
Proof.
  induction a as [|c a IH]; simpl.
  - now destruct b.
  - now rewrite IH.
Qed.

(** X4: the output file stem drops one trailing [-ORG]: for a name
    [base] free of illegal characters, the material [base-ORG] is baked
    to files named after [base]. *)
Theorem output_stem_drops_ORG_suffix base :
  (forall ch, In ch illegal_chars -> Str.has_char ch base = false) ->
  Bake.output_stem (base ++ "-ORG") = base.
Proof.
  intros Hclean. unfold Bake.output_stem.
  assert (Hs : sanitizeMaterialName (base ++ "-ORG") = (base ++ "-ORG")%string).
  { unfold sanitizeMaterialName. rewrite sanitize_fold, fold_remove_append.
    rewrite (fold_remove_clean _ base Hclean). reflexivity. }
  rewrite Hs. unfold Str.last4, Str.drop_last4.
  rewrite string_length_append. simpl String.length.
  replace (String.length base + 4 - 4)%nat with (String.length base) by lia.
  replace (Nat.min 4 (String.length base + 4)) with 4%nat by lia.
  rewrite substring_past_prefix. simpl. apply substring_prefix.
Qed.

Lemma output_stem_drops_ORG_suffix_witness :
  Bake.output_stem ("cf_m_body" ++ "-ORG") = "cf_m_body".
Proof.
  apply (output_stem_drops_ORG_suffix "cf_m_body").
  intros ch H. cbn in H.
  repeat (destruct H as [<-|H]; [reflexivity|]). destruct H.
Defined.

End NameProofs.

(* ===================================================================== *)
(** ** More about the bake pass *)

Section MoreBakeProofs.
Import Bake.

(** X5: the resolution list computed from a textures group always has
    two entries; they are the size of an image node of the group whose
    area no image of the group exceeds, or zeros when no image has a
    positive area. *)
Theorem highest_resolution_is_largest_image nodes :
  exists w h,
    highest_resolution_of nodes = [w; h] /\
    (forall n image, In n nodes -> node_type n = "TEX_IMAGE" ->
       node_image n = Some image ->
       (fst (img_size image) * snd (img_size image) <= w * h)%Z) /\
    ((w = 0 /\ h = 0)%Z \/
     exists n image, In n nodes /\ node_type n = "TEX_IMAGE" /\
       node_image n = Some image /\ img_size image = (w, h)).
Proof.
  destruct (highest_resolution_shape nodes) as (w & h & Hhr).
  exists w, h. split; [exact Hhr|]. now apply highest_resolution_is_max.
Qed.

(** X6: a bake-tagged material without a [textures] node is never
    rendered: its turn in the loop makes no render call, whether it
    returns or raises. *)
Theorem material_without_textures_is_not_rendered
    folderpath bake_type order index s id m :
  slots s !! index = Some (Some id) -> materials s !! id = Some m ->
  mat_textures m = None ->
  renders (fst (bake_material folderpath bake_type order index s)) = renders s.
Proof.
  intros Hsl Hm Ht.
  destruct (bake_material folderpath bake_type order index s) as [s' r] eqn:Hrun.
  apply bake_material_outcome in Hrun. cbn.
  destruct Hrun as [_ [Hr | [Hsame _]]]; [|exact Hsame].
  destruct Hr as (id' & m' & w & h & rc & Hsl' & Hm' & _ & Hres & _).
  rewrite Hsl in Hsl'. injection Hsl' as <-.
  rewrite Hm in Hm'. injection Hm' as <-.
  unfold resolution_of in Hres. rewrite Ht in Hres. discriminate.
Qed.

Lemma material_without_textures_is_not_rendered_witness :
  renders (fst (bake_material "/out/" "light" ["Flat"] 0 MoreDemo.flat_scene))
  = renders MoreDemo.flat_scene.
Proof.
  apply (material_without_textures_is_not_rendered "/out/" "light" ["Flat"] 0%nat
           MoreDemo.flat_scene 0%nat MoreDemo.flat); reflexivity.
Defined.

Ltac keeps_bake_piece :=
  match goal with
  | |- keeps _ (material_at _) => apply keeps_material_at
  | |- keeps _ (kklog _) => unfold kklog; keeps_auto
  | |- keeps names (prepare_material _ _) => apply names_prepare_material
  | |- keeps bakes (prepare_material _ _) => apply bakes_prepare_material
  | |- keeps names (restore_material _ _ _) => apply names_restore_material
  | |- keeps bakes (restore_material _ _ _) => apply bakes_restore_material
  | |- keeps names (render_material ?f ?b ?i) =>
      let s0 := fresh "s" in
      intros s0; unfold names; now rewrite (materials_render_material f b i s0)
  | |- keeps bakes (render_material ?f ?b ?i) =>
      let s0 := fresh "s" in
      intros s0; unfold bakes; now rewrite (materials_render_material f b i s0)
  | |- keeps names (restore_slots ?o) =>
      let s0 := fresh "s" in
      intros s0; unfold names; now rewrite (materials_restore_slots o s0)
  | |- keeps bakes (restore_slots ?o) =>
      let s0 := fresh "s" in
      intros s0; unfold bakes; now rewrite (materials_restore_slots o s0)
  end.

Lemma names_bake_material folderpath bake_type order index :
  keeps names (bake_material folderpath bake_type order index).
Proof. unfold bake_material. keeps_auto; keeps_bake_piece. Qed.

Lemma bakes_bake_material folderpath bake_type order index :
  keeps bakes (bake_material folderpath bake_type order index).
Proof. unfold bake_material. keeps_auto; keeps_bake_piece. Qed.

(** X7: a bake pass never renames a material and never changes a bake
    tag, whether it completes or raises part-way. *)
Theorem bake_pass_keeps_names_and_tags folderpath bake_type s :
  map mat_name (materials (fst (bake_pass folderpath bake_type s)))
    = map mat_name (materials s) /\
  map mat_bake (materials (fst (bake_pass folderpath bake_type s)))
    = map mat_bake (materials s).
Proof.
  split.
  - change (names (fst (bake_pass folderpath bake_type s)) = names s).
    revert s. change (keeps names (bake_pass folderpath bake_type)).
    unfold bake_pass. keeps_auto.
    + now apply keeps_force_light_level.
    + apply names_bake_material.
    + now apply keeps_relink_light_level.
  - change (bakes (fst (bake_pass folderpath bake_type s)) = bakes s).
    revert s. change (keeps bakes (bake_pass folderpath bake_type)).
    unfold bake_pass. keeps_auto.
    + now apply keeps_force_light_level.
    + apply bakes_bake_material.
    + now apply keeps_relink_light_level.
Qed.

(** X8: the pass needs the shared ['.Combine colors'] group with its
    [mix] input linked.  Without the group it raises [KeyError], with an
    unlinked input [IndexError]; in both cases before anything changed. *)
Theorem bake_pass_needs_linked_mix_input folderpath bake_type s :
  match combine s with
  | None =>
      bake_pass folderpath bake_type s = (s, Raise (KeyError ".Combine colors"))
  | Some c =>
      mix_link c = None ->
      bake_pass folderpath bake_type s = (s, Raise IndexError)
  end.
Proof.
  destruct (combine s) as [c|] eqn:Hc.
  - intros Hl. unfold bake_pass, force_light_level. run_pure.
    rewrite Hc. run_pure. rewrite Hl. reflexivity.
  - unfold bake_pass, force_light_level. run_pure. rewrite Hc. reflexivity.
Qed.

Lemma relink_light_level_run s s' :
  relink_light_level s = (s', Ok tt) ->
  exists c, combine s = Some c /\
    s' = set_combine (Some {| mix_link := Some "input.outputs[2]";
                              mix_value := mix_value c |}) s.
Proof.
  unfold relink_light_level. run_pure.
  destruct (combine s) as [c|]; run_pure; [|discriminate].
  intros [= <-]. now exists c.
Qed.

(** X9: when a pass completes, the light-level input is linked again, to
    the group input's third output whatever drove it before, and its
    default value is left at the constant the pass forced (1 for a light
    pass, 0 otherwise). *)
Theorem completed_pass_relinks_light_level folderpath bake_type s s' :
  bake_pass folderpath bake_type s = (s', Ok tt) ->
  combine s' =
    Some {| mix_link := Some "input.outputs[2]";
            mix_value := if String.eqb bake_type "light" then 1 else 0 |}.
Proof.
  intros Hrun. unfold bake_pass, bind at 1, get in Hrun.
  apply bind_ok in Hrun. destruct Hrun as ([] & s1 & Hforce & Hrun).
  apply bind_ok in Hrun. destruct Hrun as ([] & s2 & Hloop & Hrelink).
  apply force_light_level_run in Hforce. subst s1.
  assert (Hinv : hoare
            (fun st => combine st = Some (forced_light_level bake_type))
            (for_range (length (slots s))
               (bake_material folderpath bake_type
                  (map (slot_name (materials s)) (slots s))))
            (fun _ st => combine st = Some (forced_light_level bake_type))
            (fun _ => True)).
  { apply hoare_for_range. intros i _ st Hc.
    run_cases st' Hbody.
    apply bake_material_outcome in Hbody.
    destruct Hbody as ((_ & Hc' & _) & _). congruence. }
  specialize (Hinv (set_combine (Some (forced_light_level bake_type)) s) eq_refl).
  rewrite Hloop in Hinv.
  apply relink_light_level_run in Hrelink.
  destruct Hrelink as (c & Hc & ->). cbn.
  rewrite Hinv in Hc. injection Hc as <-. reflexivity.
Qed.

Lemma completed_pass_relinks_light_level_witness :
  combine (fst (bake_pass "/out/" "dark" BakeDemo.scene)) =
    Some {| mix_link := Some "input.outputs[2]";
            mix_value := if String.eqb "dark" "light" then 1 else 0 |}.
Proof.
  apply (completed_pass_relinks_light_level "/out/" "dark" BakeDemo.scene).
  vm_compute. reflexivity.
Defined.

(** X10: in a light pass every render call sees the light level detached
    and set to 1, in a dark pass detached and set to 0, and the material
    shown on the filler plane is always a bake-tagged one. *)
Theorem light_and_dark_passes_force_light_level folderpath s :
  (forall rc, In rc (renders (fst (bake_pass folderpath "light" s))) ->
     In rc (renders s) \/
     (rc_combine rc = Some {| mix_link := None; mix_value := 1 |} /\
      exists id, rc_filler rc = Some id /\
                 map mat_bake (materials s) !! id = Some true)) /\
  (forall rc, In rc (renders (fst (bake_pass folderpath "dark" s))) ->
     In rc (renders s) \/
     (rc_combine rc = Some {| mix_link := None; mix_value := 0 |} /\
      exists id, rc_filler rc = Some id /\
                 map mat_bake (materials s) !! id = Some true)).
Proof.
  split; intros rc Hin; apply bake_pass_render_calls in Hin;
    (destruct Hin as [Hin | [Hex Hc]]; [now left | right; split; assumption]).
Qed.

Lemma bake_material_ok_slot folderpath bake_type order index s s' :
  bake_material folderpath bake_type order index s = (s', Ok tt) ->
  exists id m, slots s !! index = Some (Some id) /\ materials s !! id = Some m.
Proof.
  unfold bake_material, material_at. run_pure.
  destruct (slots s !! index) as [[id|]|] eqn:Hsl; run_pure; try discriminate.
  destruct (materials s !! id) as [m|] eqn:Hm; run_pure; try discriminate.
  intros _. now exists id, m.
Qed.

(** X11: an empty slot stops the pass.  If a pass completes, every slot
    of the object held a material of the registry: an empty slot makes
    the loop raise ([current_material] is [None]) before the end. *)
Theorem completed_pass_had_no_empty_slot folderpath bake_type s s' :
  unique_names (materials s) ->
  bake_pass folderpath bake_type s = (s', Ok tt) ->
  forall i slot, slots s !! i = Some slot ->
    exists id m, slot = Some id /\ materials s !! id = Some m.
Proof.
  intros Hu Hrun. unfold bake_pass, bind at 1, get in Hrun.
  apply bind_ok in Hrun. destruct Hrun as ([] & s1 & Hforce & Hrun).
  apply bind_ok in Hrun. destruct Hrun as ([] & s2 & Hloop & _).
  apply force_light_level_frame in Hforce. destruct Hforce as [Hn1 Hs1].
  set (I := fun (j : nat) (st : Scene) =>
    names st = names s /\ slots st = slots s /\
    forall i, (i < j)%nat ->
      exists id, slots s !! i = Some (Some id) /\ is_Some (names s !! id)).
  assert (Hinv : hoare (I 0%nat)
            (for_range (length (slots s))
               (bake_material folderpath bake_type
                  (map (slot_name (materials s)) (slots s))))
            (fun _ => I (0 + length (slots s))%nat) (fun _ => True)).
  { unfold for_range.
    apply (hoare_for_seq I (fun _ => True) _ (length (slots s)) 0%nat).
    intros j _ st (Hn & Hs & Hprev). run_cases st' Hbody.
    destruct (bake_material_ok_slot _ _ _ _ _ _ Hbody) as (id & m & Hsl & Hm).
    destruct (bake_material_restores _ _ _ _ _ _ Hu Hn Hs Hbody) as [Hn' Hs'].
    unfold I. repeat split; auto.
    intros i Hi. destruct (decide (i = j)) as [->|Hne].
    - exists id. rewrite <- Hs. split; [exact Hsl|].
      rewrite <- Hn. unfold names. change (map ?f ?l) with (f <$> l).
      rewrite list_lookup_fmap, Hm. now eexists.
    - apply Hprev. lia. }
  specialize (Hinv s1). rewrite Hloop in Hinv.
  destruct Hinv as (_ & _ & Hall); [unfold I; repeat split; auto; lia|].
  intros i slot Hslot.
  destruct (Hall i) as (id & Hid & [n Hname]).
  { apply lookup_lt_Some in Hslot. lia. }
  rewrite Hslot in Hid. injection Hid as ->.
  unfold names in Hname. change (map ?f ?l) with (f <$> l) in Hname.
  rewrite list_lookup_fmap in Hname.
  destruct (materials s !! id) as [m|] eqn:Hm; [|discriminate]. now exists id, m.
Qed.

Lemma completed_pass_had_no_empty_slot_witness :
  exists id m, Some 1%nat = Some id /\ materials BakeDemo.scene !! id = Some m.
Proof.
  apply (completed_pass_had_no_empty_slot "/out/" "light" BakeDemo.scene
           (fst (bake_pass "/out/" "light" BakeDemo.scene))
           demo_unique_names) with (i := 1%nat).
  - vm_compute. reflexivity.
  - reflexivity.
Defined.

End MoreBakeProofs.

(* ===================================================================== *)
(** ** The scale drivers *)

Section DriverExpressionProofs.
Import Drivers.
Local Open Scope Q_scope.

Lemma ratio_lt_1 (a b : Q) : 0 < b -> (a / b < 1 <-> a < b).
Proof.
  intros Hb. split; intros H.
  - apply (Qmult_lt_r _ _ b Hb) in H. rewrite Qmult_1_l in H.
    unfold Qdiv in H. rewrite <- Qmult_assoc, (Qmult_comm (/ b)), Qmult_inv_r in H.
    + now rewrite Qmult_1_r in H.
    + intros E. rewrite E in Hb. now apply Qlt_irrefl in Hb.
  - apply (Qmult_lt_r _ _ b Hb). rewrite Qmult_1_l.
    unfold Qdiv. rewrite <- Qmult_assoc, (Qmult_comm (/ b)), Qmult_inv_r.
    + now rewrite Qmult_1_r.
    + intros E. rewrite E in Hb. now apply Qlt_irrefl in Hb.
Qed.

Lemma not_le_bool_lt (a : Q) : negb (Qle_bool 1 a) = true <-> a < 1.
Proof.
  rewrite negb_true_iff. split; intros H.
  - apply Qnot_le_lt. intros Hle. apply Qle_bool_iff in Hle. congruence.
  - destruct (Qle_bool 1 a) eqn:E; [|reflexivity].
    apply Qle_bool_iff in E. exfalso. now apply (Qlt_not_le _ _ H).
Qed.

Lemma positive_nonzero (a : Q) : 0 < a -> Qeq_bool a 0 = false.
Proof.
  intros H. destruct (Qeq_bool a 0) eqn:E; [|reflexivity].
  apply Qeq_bool_iff in E. rewrite E in H. now apply Qlt_irrefl in H.
Qed.

(** X12: for a positive resolution and a positive orthographic scale
    both drivers succeed, neither scale exceeds the orthographic scale,
    both are positive, and the scale along the longer side of the render
    is the orthographic scale itself. *)
Theorem scale_drivers_fit_the_view (r_x r_y cOS : Q) :
  0 < r_x -> 0 < r_y -> 0 < cOS ->
  exists sx sy,
    scale_x_expression r_x r_y cOS = Some sx /\
    scale_y_expression r_x r_y cOS = Some sy /\
    0 < sx /\ sx <= cOS /\ 0 < sy /\ sy <= cOS /\
    (r_y <= r_x -> sx = cOS) /\ (r_x <= r_y -> sy = cOS).
Proof.
  intros Hx Hy Hc. unfold scale_x_expression, scale_y_expression.
  rewrite (positive_nonzero _ Hx), (positive_nonzero _ Hy).
  do 2 eexists. split; [reflexivity|]. split; [reflexivity|].
  assert (Hpos : forall a b, 0 < a -> 0 < b -> 0 < a / b * cOS).
  { intros a b Ha Hb. apply Qmult_lt_0_compat; [|exact Hc].
    apply Qlt_shift_div_l; [exact Hb|]. now rewrite Qmult_0_l. }
  assert (Hle : forall a b, 0 < b -> a / b < 1 -> a / b * cOS <= cOS).
  { intros a b Hb Hlt. rewrite <- (Qmult_1_l cOS) at 2.
    apply Qmult_le_compat_r; [now apply Qlt_le_weak | now apply Qlt_le_weak]. }
  destruct (negb (Qle_bool 1 (r_x / r_y))) eqn:Ex;
    destruct (negb (Qle_bool 1 (r_y / r_x))) eqn:Ey;
    try (apply not_le_bool_lt in Ex); try (apply not_le_bool_lt in Ey);
    repeat split; auto using Qle_refl;
    try (intros Hge; exfalso).
  all: try (apply (proj1 (ratio_lt_1 _ _ Hy)) in Ex);
       try (apply (proj1 (ratio_lt_1 _ _ Hx)) in Ey).
  all: try (now apply (Qlt_not_le _ _ Ex)); try (now apply (Qlt_not_le _ _ Ey)).
Qed.

Lemma scale_drivers_fit_the_view_witness :
  exists sx sy,
    scale_x_expression 1024 2048 6 = Some sx /\
    scale_y_expression 1024 2048 6 = Some sy /\
    0 < sx /\ sx <= 6 /\ 0 < sy /\ sy <= 6 /\
    (2048 <= 1024 -> sx = 6) /\ (1024 <= 2048 -> sy = 6).
Proof.
  apply (scale_drivers_fit_the_view 1024 2048 6); reflexivity.
Defined.

(** A zero in the denominator makes the driver fail. *)
Lemma scale_driver_zero_resolution (r_x cOS : Q) :
  scale_x_expression r_x 0 cOS = None.
Proof. reflexivity. Qed.

End DriverExpressionProofs.

(* ===================================================================== *)
(** ** The search of the layer tree *)

Section LayerProofs.
Import Layers.

Lemma find_app {A} (p : A -> bool) (l1 l2 : list A) :
  find p (l1 ++ l2) = match find p l1 with Some x => Some x | None => find p l2 end.
Proof.
  induction l1 as [|x l1 IH]; cbn; [reflexivity|]. now destruct (p x).
Qed.

Lemma recurLayerCollection_bounded (d : nat) (l : LayerCollection) (collName : string) :
  (depth l <= d)%nat ->
  recurLayerCollection l collName =
    find (fun c => String.eqb (name c) collName) (preorder l).
Proof.
  revert l. induction d as [|d IH]; intros [n cs] Hd; [cbn in Hd; lia|].
  cbn [recurLayerCollection preorder find name].
  destruct (String.eqb n collName); [reflexivity|].
  cbn [depth] in Hd. apply le_S_n in Hd.
  induction cs as [|c cs IHcs]; [reflexivity|].
  cbn [flat_map]. rewrite find_app.
  assert (Hc : (depth c <= d /\ list_max (map depth cs) <= d)%nat).
  { unfold list_max in *. cbn [map fold_right] in Hd. lia. }
  rewrite <- (IH c) by apply Hc.
  destruct (recurLayerCollection c collName); [reflexivity|].
  apply IHcs, Hc.
Qed.

(** X14: [recurLayerCollection] returns the first layer collection of the
    tree, parents before children and siblings in order, that bears the
    name; [None] when there is none. *)
Theorem recurLayerCollection_is_first_in_preorder
    (layerColl : LayerCollection) (collName : string) :
  recurLayerCollection layerColl collName =
    find (fun c => String.eqb (name c) collName) (preorder layerColl).
Proof. apply (recurLayerCollection_bounded (depth layerColl)). lia. Qed.

(** X15: the search fails exactly when no layer collection of the tree
    bears the name, and what it finds bears the name and lies in the
    tree. *)
Theorem recurLayerCollection_finds_the_name
    (layerColl : LayerCollection) (collName : string) :
  match recurLayerCollection layerColl collName with
  | Some found => name found = collName /\ In found (preorder layerColl)
  | None => ~ In collName (map name (preorder layerColl))
  end.
Proof.
  rewrite (recurLayerCollection_bounded (depth layerColl)) by lia.
  destruct (find _ _) as [found|] eqn:E.
  - apply find_some in E. destruct E as [Hin Hn].
    apply String.eqb_eq in Hn. now split.
  - intros Hin. apply in_map_iff in Hin. destruct Hin as (c & Hc & Hin).
    apply (find_none _ _ E) in Hin. cbn in Hin.
    rewrite Hc, String.eqb_refl in Hin. discriminate.
Qed.

(** A collection of the same name nested deeper but listed earlier wins
    over a direct child. *)
Lemma recurLayerCollection_prefers_earlier_branch :
  recurLayerCollection LayerDemo.view_layer "Chara" = Some LayerDemo.chara.
Proof. reflexivity. Qed.

End LayerProofs.

(* ===================================================================== *)
(** ** More on the projection rig *)

Section MoreRigProofs.
Import Rig RigStages.

Lemma update_camera_named_run (name : string) (f : Camera -> Camera) (s : Scene) :
  update_camera_named name f s =
    match Bake.find_index (fun c => String.eqb (cam_name c) name) (cameras s) with
    | Some i =>
        match cameras s !! i with
        | Some c => (set_cameras (<[i := f c]> (cameras s)) s, Ok tt)
        | None => (s, Raise (KeyError name))
        end
    | None => (s, Raise (KeyError name))
    end.
Proof.
  unfold update_camera_named. run_pure.
  destruct (Bake.find_index _ _) as [i|]; [|reflexivity].
  now destruct (cameras s !! i).
Qed.

Lemma find_index_None {A} (p : A -> bool) (l : list A) :
  Bake.find_index p l = None -> existsb p l = false.
Proof.
  induction l as [|x l IH]; cbn; [reflexivity|].
  destruct (p x); [discriminate|]. destruct (Bake.find_index p l); [discriminate|].
  intros _. now apply IH.
Qed.

Lemma find_index_insert {A} (p : A -> bool) (l : list A) (i : nat) (x : A) :
  Bake.find_index p l = Some i -> p x = true ->
  Bake.find_index p (<[i := x]> l) = Some i /\
  find p (<[i := x]> l) = Some x /\ <[i := x]> l !! i = Some x.
Proof.
  revert i. induction l as [|y l IH]; intros i; cbn; [discriminate|].
  destruct (p y) eqn:Hy.
  - intros [= <-] Hx. cbn. now rewrite Hx.
  - destruct (Bake.find_index p l) as [j|]; cbn; [|discriminate].
    intros [= <-] Hx. destruct (IH j eq_refl Hx) as (H1 & H2 & H3).
    change (<[S j := x]> (y :: l)) with (y :: <[j := x]> l).
    cbn [Bake.find_index find]. rewrite Hy, H1, H2.
    split; [reflexivity|]. split; [reflexivity|exact H3].
Qed.

Lemma camera_objects_deselected (l : list Object) :
  List.filter (fun o => String.eqb (ob_type o) "CAMERA") (map (set_selected false) l) =
  map (set_selected false) (List.filter (fun o => String.eqb (ob_type o) "CAMERA") l).
Proof.
  induction l as [|o l IH]; [reflexivity|]. cbn [map List.filter].
  cbn [set_selected ob_type]. destruct (String.eqb (ob_type o) "CAMERA"); cbn [map]; now rewrite IH.
Qed.

(** Selecting the cameras and deleting the selection leaves no camera. *)
Lemma no_camera_after_delete (l : list Object) :
  List.filter (fun o => String.eqb (ob_type o) "CAMERA")
    (List.filter (fun o => negb (ob_selected o))
       (map (fun obj => set_selected (String.eqb (ob_type obj) "CAMERA") obj) l)) = [].
Proof.
  induction l as [|o l IH]; [reflexivity|]. cbn [map List.filter].
  cbn [set_selected ob_selected].
  destruct (String.eqb (ob_type o) "CAMERA") eqn:E; cbn [negb]; [exact IH|].
  cbn [List.filter ob_type set_selected negb]. now rewrite E, IH.
Qed.

Lemma taken_existsb {A} (f : A -> string) (l : list A) (name : string) :
  taken (map f l) name = existsb (fun x => String.eqb (f x) name) l.
Proof.
  unfold taken. induction l as [|x l IH]; cbn; [reflexivity|].
  rewrite IH. f_equal. apply String.eqb_sym.
Qed.

Lemma cleared_has_no_camera (s : Scene) : camera_objects (cleared s) = [].
Proof. unfold camera_objects, cleared. cbn. apply no_camera_after_delete. Qed.

Lemma with_camera_objects (s : Scene) : camera_objects (with_camera s) = [new_object s].
Proof.
  unfold camera_objects, with_camera. cbn [objects set_scene_camera set_active_object set_cameras set_objects].
  rewrite List.filter_app, camera_objects_deselected.
  pose proof (cleared_has_no_camera s) as Hno. unfold camera_objects in Hno.
  now rewrite Hno.
Qed.

(** The run of [setup_camera], in closed form. *)
Lemma setup_camera_run (s : Scene) :
  setup_camera s =
    let cams := cameras (cleared s) ++ [new_data s] in
    match Bake.find_index (fun c => String.eqb (cam_name c) (new_object_name s)) cams with
    | Some i =>
        match cams !! i with
        | Some c =>
            (set_pixel_aspect 1 1
               (set_cameras
                  (<[i := set_ortho_scale 6 (set_camera_type "ORTHO" c)]> cams)
                  (with_camera s)),
             Ok (new_object_name s))
        | None => (with_camera s, Raise (KeyError (new_object_name s)))
        end
    | None => (with_camera s, Raise (KeyError (new_object_name s)))
    end.
Proof.
  unfold setup_camera, delete_selected, purge_cameras, camera_add.
  do 4 (rewrite bind_run; cbn [modify]).
  fold (cleared s). fold (new_object_name s) (new_data_name s).
  fold (new_object s) (new_data s).
  run_pure. cbn [active_object set_active_object expect]. run_pure.
  fold (with_camera s).
  rewrite update_camera_named_run.
  change (cameras (with_camera s)) with (cameras (cleared s) ++ [new_data s]).
  cbv zeta.
  destruct (Bake.find_index _ _) as [i|] eqn:Hi; [|reflexivity].
  destruct (find_index_Some _ _ _ Hi) as (c & Hc & Hpc). rewrite Hc.
  rewrite bind_run, update_camera_named_run. cbn [cameras set_cameras].
  edestruct (find_index_insert _ _ i (set_camera_type "ORTHO" c) Hi) as (Hi' & _ & Hc').
  { exact Hpc. }
  rewrite Hi', Hc'. run_pure. rewrite list_insert_insert_eq. reflexivity.
Qed.

(** X16: whatever the scene, [setup_camera] ends with exactly one camera
    object, selected, active and set as the scene camera.  It returns
    that object's name when a camera data-block bears the same name, and
    then that block is orthographic with scale 6 and the pixel aspect is
    1:1; otherwise it raises [KeyError] with the object's name. *)
Theorem setup_camera_outcome (s : Scene) :
  let (s', r) := setup_camera s in
  exists o,
    camera_objects s' = [o] /\ ob_selected o = true /\
    active_object s' = Some (ob_name o) /\
    scene_camera s' = Some (ob_name o) /\
    match r with
    | Ok camera =>
        camera = ob_name o /\
        pixel_aspect_x s' = 1%Q /\ pixel_aspect_y s' = 1%Q /\
        exists c,
          find (fun c => String.eqb (cam_name c) camera) (cameras s') = Some c /\
          cam_type c = "ORTHO" /\ cam_ortho_scale c = 6%Q
    | Raise e =>
        e = KeyError (ob_name o) /\
        taken (map cam_name (cameras s')) (ob_name o) = false
    end.
Proof.
  rewrite setup_camera_run. cbv zeta.
  pose proof (with_camera_objects s) as Hone.
  assert (Hraise : forall i : option nat,
    Bake.find_index (fun c => String.eqb (cam_name c) (new_object_name s))
      (cameras (cleared s) ++ [new_data s]) = None ->
    taken (map cam_name (cameras (with_camera s))) (new_object_name s) = false).
  { intros _ Hi. apply find_index_None in Hi.
    change (cameras (with_camera s)) with (cameras (cleared s) ++ [new_data s]).
    now rewrite taken_existsb. }
  destruct (Bake.find_index _ _) as [i|] eqn:Hi.
  - destruct (find_index_Some _ _ _ Hi) as (c & Hc & Hpc). rewrite Hc.
    edestruct (find_index_insert _ _ i
                 (set_ortho_scale 6 (set_camera_type "ORTHO" c)) Hi) as (_ & Hf & _).
    { exact Hpc. }
    exists (new_object s). repeat split; try reflexivity.
    + exact Hone.
    + eexists. split; [exact Hf|]. now split.
  - exists (new_object s). repeat split; try reflexivity.
    + exact Hone.
    + now apply (Hraise None).
Qed.

Lemma unique_name_free (base : string) (names : list string) :
  taken names base = false -> unique_name base names = base.
Proof. unfold unique_name. now intros ->. Qed.

Lemma find_index_last {A} (p : A -> bool) (l : list A) (x : A) :
  existsb p l = false -> p x = true ->
  Bake.find_index p (l ++ [x]) = Some (length l).
Proof.
  intros Hl Hx. induction l as [|y l IH]; cbn in *.
  - now rewrite Hx.
  - apply orb_false_iff in Hl. destruct Hl as [-> Hl]. now rewrite (IH Hl).
Qed.

Lemma find_last {A} (p : A -> bool) (l : list A) (x : A) :
  existsb p l = false -> p x = true -> find p (l ++ [x]) = Some x.
Proof.
  intros Hl Hx. induction l as [|y l IH]; cbn in *.
  - now rewrite Hx.
  - apply orb_false_iff in Hl. destruct Hl as [-> Hl]. now apply IH.
Qed.

Lemma cleared_objects_named (s : Scene) :
  Forall (fun o => ob_type o = "CAMERA" \/ ob_name o <> "Camera") (objects s) ->
  taken (map ob_name (objects (cleared s))) "Camera" = false.
Proof.
  unfold cleared, taken. cbn [objects set_cameras keep_objects set_scene_camera set_active_object set_objects].
  induction 1 as [|o l Ho _ IH]; [reflexivity|].
  cbn [map List.filter set_selected ob_selected].
  destruct (String.eqb (ob_type o) "CAMERA") eqn:E; cbn [negb]; [exact IH|].
  cbn [map existsb ob_name set_selected]. rewrite IH.
  destruct Ho as [Ho|Ho].
  - rewrite Ho in E. discriminate.
  - apply not_eq_sym, String.eqb_neq in Ho. now rewrite Ho.
Qed.

Lemma cleared_cameras_named (s : Scene) :
  Forall (fun c => cam_other_users c = 0%nat \/ cam_name c <> "Camera") (cameras s) ->
  taken (map cam_name (cameras (cleared s))) "Camera" = false.
Proof.
  intros H. unfold cleared.
  set (s1 := keep_objects _ _).
  assert (Hno : forall c, camera_users c s1 = cam_other_users c).
  { intros c. unfold camera_users, users_of.
    replace (List.filter _ (objects s1)) with (@nil Object); [reflexivity|].
    symmetry. pose proof (cleared_has_no_camera s) as Hc.
    unfold camera_objects, cleared in Hc. fold s1 in Hc.
    change (objects (set_cameras _ s1)) with (objects s1) in Hc.
    induction (objects s1) as [|o l IH]; [reflexivity|].
    cbn [List.filter] in *. destruct (String.eqb (ob_type o) "CAMERA"); [discriminate|].
    cbn [andb]. now apply IH. }
  cbn [cameras set_cameras]. change (cameras s1) with (cameras s).
  unfold taken. induction H as [|c l Hc _ IH]; [reflexivity|].
  cbn [List.filter]. rewrite Hno.
  destruct (Nat.eqb (cam_other_users c) 0) eqn:E; cbn [negb]; [exact IH|].
  cbn [map existsb]. rewrite IH. destruct Hc as [Hc|Hc].
  - rewrite Hc in E. discriminate.
  - apply not_eq_sym, String.eqb_neq in Hc. now rewrite Hc.
Qed.

(** X17: in a scene where the host can name both the new object and its
    data [Camera], [setup_camera] returns ["Camera"], and the data the
    new camera object uses is orthographic with scale 6. *)
Theorem setup_camera_configures_own_data (s : Scene) :
  camera_name_free s ->
  exists s' o c,
    setup_camera s = (s', Ok "Camera") /\
    camera_objects s' = [o] /\ ob_name o = "Camera" /\
    camera_data_of o s' = Some c /\
    cam_type c = "ORTHO" /\ cam_ortho_scale c = 6%Q.
Proof.
  intros [Hobjects Hcameras].
  pose proof (cleared_objects_named s Hobjects) as Hon.
  pose proof (cleared_cameras_named s Hcameras) as Hdn.
  assert (Eon : new_object_name s = "Camera") by now apply unique_name_free.
  assert (Edn : new_data_name s = "Camera") by now apply unique_name_free.
  assert (Hnone : existsb (fun c => String.eqb (cam_name c) "Camera")
                    (cameras (cleared s)) = false).
  { now rewrite <- taken_existsb. }
  rewrite setup_camera_run. cbv zeta. rewrite Eon.
  rewrite (find_index_last _ _ (new_data s) Hnone)
    by (cbn; now rewrite Edn).
  rewrite lookup_app_r, Nat.sub_diag by lia. cbn [lookup list_lookup].
  rewrite insert_app_r_alt, Nat.sub_diag by lia. cbn [insert list_insert].
  do 3 eexists. split; [reflexivity|].
  split; [apply with_camera_objects|].
  split; [exact Eon|].
  unfold camera_data_of. cbn [cameras set_pixel_aspect set_cameras ob_data new_object].
  rewrite Edn. split.
  - apply find_last; [exact Hnone|]. cbn. now rewrite Edn.
  - now split.
Qed.

Lemma setup_camera_configures_own_data_witness :
  exists s' o c,
    setup_camera MoreDemo.reshoot = (s', Ok "Camera") /\
    camera_objects s' = [o] /\ ob_name o = "Camera" /\
    camera_data_of o s' = Some c /\
    cam_type c = "ORTHO" /\ cam_ortho_scale c = 6%Q.
Proof.
  apply (setup_camera_configures_own_data MoreDemo.reshoot).
  split.
  - constructor; [right; discriminate|].
    constructor; [left; reflexivity|]. constructor.
  - constructor; [left; reflexivity|]. constructor.
Defined.

(** *** [cleanup] *)

Lemma update_object_keys (name : string) (f : Object -> Object) :
  (forall o, ob_name (f o) = ob_name o /\ ob_type (f o) = ob_type o) ->
  keeps object_keys (update_object name f).
Proof.
  intros Hf. apply keeps_modify. intros s. unfold object_keys.
  cbn [objects set_objects]. rewrite map_map. apply map_ext. intros o.
  destruct (String.eqb (ob_name o) name); [|reflexivity].
  now destruct (Hf o) as [-> ->].
Qed.

Lemma update_object_node_groups (name : string) (f : Object -> Object) :
  keeps node_groups (update_object name f).
Proof. apply keeps_modify. reflexivity. Qed.

Lemma unflatten_keys (name : string) : keeps object_keys (unflatten name).
Proof.
  unfold unflatten, remove_first_driver, object_named.
  keeps_auto; apply update_object_keys; intros o; now split.
Qed.

Lemma unflatten_node_groups (name : string) : keeps node_groups (unflatten name).
Proof.
  unfold unflatten, remove_first_driver, object_named.
  keeps_auto; apply update_object_node_groups.
Qed.

(** The run of [cleanup], in terms of the loop over the meshes. *)
Lemma cleanup_run (s : Scene) :
  cleanup s =
    match for_each
            (map ob_name
               (List.filter (fun obj => String.eqb (ob_type obj) "MESH")
                  (objects (stripped s))))
            unflatten (stripped s) with
    | (s1, Ok _) =>
        if taken (node_groups s1) ".Geometry Nodes"
        then (set_node_groups (remove_first ".Geometry Nodes" (node_groups s1)) s1, Ok tt)
        else (s1, Raise (KeyError ".Geometry Nodes"))
    | (s1, Raise e) => (s1, Raise e)
    end.
Proof.
  unfold cleanup, purge_meshes, purge_cameras.
  do 5 (rewrite bind_run; cbn [modify]).
  fold (stripped s). rewrite bind_run. cbn [get]. rewrite bind_run.
  destruct (for_each _ _ _) as [s1 [[]|e]]; [|reflexivity].
  run_pure. now destruct (taken (node_groups s1) ".Geometry Nodes").
Qed.

Lemma stripped_objects (s : Scene) :
  objects (stripped s) =
    map (set_selected false) (List.filter (fun o => negb (is_rig_object o)) (objects s)).
Proof.
  unfold stripped. cbn [objects set_cameras set_meshes keep_objects set_scene_camera set_active_object set_objects].
  induction (objects s) as [|o l IH]; [reflexivity|].
  cbn [map List.filter]. unfold is_rig_object at 1.
  cbn [set_selected ob_type ob_name].
  destruct (String.eqb (ob_type o) "CAMERA"); cbn [negb orb List.filter]; [exact IH|].
  cbn [set_selected ob_type ob_name].
  destruct (Str.contains "fillerplane" (ob_name o)); cbn [negb map]; [exact IH|].
  now rewrite IH.
Qed.

(** X18: however [cleanup] ends, the objects left are, by name and type
    and in order, those of the scene that are neither cameras nor named
    after the filler plane. *)
Theorem cleanup_removes_the_rig_objects (s : Scene) :
  object_keys (fst (cleanup s)) =
    map (fun o => (ob_name o, ob_type o))
        (List.filter (fun o => negb (is_rig_object o)) (objects s)).
Proof.
  rewrite cleanup_run.
  set (names := map ob_name _).
  pose proof (keeps_for_each object_keys names unflatten unflatten_keys (stripped s)) as Hk.
  assert (Hs : object_keys (stripped s) =
               map (fun o => (ob_name o, ob_type o))
                   (List.filter (fun o => negb (is_rig_object o)) (objects s))).
  { unfold object_keys. rewrite stripped_objects, map_map. reflexivity. }
  destruct (for_each names unflatten (stripped s)) as [s1 [[]|e]]; cbn [fst] in *.
  - destruct (taken (node_groups s1) ".Geometry Nodes"); cbn [fst].
    + change (object_keys (set_node_groups _ s1)) with (object_keys s1). congruence.
    + congruence.
  - congruence.
Qed.

(** X19: [cleanup] returns only if the node-graph asset was loaded, and
    then it has removed it; when it raises, the loaded node groups are
    as they were. *)
Theorem cleanup_needs_the_asset (s : Scene) :
  match cleanup s with
  | (s', Ok _) =>
      taken (node_groups s) ".Geometry Nodes" = true /\
      node_groups s' = remove_first ".Geometry Nodes" (node_groups s)
  | (s', Raise _) => node_groups s' = node_groups s
  end.
Proof.
  rewrite cleanup_run.
  set (names := map ob_name _).
  pose proof (keeps_for_each node_groups names unflatten unflatten_node_groups (stripped s)) as Hk.
  change (node_groups (stripped s)) with (node_groups s) in Hk.
  destruct (for_each names unflatten (stripped s)) as [s1 [[]|e]]; cbn [fst] in *.
  - destruct (taken (node_groups s1) ".Geometry Nodes") eqn:E.
    + cbn. now rewrite <- Hk.
    + exact Hk.
  - exact Hk.
Qed.

(** *** The loop over the meshes *)

Lemma find_named_update (name : string) (f : Object -> Object) (l : list Object) :
  (forall x, ob_name (f x) = ob_name x) ->
  find (fun o => String.eqb (ob_name o) name)
       (map (fun o => if String.eqb (ob_name o) name then f o else o) l) =
  option_map f (find (fun o => String.eqb (ob_name o) name) l).
Proof.
  intros Hf. induction l as [|x l IH]; [reflexivity|]. cbn [map find].
  destruct (String.eqb (ob_name x) name) eqn:E.
  - now rewrite Hf, E.
  - now rewrite E.
Qed.

Lemma find_named_other (name other : string) (f : Object -> Object) (l : list Object) :
  (forall x, ob_name (f x) = ob_name x) -> other <> name ->
  find (fun o => String.eqb (ob_name o) other)
       (map (fun o => if String.eqb (ob_name o) name then f o else o) l) =
  find (fun o => String.eqb (ob_name o) other) l.
Proof.
  intros Hf Hne. induction l as [|x l IH]; [reflexivity|]. cbn [map find].
  destruct (String.eqb (ob_name x) name) eqn:E.
  - rewrite Hf. apply String.eqb_eq in E. rewrite E.
    apply not_eq_sym, String.eqb_neq in Hne. rewrite Hne. exact IH.
  - destruct (String.eqb (ob_name x) other); [reflexivity|exact IH].
Qed.

Lemma names_after_update (name : string) (f : Object -> Object) (l : list Object) :
  (forall x, ob_name (f x) = ob_name x) ->
  map ob_name (map (fun o => if String.eqb (ob_name o) name then f o else o) l) =
  map ob_name l.
Proof.
  intros Hf. rewrite map_map. apply map_ext. intros x.
  destruct (String.eqb (ob_name x) name); [apply Hf|reflexivity].
Qed.

Lemma update_object_run (name : string) (f : Object -> Object) (s : Scene) :
  update_object name f s =
    (set_objects
       (map (fun o => if String.eqb (ob_name o) name then f o else o) (objects s)) s,
     Ok tt).
Proof. reflexivity. Qed.

Lemma remove_first_driver_run (name : string) (s : Scene) (o : Object) :
  find (fun x => String.eqb (ob_name x) name) (objects s) = Some o ->
  remove_first_driver name s =
    match ob_drivers o with
    | None => (s, Raise AttributeError)
    | Some [] => (s, Raise IndexError)
    | Some (_ :: rest) =>
        (set_objects
           (map (fun x => if String.eqb (ob_name x) name
                          then {| ob_name := ob_name x; ob_type := ob_type x;
                                  ob_data := ob_data x; ob_selected := ob_selected x;
                                  ob_modifiers := ob_modifiers x;
                                  ob_drivers := Some rest; ob_scale := ob_scale x |}
                          else x) (objects s)) s,
         Ok tt)
    end.
Proof.
  intros Hfind. unfold remove_first_driver, object_named. run_pure.
  rewrite Hfind. cbn [expect ret].
  now destruct (ob_drivers o) as [[|d rest]|].
Qed.

Lemma set_objects_twice (l1 l2 : list Object) (s : Scene) :
  set_objects l2 (set_objects l1 s) = set_objects l2 s.
Proof. reflexivity. Qed.

(** [unflatten] on an object that is not flattened, or that has its two
    drivers. *)
Lemma unflatten_ok (name : string) (s : Scene) (o : Object) :
  find (fun x => String.eqb (ob_name x) name) (objects s) = Some o ->
  taken (ob_modifiers o) "Flattener" = false \/ has_two_drivers o = true ->
  unflatten name s =
    ((if taken (ob_modifiers o) "Flattener"
      then set_objects
             (map (fun x => if String.eqb (ob_name x) name
                            then unflattened_with (drop 2 (default [] (ob_drivers o))) x
                            else x) (objects s)) s
      else s), Ok tt).
Proof.
  intros Hfind Hok. unfold unflatten, object_named. run_pure.
  rewrite Hfind. cbn [expect ret].
  destruct (taken (ob_modifiers o) "Flattener") eqn:Eflat; [|reflexivity].
  destruct Hok as [Hok|Hok]; [discriminate|].
  unfold has_two_drivers in Hok.
  destruct (ob_drivers o) as [[|d1 [|d2 rest]]|] eqn:Ed; try discriminate.
  rewrite bind_run, update_object_run.
  rewrite bind_run.
  erewrite remove_first_driver_run.
  2:{ cbn [objects set_objects]. rewrite find_named_update by reflexivity.
      rewrite Hfind. reflexivity. }
  cbn [ob_drivers]. rewrite Ed.
  rewrite bind_run.
  erewrite remove_first_driver_run.
  2:{ cbn [objects set_objects]. rewrite !find_named_update by reflexivity.
      rewrite Hfind. reflexivity. }
  assert (En : String.eqb (ob_name o) name = true).
  { apply find_some in Hfind. apply Hfind. }
  cbn [ob_drivers option_map].
  rewrite update_object_run. cbn [objects set_objects]. rewrite !set_objects_twice.
  rewrite !map_map. f_equal. f_equal. apply map_ext. intros x.
  cbv beta.
  destruct (String.eqb (ob_name x) name) eqn:Ex; cbn; repeat (rewrite Ex; cbn); reflexivity.
Qed.

(** [unflatten] on a flattened object that lacks a driver. *)
Lemma unflatten_raises (name : string) (s : Scene) (o : Object) :
  find (fun x => String.eqb (ob_name x) name) (objects s) = Some o ->
  taken (ob_modifiers o) "Flattener" = true -> has_two_drivers o = false ->
  exists s', unflatten name s =
    (s', Raise (match ob_drivers o with None => AttributeError | Some _ => IndexError end)).
Proof.
  intros Hfind Eflat Htwo. unfold unflatten, object_named. run_pure.
  rewrite Hfind. cbn [expect ret]. rewrite Eflat.
  unfold has_two_drivers in Htwo.
  assert (En : String.eqb (ob_name o) name = true).
  { apply find_some in Hfind. apply Hfind. }
  rewrite bind_run, update_object_run, bind_run.
  erewrite remove_first_driver_run.
  2:{ cbn [objects set_objects]. rewrite find_named_update by reflexivity.
      rewrite Hfind. reflexivity. }
  cbn [ob_drivers].
  destruct (ob_drivers o) as [[|d1 [|d2 rest]]|] eqn:Ed; try discriminate.
  - eexists. reflexivity.
  - rewrite bind_run. erewrite remove_first_driver_run.
    2:{ cbn [objects set_objects]. rewrite !find_named_update by reflexivity.
        rewrite Hfind. reflexivity. }
    cbn [ob_drivers]. eexists. reflexivity.
  - eexists. reflexivity.
Qed.

Lemma taken_In (names : list string) (name : string) :
  taken names name = true <-> In name names.
Proof.
  unfold taken. rewrite existsb_exists. split.
  - intros (x & Hx & E). apply String.eqb_eq in E. now subst.
  - intros H. exists name. split; [exact H|apply String.eqb_refl].
Qed.

Lemma taken_not_In (names : list string) (name : string) :
  ~ In name names -> taken names name = false.
Proof.
  intros H. destruct (taken names name) eqn:E; [|reflexivity].
  now apply taken_In in E.
Qed.

Lemma find_named (name : string) (l : list Object) :
  In name (map ob_name l) ->
  exists o, find (fun x => String.eqb (ob_name x) name) l = Some o /\
            In o l /\ ob_name o = name.
Proof.
  intros H. destruct (find (fun x => String.eqb (ob_name x) name) l) as [o|] eqn:E.
  - exists o. apply find_some in E. destruct E as [Hin Hn].
    apply String.eqb_eq in Hn. auto.
  - exfalso. apply in_map_iff in H. destruct H as (x & Hx & Hin).
    apply (find_none _ _ E) in Hin. cbn in Hin.
    rewrite Hx, String.eqb_refl in Hin. discriminate.
Qed.

Lemma same_name_same_object (l : list Object) (x y : Object) :
  List.NoDup (map ob_name l) -> In x l -> In y l -> ob_name x = ob_name y -> x = y.
Proof.
  induction l as [|z l IH]; cbn [map]; intros Hnd Hx Hy E; [destruct Hx|].
  apply NoDup_cons_iff in Hnd. destruct Hnd as [Hz Hnd].
  destruct Hx as [->|Hx], Hy as [->|Hy]; auto.
  - exfalso. apply Hz. rewrite E. now apply in_map.
  - exfalso. apply Hz. rewrite <- E. now apply in_map.
Qed.

(** The loop either restores every flattened object it names, or stops
    at one that lacks a driver. *)
Lemma unflatten_all (names : list string) : forall s : Scene,
  List.NoDup names -> List.NoDup (map ob_name (objects s)) ->
  (forall n, In n names -> In n (map ob_name (objects s))) ->
  (Forall (drivers_in_place names) (objects s) /\
   for_each names unflatten s =
     (set_objects (map (restored names) (objects s)) s, Ok tt))
  \/
  (~ Forall (drivers_in_place names) (objects s) /\
   exists s' e, for_each names unflatten s = (s', Raise e) /\
                (e = AttributeError \/ e = IndexError)).
Proof.
  induction names as [|n names IH]; intros s Hnames Hobjects Hin.
  - left. split.
    + apply Forall_forall. intros o _ [].
    + rewrite (map_ext (restored []) (fun x => x)) by reflexivity.
      now rewrite map_id, set_objects_same.
  - apply NoDup_cons_iff in Hnames. destruct Hnames as [Hn Hnames].
    destruct (find_named n (objects s)) as (o & Hfind & Ho & Hon);
      [apply Hin; now left|].
    assert (Hsame : forall x, In x (objects s) -> ob_name x = n -> x = o).
    { intros x Hx E. apply (same_name_same_object (objects s)); congruence. }
    cbn [for_each]. rewrite bind_run.
    destruct (taken (ob_modifiers o) "Flattener" && negb (has_two_drivers o)) eqn:Ebad.
    + (* the object lacks a driver *)
      apply andb_true_iff in Ebad. destruct Ebad as [Eflat Etwo].
      apply negb_true_iff in Etwo. right. split.
      * intros Hall. rewrite Forall_forall in Hall.
        apply list_elem_of_In in Ho. specialize (Hall o Ho).
        unfold drivers_in_place in Hall. rewrite Hon in Hall.
        rewrite Hall in Etwo; [discriminate|now left|exact Eflat].
      * destruct (unflatten_raises n s o Hfind Eflat Etwo) as (s' & ->).
        do 2 eexists. split; [reflexivity|]. destruct (ob_drivers o); auto.
    + (* the object is restored, or left alone *)
      set (F := fun x : Object =>
                  if taken (ob_modifiers o) "Flattener"
                  then unflattened_with (drop 2 (default [] (ob_drivers o))) x
                  else x).
      assert (HF : forall x, ob_name (F x) = ob_name x).
      { intros x. unfold F. now destruct (taken (ob_modifiers o) "Flattener"). }
      assert (Hrun : unflatten n s =
                (set_objects
                   (map (fun x => if String.eqb (ob_name x) n then F x else x)
                        (objects s)) s, Ok tt)).
      { rewrite (unflatten_ok n s o Hfind).
        2:{ destruct (taken (ob_modifiers o) "Flattener"); [|now left].
            right. now apply negb_false_iff in Ebad. }
        unfold F. destruct (taken (ob_modifiers o) "Flattener"); [reflexivity|].
        f_equal. rewrite (map_ext _ (fun x => x)).
        - rewrite map_id. symmetry. apply set_objects_same.
        - intros x. now destruct (String.eqb (ob_name x) n). }
      rewrite Hrun.
      set (s1 := set_objects _ s).
      assert (Hnames1 : map ob_name (objects s1) = map ob_name (objects s)).
      { subst s1. cbn [objects set_objects]. now apply names_after_update. }
      assert (Hnd1 : List.NoDup (map ob_name (objects s1))) by now rewrite Hnames1.
      assert (Hin1 : forall m, In m names -> In m (map ob_name (objects s1))).
      { intros m Hm. rewrite Hnames1. apply Hin. now right. }
      destruct (IH s1 Hnames Hnd1 Hin1) as [[Hall Hloop]|[Hnot Hloop]].
      * left. split.
        -- apply Forall_forall. intros x Hx Hxn Hflat.
           apply list_elem_of_In in Hx.
           destruct (String.eqb (ob_name x) n) eqn:Ex.
           ++ apply String.eqb_eq in Ex. rewrite (Hsame x Hx Ex) in *.
              rewrite Hflat in Ebad. now apply negb_false_iff in Ebad.
           ++ rewrite Forall_forall in Hall. apply (Hall x).
              ** apply list_elem_of_In. subst s1. cbn [objects set_objects].
                 apply in_map_iff. exists x. now rewrite Ex.
              ** destruct Hxn as [Hxn|Hxn]; [|exact Hxn].
                 apply String.eqb_neq in Ex. congruence.
              ** exact Hflat.
        -- rewrite Hloop. subst s1. cbn [objects set_objects].
           rewrite set_objects_twice, map_map. f_equal. f_equal.
           apply map_ext_in. intros x Hx. unfold restored.
           destruct (String.eqb (ob_name x) n) eqn:Ex.
           ++ apply String.eqb_eq in Ex. rewrite (Hsame x Hx Ex) in *.
              rewrite HF, Hon, (taken_not_In names n Hn). cbn [andb].
              replace (taken (n :: names) n) with true
                by (symmetry; apply taken_In; now left).
              cbn [andb]. reflexivity.
           ++ change (taken (n :: names) (ob_name x))
                with (String.eqb (ob_name x) n || taken names (ob_name x)).
              now rewrite Ex.
      * right. split; [|exact Hloop].
        intros Hall. apply Hnot. rewrite Forall_forall in *.
        intros y Hy. apply list_elem_of_In in Hy. subst s1.
        cbn [objects set_objects] in Hy. apply in_map_iff in Hy.
        destruct Hy as (x & <- & Hx).
        destruct (String.eqb (ob_name x) n) eqn:Ex.
        -- intros Hyn. rewrite HF in Hyn. apply String.eqb_eq in Ex.
           rewrite Ex in Hyn. contradiction.
        -- intros Hxn. apply list_elem_of_In in Hx. apply (Hall x Hx). now right.
Qed.

Lemma NoDup_map_filter {A B} (f : A -> B) (p : A -> bool) (l : list A) :
  List.NoDup (map f l) -> List.NoDup (map f (List.filter p l)).
Proof.
  induction l as [|x l IH]; cbn [map List.filter]; intros H; [exact H|].
  apply NoDup_cons_iff in H. destruct H as [Hx H].
  destruct (p x); [|now apply IH]. cbn [map]. apply NoDup_cons_iff. split; [|now apply IH].
  intros Hin. apply Hx. apply in_map_iff in Hin. destruct Hin as (y & Hy & Hin).
  apply filter_In in Hin. apply in_map_iff. exists y. tauto.
Qed.

Lemma stripped_names (s : Scene) :
  List.NoDup (map ob_name (objects s)) ->
  List.NoDup (map ob_name (objects (stripped s))).
Proof.
  intros H. rewrite stripped_objects, map_map.
  change (fun x => ob_name (set_selected false x)) with ob_name.
  now apply NoDup_map_filter.
Qed.

(** Among objects with unique names, the names of the meshes single out
    the meshes. *)
Lemma mesh_names_single_out (l : list Object) (x : Object) :
  List.NoDup (map ob_name l) -> In x l ->
  taken (map ob_name (List.filter (fun o => String.eqb (ob_type o) "MESH") l)) (ob_name x) =
  String.eqb (ob_type x) "MESH".
Proof.
  intros Hnd Hx. destruct (String.eqb (ob_type x) "MESH") eqn:E.
  - apply taken_In, in_map, filter_In. now split.
  - apply taken_not_In. intros Hin. apply in_map_iff in Hin.
    destruct Hin as (y & Hy & Hin). apply filter_In in Hin. destruct Hin as [Hin Hty].
    rewrite (same_name_same_object l y x Hnd Hin Hx Hy) in Hty. congruence.
Qed.

(** The run of [cleanup] on a scene whose objects have unique names. *)
Lemma cleanup_closed_form (s : Scene) :
  List.NoDup (map ob_name (objects s)) ->
  (existsb lacks_drivers (objects s) = false /\
   cleanup s =
     if taken (node_groups s) ".Geometry Nodes"
     then (cleaned s, Ok tt)
     else (set_objects (objects (cleaned s)) (stripped s),
           Raise (KeyError ".Geometry Nodes")))
  \/
  (existsb lacks_drivers (objects s) = true /\
   exists s' e, cleanup s = (s', Raise e) /\ (e = AttributeError \/ e = IndexError)).
Proof.
  intros Hnd. rewrite cleanup_run.
  pose proof (stripped_names s Hnd) as HndL.
  pose proof (stripped_objects s) as HL.
  set (L := objects (stripped s)) in *.
  set (names := map ob_name (List.filter (fun obj => String.eqb (ob_type obj) "MESH") L)).
  assert (Hnames : List.NoDup names) by now apply NoDup_map_filter.
  assert (Hin : forall n, In n names -> In n (map ob_name L)).
  { intros n H. apply in_map_iff in H. destruct H as (y & Hy & H).
    apply filter_In in H. apply in_map_iff. exists y. tauto. }
  assert (Hall : Forall (drivers_in_place names) L <->
                 existsb lacks_drivers (objects s) = false).
  { rewrite Forall_forall. split.
    - intros H. destruct (existsb lacks_drivers (objects s)) eqn:E; [|reflexivity].
      apply existsb_exists in E. destruct E as (o & Ho & Hlack).
      unfold lacks_drivers in Hlack.
      apply andb_true_iff in Hlack. destruct Hlack as [Hlack Htwo].
      apply andb_true_iff in Hlack. destruct Hlack as [Hkeep Hflat].
      unfold flattened in Hflat. apply andb_true_iff in Hflat.
      destruct Hflat as [Hty Hmod].
      assert (HoL : In (set_selected false o) L).
      { rewrite HL. apply in_map, filter_In. now split. }
      specialize (H (set_selected false o) (proj2 (list_elem_of_In _ _) HoL)).
      unfold drivers_in_place in H. apply negb_true_iff in Htwo.
      rewrite <- Htwo. symmetry. apply H; [|exact Hmod].
      apply taken_In. unfold names. rewrite (mesh_names_single_out L _ HndL HoL).
      exact Hty.
    - intros E y Hy Hyn Hmod. apply list_elem_of_In in Hy.
      pose proof Hy as HyL. rewrite HL in Hy. apply in_map_iff in Hy.
      destruct Hy as (o & <- & Ho). apply filter_In in Ho. destruct Ho as [Ho Hkeep].
      apply taken_In in Hyn. unfold names in Hyn.
      rewrite (mesh_names_single_out L _ HndL HyL) in Hyn.
      destruct (has_two_drivers (set_selected false o)) eqn:Htwo; [reflexivity|].
      exfalso. assert (Hex : existsb lacks_drivers (objects s) = true).
      { apply existsb_exists. exists o. split; [exact Ho|].
        unfold lacks_drivers, flattened. rewrite Hkeep.
        cbn [set_selected ob_type ob_modifiers] in Hyn, Hmod. rewrite Hyn, Hmod.
        unfold has_two_drivers in *. cbn [set_selected ob_drivers] in Htwo.
        now rewrite Htwo. }
      congruence. }
  destruct (unflatten_all names (stripped s) Hnames HndL Hin) as [[HF Hloop]|[HnF Hloop]].
  - left. split; [now apply Hall|]. rewrite Hloop.
    change (node_groups (set_objects _ (stripped s))) with (node_groups s).
    assert (Hobjs : map (restored names) (objects (stripped s)) = objects (cleaned s)).
    { unfold cleaned. cbn [objects set_node_groups set_objects].
      fold L. rewrite <- (map_map (set_selected false) unflattened), <- HL.
      apply map_ext_in. intros x Hx. unfold restored, unflattened, flattened, names.
      now rewrite (mesh_names_single_out L x HndL Hx). }
    rewrite Hobjs.
    destruct (taken (node_groups s) ".Geometry Nodes"); [|reflexivity].
    reflexivity.
  - right. split.
    + destruct (existsb lacks_drivers (objects s)) eqn:E; [reflexivity|].
      exfalso. apply HnF. now apply Hall.
    + destruct Hloop as (s' & e & -> & He). now exists s', e.
Qed.

(** X20: the ways [cleanup] ends on a scene whose objects have unique
    names.  It returns exactly when every flattened mesh that is not a
    rig object has two drivers and the node-graph asset is loaded; it
    raises [AttributeError] or [IndexError] when such a mesh lacks a
    driver, and [KeyError] when only the asset is missing. *)
Theorem cleanup_ends_by_cause (s : Scene) :
  List.NoDup (map ob_name (objects s)) ->
  match snd (cleanup s) with
  | Ok _ =>
      existsb lacks_drivers (objects s) = false /\
      taken (node_groups s) ".Geometry Nodes" = true
  | Raise e =>
      (existsb lacks_drivers (objects s) = true /\
       (e = AttributeError \/ e = IndexError)) \/
      (existsb lacks_drivers (objects s) = false /\
       taken (node_groups s) ".Geometry Nodes" = false /\
       e = KeyError ".Geometry Nodes")
  end.
Proof.
  intros Hnd.
  destruct (cleanup_closed_form s Hnd) as [[Hok ->]|[Hbad (s' & e & -> & He)]].
  - destruct (taken (node_groups s) ".Geometry Nodes"); cbn [snd]; auto.
  - cbn [snd]. auto.
Qed.

Lemma rigged_names_unique : List.NoDup (map ob_name (objects MoreDemo.rigged)).
Proof.
  cbn. repeat (apply List.NoDup_cons; [cbn; intuition discriminate|]).
  apply List.NoDup_nil.
Qed.

Lemma cleanup_ends_by_cause_witness :
  match snd (cleanup MoreDemo.rigged) with
  | Ok _ =>
      existsb lacks_drivers (objects MoreDemo.rigged) = false /\
      taken (node_groups MoreDemo.rigged) ".Geometry Nodes" = true
  | Raise e =>
      (existsb lacks_drivers (objects MoreDemo.rigged) = true /\
       (e = AttributeError \/ e = IndexError)) \/
      (existsb lacks_drivers (objects MoreDemo.rigged) = false /\
       taken (node_groups MoreDemo.rigged) ".Geometry Nodes" = false /\
       e = KeyError ".Geometry Nodes")
  end.
Proof.
  apply (cleanup_ends_by_cause MoreDemo.rigged). exact rigged_names_unique.
Defined.

(** X21: when the objects have unique names, every flattened mesh that
    stays has its two drivers and the asset is loaded, [cleanup] returns
    and leaves the scene [cleaned]: cameras and filler planes gone,
    orphaned data purged, every object deselected, each flattened mesh
    without its first [Flattener] modifier and first two drivers and
    with scale (1, 1, 1), and the asset removed. *)
Theorem cleanup_restores_the_scene (s : Scene) :
  List.NoDup (map ob_name (objects s)) ->
  existsb lacks_drivers (objects s) = false ->
  taken (node_groups s) ".Geometry Nodes" = true ->
  cleanup s = (cleaned s, Ok tt).
Proof.
  intros Hnd Hok Hasset.
  destruct (cleanup_closed_form s Hnd) as [[_ ->]|[Hbad _]]; [|congruence].
  now rewrite Hasset.
Qed.

Lemma cleanup_restores_the_scene_witness :
  cleanup MoreDemo.rigged = (cleaned MoreDemo.rigged, Ok tt).
Proof.
  apply (cleanup_restores_the_scene MoreDemo.rigged).
  - exact rigged_names_unique.
  - reflexivity.
  - reflexivity.
Defined.

Lemma remove_first_unique (name : string) (l : list string) :
  List.NoDup l -> taken (remove_first name l) name = false.
Proof.
  intros H. apply taken_not_In. induction l as [|x l IH]; cbn [remove_first]; [intros []|].
  apply NoDup_cons_iff in H. destruct H as [Hx H].
  destruct (String.eqb x name) eqn:E.
  - apply String.eqb_eq in E. now subst.
  - intros [->|Hin]; [now rewrite String.eqb_refl in E|now apply IH].
Qed.

Lemma cleaned_has_no_flattened (s : Scene) :
  Forall (fun o => List.NoDup (ob_modifiers o)) (objects s) ->
  existsb lacks_drivers (objects (cleaned s)) = false.
Proof.
  intros Hmods. unfold cleaned. cbn [objects set_node_groups set_objects].
  induction Hmods as [|o l Ho _ IH]; [reflexivity|]. cbn [List.filter].
  destruct (negb (is_rig_object o)); [|exact IH]. cbn [map existsb].
  rewrite IH, orb_false_r. unfold lacks_drivers, unflattened.
  destruct (flattened (set_selected false o)) eqn:E.
  - unfold flattened at 1. cbn [unflattened_with ob_modifiers set_selected ob_type].
    rewrite (remove_first_unique "Flattener" _ Ho). now rewrite andb_false_r, andb_false_r.
  - now rewrite E, andb_false_r.
Qed.

(** X22: [cleanup] cannot be run twice in a row.  When names are unique
    (objects, each object's modifiers, node groups) and a first run
    returned, a second run on the scene it left raises [KeyError] for
    the node-graph asset. *)
Theorem cleanup_twice_raises (s s' : Scene) :
  List.NoDup (map ob_name (objects s)) ->
  Forall (fun o => List.NoDup (ob_modifiers o)) (objects s) ->
  List.NoDup (node_groups s) ->
  cleanup s = (s', Ok tt) ->
  exists s'', cleanup s' = (s'', Raise (KeyError ".Geometry Nodes")).
Proof.
  intros Hnd Hmods Hgroups Hrun.
  assert (Hs' : s' = cleaned s).
  { destruct (cleanup_closed_form s Hnd) as [[_ E]|[_ (s1 & e & E & _)]];
      rewrite E in Hrun; [|discriminate].
    destruct (taken (node_groups s) ".Geometry Nodes"); now inversion Hrun. }
  subst s'.
  assert (Hnd' : List.NoDup (map ob_name (objects (cleaned s)))).
  { unfold cleaned. cbn [objects set_node_groups set_objects]. rewrite map_map.
    rewrite (map_ext _ ob_name).
    - now apply NoDup_map_filter.
    - intros o. unfold unflattened. now destruct (flattened (set_selected false o)). }
  destruct (cleanup_closed_form (cleaned s) Hnd') as [[_ ->]|[Hbad _]].
  - change (node_groups (cleaned s))
      with (remove_first ".Geometry Nodes" (node_groups s)).
    rewrite (remove_first_unique _ _ Hgroups). eexists. reflexivity.
  - rewrite (cleaned_has_no_flattened s Hmods) in Hbad. discriminate.
Qed.

Lemma cleanup_twice_raises_witness :
  exists s'', cleanup (cleaned MoreDemo.rigged) =
                (s'', Raise (KeyError ".Geometry Nodes")).
Proof.
  apply (cleanup_twice_raises MoreDemo.rigged (cleaned MoreDemo.rigged)).
  - exact rigged_names_unique.
  - repeat (apply List.Forall_cons;
            [cbn; repeat (apply List.NoDup_cons; [cbn; intuition discriminate|]);
             apply List.NoDup_nil|]).
    apply List.Forall_nil.
  - cbn. repeat (apply List.NoDup_cons; [cbn; intuition discriminate|]).
    apply List.NoDup_nil.
  - vm_compute. reflexivity.
Defined.

End MoreRigProofs.

(* ===================================================================== *)
(** ** More on the pipeline driver *)

Section MoreDriverProofs.
Import Driver.

(** X29: [execute] never raises and always leaves the viewport on
    ['SOLID'].  It returns [FINISHED] exactly when the pipeline returned,
    and then it reports nothing, leaves the scene as the pipeline left it
    and adds one log line, the elapsed time; when the pipeline raised it
    returns [CANCELLED]. *)
Theorem execute_status {W : Type}
    (pipeline : Py (Host W) unit) (elapsed : string) (h : Host W) :
  exists status,
    snd (execute pipeline elapsed h) = Ok status /\
    viewport_shading (fst (execute pipeline elapsed h)) = "SOLID" /\
    match pipeline h with
    | (h1, Ok _) =>
        status = FINISHED /\
        world (fst (execute pipeline elapsed h)) = world h1 /\
        reports (fst (execute pipeline elapsed h)) = reports h1 /\
        log (fst (execute pipeline elapsed h)) =
          log h1 ++ [(None, "Finished in " ++ elapsed ++ "s")%string]
    | (h1, Raise _) => status = CANCELLED
    end.
Proof.
  unfold execute, try_except. rewrite bind_run.
  destruct (pipeline h) as [h1 [[]|e]].
  - exists FINISHED. cbn. repeat split.
  - exists CANCELLED. cbn. repeat split.
Qed.

End MoreDriverProofs.

(* ===================================================================== *)
(** ** Rebinding the baked images *)

Section RebindProofs.
Import Rebind.

Variable version : nat.
Variable shader_dropdown : string.
Variable get_name : string.
Variable import_from_library_file : string -> string -> Py Scene unit.

#[warnings="-notation-for-abbreviation"]
Local Notation rebind_slot :=
  (Rebind.rebind_slot version shader_dropdown get_name import_from_library_file).
#[warnings="-notation-for-abbreviation"]
Local Notation rebind :=
  (Rebind.rebind version shader_dropdown get_name import_from_library_file).
#[warnings="-notation-for-abbreviation"]
Local Notation create_simple :=
  (Rebind.create_simple version shader_dropdown get_name import_from_library_file).

(** The dispatch of the loop body on the material found in the slot. *)
Lemma rebind_slot_run (bake_type : string) (i id : nat) (m : Material) (s : Scene) :
  slots s !! i = Some (Some id) -> materials s !! id = Some m ->
  rebind_slot bake_type i s =
    if Rig.taken (images s) (image_name m bake_type) then
      if mat_simple m then
        (textures_group <- textures_group_of id ;;
         set_node_image textures_group bake_type (image_name m bake_type)) s
      else if mat_bake m && Str.has_ORG (mat_name m) &&
              Rig.taken (map mat_name (materials s)) (Str.remove_ORG (mat_name m)) then
        (simple <- materials_by_name (Str.remove_ORG (mat_name m)) ;;
         modify (fun s => set_slots (<[i := Some simple]> (slots s)) s) ;;
         textures_group <- textures_group_of simple ;;
         set_node_image textures_group bake_type (image_name m bake_type)) s
      else if mat_bake m then
        create_simple i id bake_type (image_name m bake_type) s
      else (s, Ok tt)
    else (s, Ok tt).
Proof.
  intros Hslot Hm.
  unfold Rebind.rebind_slot, slot_material, material_at. run_pure.
  rewrite Hslot. cbn [expect ret]. run_pure. rewrite Hm. cbn [expect ret].
  run_pure. fold (image_name m bake_type).
  destruct (Rig.taken (images s) (image_name m bake_type)); [|reflexivity].
  destruct (mat_simple m); [reflexivity|].
  destruct (mat_bake m && Str.has_ORG (mat_name m) &&
            Rig.taken (map mat_name (materials s)) (Str.remove_ORG (mat_name m)));
    [reflexivity|].
  now destruct (mat_bake m).
Qed.

(** A slot for whose material no baked image is loaded is passed over. *)
Lemma rebind_slot_without_image (bake_type : string) (i id : nat) (m : Material) (s : Scene) :
  slots s !! i = Some (Some id) -> materials s !! id = Some m ->
  Rig.taken (images s) (image_name m bake_type) = false ->
  rebind_slot bake_type i s = (s, Ok tt).
Proof.
  intros Hslot Hm Himage.
  rewrite (rebind_slot_run bake_type i id m s Hslot Hm). now rewrite Himage.
Qed.

(** X23: when no image of any pass is loaded for the materials in the
    slots, the rebinding returns and changes nothing. *)
Theorem rebind_without_images_changes_nothing (s : Scene) :
  Forall (fun slot => exists id m,
            slot = Some id /\ materials s !! id = Some m /\
            forall bake_type, In bake_type bake_types ->
              Rig.taken (images s) (image_name m bake_type) = false)
         (slots s) ->
  rebind s = (s, Ok tt).
Proof.
  intros Hall. unfold Rebind.rebind. apply for_each_skips.
  intros bake_type Hbt. rewrite bind_run. cbn [get].
  unfold for_range. apply for_each_skips. intros i Hi.
  apply in_seq in Hi. destruct Hi as [_ Hi]. cbn in Hi.
  destruct (lookup_lt_is_Some_2 (slots s) i Hi) as [slot Hslot].
  rewrite Forall_forall in Hall.
  destruct (Hall slot) as (id & m & -> & Hm & Hno).
  { apply list_elem_of_lookup. now exists i. }
  apply (rebind_slot_without_image bake_type i id m s Hslot Hm).
  now apply Hno.
Qed.

(** *** Empty slots *)

Lemma for_each_hits {St A} (I : St -> Prop) (body : A -> Py St unit)
    (before : list A) (x : A) (after : list A) (s : St) :
  I s ->
  (forall y, In y before -> forall s, I s -> I (fst (body y s))) ->
  (forall s, I s -> exists s' e, body x s = (s', Raise e)) ->
  exists s' e, for_each (before ++ x :: after) body s = (s', Raise e).
Proof.
  intros Hs Hkeep Hhit. revert s Hs.
  induction before as [|y before IH]; intros s Hs; cbn [app for_each]; rewrite bind_run.
  - destruct (Hhit s Hs) as (s' & e & ->). now exists s', e.
  - pose proof (Hkeep y (or_introl eq_refl) s Hs) as Hy.
    destruct (body y s) as [s1 [[]|e]]; cbn [fst] in Hy.
    + apply IH; [|exact Hy]. intros z Hz. apply Hkeep. now right.
    + now exists s1, e.
Qed.


Lemma keeps_when {X} (proj : Scene -> X) (b : bool) (m : Py Scene unit) :
  keeps proj m -> keeps proj (when b m).
Proof. intros H. destruct b; [exact H|apply keeps_ret]. Qed.

(** The steps that leave the slots alone. *)
Ltac keeps_slots :=
  repeat first
    [ keeps_step
    | apply keeps_try_except; [|intros ?]
    | apply keeps_when
    | progress unfold update_material, material_at, group_at, materials_by_name,
        node_groups_by_name, textures_group_of, set_node_image, rename_material,
        rename_group, copy_material, copy_group, slot_material ].

Lemma replace_mat_other_slot (i j : nat) (simple : Block) :
  i <> j -> keeps (fun s => slots s !! i) (replace_mat version get_name j simple).
Proof.
  intros Hij. unfold replace_mat. keeps_slots.
  apply keeps_modify. intros s. cbn. now apply list_lookup_insert_ne.
Qed.

Lemma create_simple_other_slot (i j id : nat) (bake_type image : string) :
  (forall kind name, keeps (fun s => slots s !! i) (import_from_library_file kind name)) ->
  i <> j -> keeps (fun s => slots s !! i) (create_simple j id bake_type image).
Proof.
  intros Himport Hij. unfold Rebind.create_simple.
  keeps_slots; auto using replace_mat_other_slot.
Qed.

Lemma rebind_slot_other_slot (bake_type : string) (i j : nat) :
  (forall kind name, keeps (fun s => slots s !! i) (import_from_library_file kind name)) ->
  i <> j -> keeps (fun s => slots s !! i) (rebind_slot bake_type j).
Proof.
  intros Himport Hij. unfold Rebind.rebind_slot.
  keeps_slots; auto using create_simple_other_slot.
  apply keeps_modify. intros s. cbn. now apply list_lookup_insert_ne.
Qed.

(** X24: an object with an empty material slot cannot be rebound: the
    light pass reaches the slot, unless an earlier slot already failed,
    and reading the material's name raises. *)
Theorem rebind_stops_at_an_empty_slot (s : Scene) :
  (forall i kind name,
     keeps (fun s => slots s !! i) (import_from_library_file kind name)) ->
  In None (slots s) ->
  exists s' e, rebind s = (s', Raise e).
Proof.
  intros Himport Hin. apply list_elem_of_In, list_elem_of_lookup in Hin.
  destruct Hin as [i Hi].
  unfold Rebind.rebind. cbn [for_each]. rewrite bind_run, bind_run. cbn [get].
  assert (Hlt : (i < length (slots s))%nat) by (eapply lookup_lt_Some; exact Hi).
  assert (Hseq : seq 0 (length (slots s)) =
                 seq 0 i ++ i :: seq (S i) (length (slots s) - S i)).
  { replace (length (slots s)) with (i + S (length (slots s) - S i))%nat at 1 by lia.
    now rewrite seq_app. }
  unfold for_range. rewrite Hseq.
  destruct (for_each_hits (fun s => slots s !! i = Some None)
              (rebind_slot "light") (seq 0 i) i
              (seq (S i) (length (slots s) - S i)) s Hi) as (s' & e & ->).
  - intros j Hj s0 Hs0. apply in_seq in Hj.
    rewrite (rebind_slot_other_slot "light" i j (Himport i)) by lia. exact Hs0.
  - intros s0 Hs0. exists s0, AttributeError.
    unfold Rebind.rebind_slot, slot_material. run_pure. rewrite Hs0. reflexivity.
  - now exists s', e.
Qed.

(** *** The Eevee Mod shader *)

Lemma raises_bind_r {A B} (m : Py Scene A) (k : A -> Py Scene B) :
  (forall a, raises (k a)) -> raises (bind m k).
Proof.
  intros Hk s. rewrite bind_run. destruct (m s) as [s1 [a|e]].
  - apply Hk.
  - now exists s1, e.
Qed.

(** A node tree is not accepted by a material slot. *)
Lemma replace_mat_node_tree (i g : nat) :
  raises (replace_mat version get_name i (NodeTreeBlock g)).
Proof.
  unfold replace_mat. do 2 (apply raises_bind_r; intros ?).
  intros s. now exists s, TypeError.
Qed.

(** With the Eevee Mod shader selected, creating a simplified material
    always ends in a raise: the second [replace_mat] assigns the copied
    node tree to the slot. *)
Lemma create_simple_eevee_mod (i id : nat) (bake_type image : string) :
  shader_dropdown = "C" -> raises (create_simple i id bake_type image).
Proof.
  intros Hc. unfold Rebind.create_simple. rewrite Hc.
  repeat (apply raises_bind_r; intros ?).
  cbn [String.eqb Ascii.eqb Bool.eqb when].
  repeat (apply raises_bind_r; intros ?).
  first [apply replace_mat_node_tree | (do 2 eexists; reflexivity)].
Qed.

(** *** A new simplified material *)

Lemma update_material_ok (x : nat) (f : Material -> Material) (s s' : Scene) :
  update_material x f s = (s', Ok tt) ->
  exists m, materials s !! x = Some m /\
            s' = set_materials (<[x := f m]> (materials s)) s.
Proof.
  unfold update_material, material_at. run_pure.
  destruct (materials s !! x) as [m|]; cbn [expect ret raise]; [|discriminate].
  run_pure. intros [= <-]. now exists m.
Qed.

(** An update that leaves the textures node alone. *)
Lemma update_material_textures (x : nat) (f : Material -> Material) (s s' : Scene) :
  (forall m, mat_textures (f m) = mat_textures m) ->
  update_material x f s = (s', Ok tt) ->
  node_groups s' = node_groups s /\ slots s' = slots s /\
  forall y m0, materials s !! y = Some m0 ->
    exists m1, materials s' !! y = Some m1 /\ mat_textures m1 = mat_textures m0.
Proof.
  intros Hf Hrun. apply update_material_ok in Hrun. destruct Hrun as (m & Hm & ->).
  cbn [node_groups slots materials set_materials]. repeat split.
  intros y m0 Hy. destruct (decide (x = y)) as [<-|Hne].
  - exists (f m). rewrite list_lookup_insert_eq by (eapply lookup_lt_Some; exact Hm).
    split; [reflexivity|]. rewrite Hf. congruence.
  - exists m0. now rewrite list_lookup_insert_ne.
Qed.

Lemma find_insert_other {A} (p : A -> bool) (l : list A) (k : nat) (x y : A) :
  l !! k = Some y -> p y = false -> p x = false ->
  find p (<[k := x]> l) = find p l.
Proof.
  revert k. induction l as [|z l IH]; intros [|k]; cbn; try discriminate.
  - intros [= ->] Hy Hx. now rewrite Hx, Hy.
  - intros Hk Hy Hx. destruct (p z); [reflexivity|]. now apply IH.
Qed.

Lemma node_image_same_groups (s s' : Scene) (g : nat) (node : string) :
  node_groups s' = node_groups s -> node_image s' g node = node_image s g node.
Proof. unfold node_image. now intros ->. Qed.

Lemma set_node_image_ok (g : nat) (node image : string) (s s' : Scene) :
  set_node_image g node image s = (s', Ok tt) ->
  materials s' = materials s /\ slots s' = slots s /\
  node_image s' g node = Some image /\
  forall other, other <> node -> node_image s' g other = node_image s g other.
Proof.
  unfold set_node_image, group_at. run_pure.
  destruct (node_groups s !! g) as [grp|] eqn:Hg; cbn [expect ret raise]; [|discriminate].
  destruct (Bake.find_index _ (grp_nodes grp)) as [k|] eqn:Hk; [|discriminate].
  cbn [modify]. intros [= <-].
  assert (Hlt : (g < length (node_groups s))%nat) by (eapply lookup_lt_Some; exact Hg).
  unfold node_image. cbn [materials slots node_groups set_node_groups].
  rewrite list_lookup_insert_eq by exact Hlt. cbn [grp_nodes]. rewrite Hg.
  repeat split.
  - edestruct (find_index_insert (fun n : string * option string => String.eqb (fst n) node)
                 (grp_nodes grp) k (node, Some image) Hk) as (_ & -> & _).
    + apply String.eqb_refl.
    + reflexivity.
  - intros other Hne.
    destruct (find_index_Some _ _ _ Hk) as (y & Hy & Hpy). cbn beta in Hpy.
    rewrite (find_insert_other _ _ k (node, Some image) y Hy); [reflexivity| |].
    + apply String.eqb_eq in Hpy. rewrite Hpy. now apply String.eqb_neq, not_eq_sym.
    + cbn. now apply String.eqb_neq, not_eq_sym.
Qed.

(** What the first [replace_mat] leaves: the slot shows the new material,
    now tagged [simple], with the textures node it had. *)
Lemma replace_mat_ok (i new : nat) (s s' : Scene) :
  replace_mat version get_name i (MaterialBlock new) s = (s', Ok tt) ->
  node_groups s' = node_groups s /\
  slots s' !! i = Some (Some new) /\
  forall m0, materials s !! new = Some m0 ->
    exists m1, materials s' !! new = Some m1 /\ mat_simple m1 = true /\
               mat_textures m1 = mat_textures m0.
Proof.
  intros Hrun. unfold replace_mat in Hrun.
  step_bind_in Hrun s1 current E1; [|discriminate].
  step_bind_in Hrun s2 m E2; [|discriminate].
  step_bind_in Hrun s3 u3 E3; [|discriminate].
  step_bind_in Hrun s4 u4 E4; [|discriminate].
  step_bind_in Hrun s5 shown E5; [|discriminate].
  step_bind_in Hrun s6 u6 E6; [|discriminate].
  destruct u3, u4, u6.
  assert (Hs1 : s1 = s /\ slots s !! i = Some (Some current)).
  { unfold slot_material in E1. revert E1. run_pure.
    destruct (slots s !! i) as [[c|]|]; cbn [expect ret raise]; try discriminate.
    now intros [= <- <-]. }
  destruct Hs1 as [-> Hslot].
  assert (s2 = s) as ->.
  { unfold material_at in E2. revert E2. run_pure.
    destruct (materials s !! current); cbn [expect ret raise]; [|discriminate].
    now intros [= <- _]. }
  cbn [modify] in E3. injection E3 as <-.
  assert (s5 = s4) as ->.
  { unfold material_at in E5. revert E5. run_pure.
    destruct (materials s4 !! new); cbn [expect ret raise]; [|discriminate].
    now intros [= <- _]. }
  apply update_material_textures in E4; [|reflexivity].
  apply update_material_textures in E6; [|reflexivity].
  apply update_material_ok in Hrun. destruct Hrun as (m6 & Hm6 & ->).
  destruct E4 as (Hg4 & Hsl4 & Hm4). destruct E6 as (Hg6 & Hsl6 & Hmat6).
  cbn [node_groups slots materials set_materials set_slots] in *.
  split; [congruence|]. split.
  - rewrite Hsl6, Hsl4. apply list_lookup_insert_eq. eapply lookup_lt_Some; exact Hslot.
  - intros m0 Hm0. destruct (Hm4 new m0 Hm0) as (m4 & Hnew4 & Ht4).
    destruct (Hmat6 new m4 Hnew4) as (m6' & Hnew6 & Ht6).
    assert (m6' = m6) as -> by congruence.
    exists (set_simple true m6).
    rewrite list_lookup_insert_eq by (eapply lookup_lt_Some; exact Hm6).
    repeat split. cbn. congruence.
Qed.

(** X26: when the light pass makes a new simplified material for a slot,
    the slot ends up showing a material tagged [simple] whose textures
    group shows the light image in its [light] node and in its [dark]
    node as well. *)
Theorem new_simple_material_shows_light_in_dark
    (i id : nat) (m : Material) (s s' : Scene) :
  slots s !! i = Some (Some id) -> materials s !! id = Some m ->
  mat_simple m = false -> mat_bake m = true ->
  Str.has_ORG (mat_name m) &&
    Rig.taken (map mat_name (materials s)) (Str.remove_ORG (mat_name m)) = false ->
  Rig.taken (images s) (image_name m "light") = true ->
  rebind_slot "light" i s = (s', Ok tt) ->
  exists new simple g,
    slots s' !! i = Some (Some new) /\ materials s' !! new = Some simple /\
    mat_simple simple = true /\ mat_textures simple = Some g /\
    node_image s' g "light" = Some (image_name m "light") /\
    node_image s' g "dark" = Some (image_name m "light").
Proof.
  intros Hslot Hm Hsimple Hbake Hswap Himage Hrun.
  rewrite (rebind_slot_run "light" i id m s Hslot Hm) in Hrun.
  rewrite Himage, Hsimple, Hbake in Hrun. cbn [andb] in Hrun. rewrite Hswap in Hrun.
  set (image := image_name m "light") in *.
  destruct (String.eqb shader_dropdown "C") eqn:Ec.
  { apply String.eqb_eq in Ec.
    destruct (create_simple_eevee_mod i id "light" image Ec s) as (s1 & e & E).
    rewrite E in Hrun. discriminate. }
  unfold Rebind.create_simple in Hrun. rewrite Ec in Hrun.
  step_bind_in Hrun s1 m0 E1; [|discriminate].
  step_bind_in Hrun s2 u2 E2; [|discriminate].
  step_bind_in Hrun s3 simple E3; [|discriminate].
  step_bind_in Hrun s4 original E4; [|discriminate].
  step_bind_in Hrun s5 u5 E5; [|discriminate].
  step_bind_in Hrun s6 template_group E6; [|discriminate].
  step_bind_in Hrun s7 g E7; [|discriminate].
  step_bind_in Hrun s8 renamed E8; [|discriminate].
  step_bind_in Hrun s9 u9 E9; [|discriminate].
  step_bind_in Hrun s10 u10 E10; [|discriminate].
  step_bind_in Hrun s11 u11 E11; [|discriminate].
  step_bind_in Hrun s12 u12 E12; [|discriminate].
  step_bind_in Hrun s13 u13 E13; [|discriminate].
  step_bind_in Hrun s14 u14 E14; [|discriminate].
  cbn [when ret] in Hrun. injection Hrun as <-.
  clear E1 E2 E3 E4 E5 E6 E7 E8 E9. destruct u10, u11, u12, u13, u14.
  (* the new material shows the new group *)
  apply update_material_ok in E10. destruct E10 as (m9 & Hm9 & ->).
  assert (Hnew10 : materials (set_materials (<[simple := set_textures g m9]> (materials s9)) s9)
                     !! simple = Some (set_textures g m9)).
  { cbn. apply list_lookup_insert_eq. eapply lookup_lt_Some; exact Hm9. }
  (* the two image nodes *)
  apply set_node_image_ok in E11. destruct E11 as (Hmat11 & _ & Hlight11 & _).
  cbn [String.eqb Ascii.eqb Bool.eqb when] in E12.
  apply set_node_image_ok in E12. destruct E12 as (Hmat12 & _ & Hdark12 & Hother12).
  assert (Hlight12 : node_image s12 g "light" = Some image).
  { rewrite Hother12 by discriminate. exact Hlight11. }
  (* the original gets its fake user *)
  apply update_material_textures in E13; [|reflexivity].
  destruct E13 as (Hg13 & _ & Hmat13).
  destruct (Hmat13 simple (set_textures g m9)) as (m13 & Hnew13 & Ht13).
  { rewrite Hmat12, Hmat11. exact Hnew10. }
  (* the slot is switched *)
  apply replace_mat_ok in E14. destruct E14 as (Hg14 & Hslot14 & Hmat14).
  destruct (Hmat14 m13 Hnew13) as (m14 & Hnew14 & Hsimple14 & Ht14).
  exists simple, m14, g. repeat split; try assumption.
  - rewrite Ht14, Ht13. reflexivity.
  - rewrite (node_image_same_groups s13 s14) by exact Hg14.
    rewrite (node_image_same_groups s12 s13) by exact Hg13. exact Hlight12.
  - rewrite (node_image_same_groups s13 s14) by exact Hg14.
    rewrite (node_image_same_groups s12 s13) by exact Hg13. exact Hdark12.
Qed.

(** *** Slots that were simplified before *)

(** X27: a slot the user swapped back to the [-ORG] material for a new
    bake is handed to the simplified material of the stripped name again:
    no material is created or renamed, and that material's textures
    group shows the new image. *)
Theorem swapped_back_slot_is_restored
    (bake_type : string) (i id : nat) (m : Material) (s s' : Scene) :
  slots s !! i = Some (Some id) -> materials s !! id = Some m ->
  mat_simple m = false -> mat_bake m = true ->
  Str.has_ORG (mat_name m) = true ->
  Rig.taken (map mat_name (materials s)) (Str.remove_ORG (mat_name m)) = true ->
  Rig.taken (images s) (image_name m bake_type) = true ->
  rebind_slot bake_type i s = (s', Ok tt) ->
  materials s' = materials s /\
  exists simple sm g,
    slots s' !! i = Some (Some simple) /\ materials s !! simple = Some sm /\
    mat_name sm = Str.remove_ORG (mat_name m) /\ mat_textures sm = Some g /\
    node_image s' g bake_type = Some (image_name m bake_type).
Proof.
  intros Hslot Hm Hsimple Hbake Horg Hname Himage Hrun.
  rewrite (rebind_slot_run bake_type i id m s Hslot Hm) in Hrun.
  rewrite Himage, Hsimple, Hbake, Horg, Hname in Hrun. cbn [andb] in Hrun.
  step_bind_in Hrun s1 simple E1; [|discriminate].
  step_bind_in Hrun s2 u2 E2; [|discriminate].
  step_bind_in Hrun s3 g E3; [|discriminate].
  unfold materials_by_name in E1. revert E1. run_pure.
  destruct (Bake.find_index _ (materials s)) as [k|] eqn:Hk;
    cbn [expect ret raise]; [|discriminate].
  intros [= <- <-]. cbn [modify] in E2. injection E2 as <-. destruct u2.
  destruct (find_index_Some _ _ _ Hk) as (sm & Hsm & Hn). apply String.eqb_eq in Hn.
  unfold textures_group_of, material_at in E3. revert E3. run_pure.
  cbn [materials set_slots]. rewrite Hsm. cbn [expect ret]. run_pure.
  destruct (mat_textures sm) as [g0|] eqn:Hg; cbn [expect ret raise]; [|discriminate].
  intros [= <- <-].
  apply set_node_image_ok in Hrun. destruct Hrun as (Hmat & Hsl & Himg & _).
  split; [exact Hmat|]. exists k, sm, g0. repeat split; try assumption.
  rewrite Hsl. cbn. apply list_lookup_insert_eq. eapply lookup_lt_Some; exact Hslot.
Qed.

Lemma set_image_keeps_registry (id : nat) (node image : string) :
  keeps (fun s => (materials s, slots s, images s))
        (textures_group <- textures_group_of id ;;
         set_node_image textures_group node image).
Proof. keeps_slots. Qed.

(** X28: on an object whose slots all hold simplified materials, the
    matching loops touch nothing but the images shown by node groups:
    however they end, the materials, the slots and the loaded images are
    as before. *)
Theorem rebind_of_simplified_slots_keeps_materials (s : Scene) :
  Forall (fun slot => exists id m,
            slot = Some id /\ materials s !! id = Some m /\ mat_simple m = true)
         (slots s) ->
  materials (fst (rebind s)) = materials s /\
  slots (fst (rebind s)) = slots s /\
  images (fst (rebind s)) = images s.
Proof.
  intros Hall.
  set (I := fun s1 : Scene =>
              (materials s1, slots s1, images s1) = (materials s, slots s, images s)).
  assert (H : hoare I rebind (fun _ => I) I).
  { unfold Rebind.rebind. apply hoare_for_each. intros bake_type _.
    eapply hoare_bind; [apply hoare_get|]. intros s0. cbn beta.
    eapply hoare_conseq.
    - apply (hoare_for_range (fun s1 => I s1 /\ slots s0 = slots s) I).
      intros i Hi s1 [Hs1 H0]. rewrite H0 in Hi.
      destruct (lookup_lt_is_Some_2 (slots s) i Hi) as [slot Hslot].
      rewrite Forall_forall in Hall.
      destruct (Hall slot) as (id & m & -> & Hm & Hsimple).
      { apply list_elem_of_lookup. now exists i. }
      unfold I in Hs1. injection Hs1 as Hmat Hsl Him.
      rewrite (rebind_slot_run bake_type i id m s1) by congruence.
      rewrite Hsimple.
      destruct (Rig.taken (images s1) (image_name m bake_type)).
      + pose proof (set_image_keeps_registry id bake_type (image_name m bake_type) s1) as Hk.
        destruct ((textures_group <- textures_group_of id ;;
                   set_node_image textures_group bake_type (image_name m bake_type)) s1)
          as [s2 [[]|e]]; cbn [fst] in Hk; unfold I; rewrite Hk;
          repeat split; congruence.
      + unfold I. repeat split; congruence.
    - intros s1 [-> Hs1]. split; [exact Hs1|]. unfold I in Hs1. congruence.
    - now intros _ s1 [H _].
    - auto. }
  specialize (H s eq_refl).
  destruct (rebind s) as [s' [[]|e]]; cbn [fst]; unfold I in H;
    injection H as -> -> ->; auto.
Qed.

(** *** The Eevee Mod shader leaves the slot half done *)

Section Avoids.
Context (bad : exn).

Lemma avoids_bind {A B} (m : Py Scene A) (k : A -> Py Scene B) :
  avoids bad m -> (forall a, avoids bad (k a)) -> avoids bad (bind m k).
Proof.
  intros Hm Hk s s' e. rewrite bind_run.
  destruct (m s) as [s1 [a|e1]] eqn:E.
  - apply Hk.
  - intros [= <- <-]. exact (Hm _ _ _ E).
Qed.

Lemma avoids_ret {A} (a : A) : avoids bad (ret a).
Proof. intros s s' e. discriminate. Qed.

Lemma avoids_get : avoids bad get.
Proof. intros s s' e. discriminate. Qed.

Lemma avoids_modify (f : Scene -> Scene) : avoids bad (modify f).
Proof. intros s s' e. discriminate. Qed.

Lemma avoids_raise {A} (e0 : exn) : e0 <> bad -> avoids bad (@raise Scene A e0).
Proof. intros H s s' e [= _ <-]. exact H. Qed.

Lemma avoids_expect {A} (o : option A) (e0 : exn) :
  e0 <> bad -> avoids bad (expect o e0).
Proof. intros H s s' e. destruct o; cbn; [discriminate|]. intros [= _ <-]. exact H. Qed.

Lemma avoids_when (b : bool) (m : Py Scene unit) :
  avoids bad m -> avoids bad (when b m).
Proof. intros H. destruct b; [exact H|apply avoids_ret]. Qed.

End Avoids.

(** The steps that cannot raise [TypeError]. *)
Ltac avoids_type_error :=
  repeat first
    [ apply avoids_bind; [|intros ?]
    | apply avoids_ret
    | apply avoids_get
    | apply avoids_modify
    | apply avoids_raise; discriminate
    | apply avoids_expect; discriminate
    | apply avoids_when
    | match goal with
      | |- avoids _ (match ?x with _ => _ end) => destruct x
      end
    | progress unfold update_material, material_at, group_at, materials_by_name,
        node_groups_by_name, textures_group_of, set_node_image, rename_material,
        rename_group, copy_material, copy_group, slot_material ].

Lemma replace_mat_avoids (i new : nat) :
  avoids TypeError (replace_mat version get_name i (MaterialBlock new)).
Proof. unfold replace_mat. avoids_type_error. Qed.

Lemma find_index_exists {A} (p : A -> bool) (l : list A) (t : nat) (x : A) :
  l !! t = Some x -> p x = true -> exists i, Bake.find_index p l = Some i.
Proof.
  revert t. induction l as [|y l IH]; intros [|t]; cbn; try discriminate.
  - intros [= ->] ->. now exists 0%nat.
  - intros Ht Hx. destruct (p y); [now exists 0%nat|].
    destruct (IH t Ht Hx) as [i ->]. now exists (S i).
Qed.

(** When the template is loaded, the library is not consulted. *)
Lemma copy_template_run (h : exn -> Py Scene nat) (s : Scene) (t : nat) (tm : Material) :
  materials s !! t = Some tm -> mat_name tm = "KK Simple" ->
  exists s',
    try_except (template <- materials_by_name "KK Simple" ;; copy_material template) h s
      = (s', Ok (length (materials s))) /\
    node_groups s' = node_groups s /\ slots s' = slots s /\
    length (materials s') = S (length (materials s)).
Proof.
  intros Ht Hn.
  destruct (find_index_exists (fun m => String.eqb (mat_name m) "KK Simple")
              (materials s) t tm Ht) as [t' Ht'].
  { rewrite Hn. reflexivity. }
  destruct (find_index_Some _ _ _ Ht') as (tm' & Htm' & _).
  unfold try_except, materials_by_name, copy_material, material_at. run_pure.
  rewrite Ht'. cbn [expect ret]. run_pure. rewrite Htm'. cbn [expect ret]. run_pure.
  eexists. split; [reflexivity|]. cbn. repeat split.
  rewrite length_app. cbn. lia.
Qed.

Lemma copy_shader_run (h : exn -> Py Scene nat) (s : Scene) (k : nat) (grp : Group) :
  node_groups s !! k = Some grp -> grp_name grp = ".Simple Shader (Eevee Mod)" ->
  exists s' shader,
    try_except (g <- node_groups_by_name ".Simple Shader (Eevee Mod)" ;; copy_group g) h s
      = (s', Ok shader) /\
    materials s' = materials s /\ slots s' = slots s.
Proof.
  intros Hk Hn.
  destruct (find_index_exists (fun g => String.eqb (grp_name g) ".Simple Shader (Eevee Mod)")
              (node_groups s) k grp Hk) as [k' Hk'].
  { rewrite Hn. reflexivity. }
  destruct (find_index_Some _ _ _ Hk') as (grp' & Hgrp' & _).
  unfold try_except, node_groups_by_name, copy_group, group_at. run_pure.
  rewrite Hk'. cbn [expect ret]. run_pure. rewrite Hgrp'. cbn [expect ret]. run_pure.
  do 2 eexists. split; [reflexivity|]. cbn. now split.
Qed.

(** What the steps on node groups do to the other groups. *)
Lemma copy_group_ok (g0 g : nat) (s s' : Scene) :
  copy_group g0 s = (s', Ok g) ->
  g = length (node_groups s) /\ materials s' = materials s /\ slots s' = slots s /\
  forall k, (k < length (node_groups s))%nat -> node_groups s' !! k = node_groups s !! k.
Proof.
  unfold copy_group, group_at. run_pure.
  destruct (node_groups s !! g0); cbn [expect ret raise]; [|discriminate]. run_pure.
  intros [= <- <-]. cbn. repeat split. intros k Hk. now apply lookup_app_l.
Qed.

Lemma rename_group_ok (g : nat) (name : string) (s s' : Scene) :
  rename_group g name s = (s', Ok tt) ->
  materials s' = materials s /\ slots s' = slots s /\
  forall k, k <> g -> node_groups s' !! k = node_groups s !! k.
Proof.
  unfold rename_group, group_at. run_pure.
  destruct (node_groups s !! g); cbn [expect ret raise]; [|discriminate]. run_pure.
  intros [= <-]. cbn. repeat split. intros k Hk. now apply list_lookup_insert_ne.
Qed.

Lemma set_node_image_others (g : nat) (node image : string) (s s' : Scene) :
  set_node_image g node image s = (s', Ok tt) ->
  forall k, k <> g -> node_groups s' !! k = node_groups s !! k.
Proof.
  unfold set_node_image, group_at. run_pure.
  destruct (node_groups s !! g) as [grp|]; cbn [expect ret raise]; [|discriminate].
  destruct (Bake.find_index _ (grp_nodes grp)); [|discriminate].
  cbn [modify]. intros [= <-] k Hk. cbn. now apply list_lookup_insert_ne.
Qed.

Lemma update_material_length (x : nat) (f : Material -> Material) (s s' : Scene) :
  update_material x f s = (s', Ok tt) ->
  length (materials s') = length (materials s) /\
  node_groups s' = node_groups s /\ slots s' = slots s.
Proof.
  intros H. apply update_material_ok in H. destruct H as (m & _ & ->).
  cbn. now rewrite length_insert.
Qed.

Lemma material_read (x : nat) (s s' : Scene) (m : Material) :
  material_at x s = (s', Ok m) -> s' = s /\ materials s !! x = Some m.
Proof.
  unfold material_at. run_pure.
  destruct (materials s !! x); cbn [expect ret raise]; [|discriminate].
  now intros [= <- <-].
Qed.

Lemma rename_material_ok (x : nat) (name : string) (s s' : Scene) :
  rename_material x name s = (s', Ok tt) ->
  length (materials s') = length (materials s) /\
  node_groups s' = node_groups s /\ slots s' = slots s /\
  forall y, y <> x -> materials s' !! y = materials s !! y.
Proof.
  unfold rename_material. rewrite bind_run. cbn [get]. intros H.
  apply update_material_ok in H. destruct H as (m & _ & ->). cbn.
  rewrite length_insert. repeat split. intros y Hy. now apply list_lookup_insert_ne.
Qed.

Lemma textures_group_of_ok (x g : nat) (s s' : Scene) :
  textures_group_of x s = (s', Ok g) -> s' = s.
Proof.
  unfold textures_group_of, material_at. run_pure.
  destruct (materials s !! x) as [m|]; cbn [expect ret raise]; [|discriminate].
  run_pure. destruct (mat_textures m); cbn [expect ret raise]; [|discriminate].
  now intros [= <- _].
Qed.

Lemma replace_mat_node_tree_state (i g : nat) (s s' : Scene) (r : result unit) :
  replace_mat version get_name i (NodeTreeBlock g) s = (s', r) -> s' = s.
Proof.
  intros H. refine (keeps_run (fun s => s) _ s s' r _ H).
  unfold replace_mat. keeps_slots.
Qed.

(** One step of a run that ended in [TypeError]: the step returned. *)
Ltac step_to_type_error H s1 a E :=
  step_bind_in H s1 a E;
  [ | exfalso;
      let Hs := fresh in let He := fresh in
      injection H as Hs He; rewrite He in E;
      match type of E with
      | ?m _ = _ =>
          let Hav := fresh in
          assert (Hav : avoids TypeError m)
            by (first [apply replace_mat_avoids | avoids_type_error]);
          exact (Hav _ _ _ E eq_refl)
      end ].

(** X25: with the Eevee Mod shader selected ([shader_dropdown] is ['C'])
    the loop body never returns for a slot whose material is to be
    simplified.  When the template and the shader group are loaded and
    the raise is the [TypeError] of the second [replace_mat], which
    assigns the copied node tree to the slot, the work is half done: the
    slot already shows a new material, tagged [simple]. *)
Theorem eevee_mod_simplification_raises
    (bake_type : string) (i id : nat) (m : Material) (s : Scene) :
  shader_dropdown = "C" ->
  slots s !! i = Some (Some id) -> materials s !! id = Some m ->
  mat_simple m = false -> mat_bake m = true ->
  Str.has_ORG (mat_name m) &&
    Rig.taken (map mat_name (materials s)) (Str.remove_ORG (mat_name m)) = false ->
  Rig.taken (images s) (image_name m bake_type) = true ->
  exists s' e,
    rebind_slot bake_type i s = (s', Raise e) /\
    ((exists t tm, t <> id /\ materials s !! t = Some tm /\ mat_name tm = "KK Simple") ->
     (exists k grp, node_groups s !! k = Some grp /\
                    grp_name grp = ".Simple Shader (Eevee Mod)") ->
     e = TypeError ->
     exists simple,
       slots s' !! i = Some (Some (length (materials s))) /\
       materials s' !! length (materials s) = Some simple /\
       mat_simple simple = true).
Proof.
  intros Hc Hslot Hm Hsimple Hbake Hswap Himage.
  rewrite (rebind_slot_run bake_type i id m s Hslot Hm).
  rewrite Himage, Hsimple, Hbake. cbn [andb]. rewrite Hswap.
  set (image := image_name m bake_type).
  destruct (create_simple_eevee_mod i id bake_type image Hc s) as (s' & e & Hrun).
  exists s', e. split; [exact Hrun|].
  intros (t & tm & Hne & Ht & Htn) (k & grp & Hk & Hkn) ->.
  unfold Rebind.create_simple in Hrun. rewrite Hc in Hrun.
  step_to_type_error Hrun s1 m0 E1.
  apply material_read in E1. destruct E1 as [-> _].
  step_to_type_error Hrun s2 u2 E2. destruct u2.
  apply rename_material_ok in E2. destruct E2 as (Hlen2 & Hg2 & Hsl2 & Hmat2).
  (* the template is there: the library is not consulted *)
  rewrite bind_run in Hrun.
  match type of Hrun with
  | context [try_except _ ?h s2] =>
      destruct (copy_template_run h s2 t tm) as (s3 & E3 & Hg3 & Hsl3 & Hlen3);
        [rewrite Hmat2 by exact Hne; exact Ht | exact Htn |]
  end.
  rewrite E3 in Hrun. rewrite Hlen2 in Hrun.
  set (simple := length (materials s)) in *.
  step_to_type_error Hrun s4 original E4.
  apply material_read in E4. destruct E4 as [-> _].
  step_to_type_error Hrun s5 u5 E5. destruct u5.
  apply rename_material_ok in E5. destruct E5 as (_ & Hg5 & Hsl5 & _).
  step_to_type_error Hrun s6 template_group E6.
  apply textures_group_of_ok in E6. subst s6.
  step_to_type_error Hrun s7 g E7.
  apply copy_group_ok in E7. destruct E7 as (Hg & Hmat7 & Hsl7 & Hgr7).
  assert (Hk5 : node_groups s5 !! k = Some grp) by congruence.
  assert (Hkg : k <> g).
  { rewrite Hg. apply lookup_lt_Some in Hk5. lia. }
  assert (Hk7 : node_groups s7 !! k = Some grp).
  { rewrite Hgr7 by (eapply lookup_lt_Some; exact Hk5). exact Hk5. }
  step_to_type_error Hrun s8 renamed E8.
  apply material_read in E8. destruct E8 as [-> _].
  step_to_type_error Hrun s9 u9 E9. destruct u9.
  apply rename_group_ok in E9. destruct E9 as (_ & _ & Hgr9).
  step_to_type_error Hrun s10 u10 E10. destruct u10.
  pose proof (update_material_length _ _ _ _ E10) as (_ & Hg10 & _).
  assert (Hnew10 : exists m10, materials s10 !! simple = Some m10).
  { apply update_material_ok in E10. destruct E10 as (m9 & Hm9 & ->).
    eexists. cbn. apply list_lookup_insert_eq. eapply lookup_lt_Some; exact Hm9. }
  step_to_type_error Hrun s11 u11 E11. destruct u11.
  pose proof (set_node_image_others _ _ _ _ _ E11) as Hgr11.
  apply set_node_image_ok in E11. destruct E11 as (Hmat11 & _).
  step_to_type_error Hrun s12 u12 E12. destruct u12.
  assert (Hk11 : node_groups s11 !! k = Some grp).
  { rewrite Hgr11 by exact Hkg. rewrite Hg10. rewrite Hgr9 by exact Hkg. exact Hk7. }
  assert (H12 : node_groups s12 !! k = Some grp /\ materials s12 = materials s11).
  { unfold when in E12. destruct (String.eqb bake_type "light").
    - rewrite (set_node_image_others _ _ _ _ _ E12) by exact Hkg.
      apply set_node_image_ok in E12. now destruct E12 as (-> & _).
    - cbn [ret] in E12. now injection E12 as <-. }
  destruct H12 as [Hk12 Hmat12].
  step_to_type_error Hrun s13 u13 E13. destruct u13.
  pose proof (update_material_length _ _ _ _ E13) as (_ & Hg13 & _).
  apply update_material_textures in E13; [|reflexivity].
  destruct E13 as (_ & _ & Hmat13).
  destruct Hnew10 as (m10 & Hnew10).
  destruct (Hmat13 simple m10) as (m13 & Hnew13 & _); [congruence|].
  step_to_type_error Hrun s14 u14 E14. destruct u14.
  apply replace_mat_ok in E14. destruct E14 as (Hg14 & Hslot14 & Hmat14).
  destruct (Hmat14 m13 Hnew13) as (m14 & Hnew14 & Hsimple14 & _).
  (* the shader group is there: the library is not consulted *)
  cbn [String.eqb Ascii.eqb Bool.eqb when] in Hrun. rewrite bind_run in Hrun.
  match type of Hrun with
  | context [try_except _ ?h s14] =>
      destruct (copy_shader_run h s14 k grp) as (s15 & shader & E15 & Hmat15 & Hsl15);
        [congruence | exact Hkn |]
  end.
  rewrite E15 in Hrun.
  step_to_type_error Hrun s16 current E16.
  assert (H16 : s16 = s15 /\ current = simple).
  { unfold slot_material in E16. revert E16. run_pure.
    rewrite Hsl15, Hslot14. cbn [expect ret]. now intros [= <- <-]. }
  destruct H16 as [-> ->].
  step_to_type_error Hrun s17 u17 E17. destruct u17.
  apply update_material_ok in E17. destruct E17 as (m15 & Hm15 & ->).
  apply replace_mat_node_tree_state in Hrun. subst s'.
  exists (set_fake_user true m15). cbn [slots materials set_materials].
  repeat split.
  - now rewrite Hsl15.
  - apply list_lookup_insert_eq. eapply lookup_lt_Some; exact Hm15.
  - cbn. congruence.
Qed.

End RebindProofs.

Section RebindWitnesses.
Import Rebind.

Lemma rebind_without_images_changes_nothing_witness :
  Rebind.rebind 4 "A" "Chara" RebindDemo.no_library RebindDemo.unbaked =
    (RebindDemo.unbaked, Ok tt).
Proof.
  apply (rebind_without_images_changes_nothing 4 "A" "Chara" RebindDemo.no_library
           RebindDemo.unbaked).
  constructor; [|constructor].
  exists 1%nat, RebindDemo.face. repeat split.
Defined.

Lemma rebind_stops_at_an_empty_slot_witness :
  exists s' e,
    Rebind.rebind 4 "A" "Chara" RebindDemo.no_library RebindDemo.with_empty_slot =
      (s', Raise e).
Proof.
  apply (rebind_stops_at_an_empty_slot 4 "A" "Chara" RebindDemo.no_library
           RebindDemo.with_empty_slot).
  - intros i kind name. apply keeps_raise.
  - cbn. tauto.
Defined.

Lemma eevee_mod_simplification_raises_witness :
  exists s' e,
    Rebind.rebind_slot 4 "C" "Chara" RebindDemo.no_library "light" 0
      RebindDemo.eevee_mod = (s', Raise e) /\
    ((exists t tm, t <> 1%nat /\ materials RebindDemo.eevee_mod !! t = Some tm /\
                   mat_name tm = "KK Simple") ->
     (exists k grp, node_groups RebindDemo.eevee_mod !! k = Some grp /\
                    grp_name grp = ".Simple Shader (Eevee Mod)") ->
     e = TypeError ->
     exists simple,
       slots s' !! 0%nat = Some (Some (length (materials RebindDemo.eevee_mod))) /\
       materials s' !! length (materials RebindDemo.eevee_mod) = Some simple /\
       mat_simple simple = true).
Proof.
  apply (eevee_mod_simplification_raises 4 "C" "Chara" RebindDemo.no_library
           "light" 0 1 RebindDemo.face RebindDemo.eevee_mod).
  - reflexivity.
  - reflexivity.
  - reflexivity.
  - reflexivity.
  - reflexivity.
  - reflexivity.
  - reflexivity.
Defined.

(** On the demo object the raise is the [TypeError] of the slot
    assignment, and the slot is left on the new material. *)
Lemma eevee_mod_demo_is_left_half_done :
  snd (Rebind.rebind_slot 4 "C" "Chara" RebindDemo.no_library "light" 0
         RebindDemo.eevee_mod) = Raise TypeError /\
  slots (fst (Rebind.rebind_slot 4 "C" "Chara" RebindDemo.no_library "light" 0
                RebindDemo.eevee_mod)) = [Some 2%nat] /\
  map mat_name
    (materials (fst (Rebind.rebind_slot 4 "C" "Chara" RebindDemo.no_library "light" 0
                       RebindDemo.eevee_mod))) = ["KK Simple"; "Face-ORG"; "Face"].
Proof. repeat split; vm_compute; reflexivity. Qed.

Lemma new_simple_material_shows_light_in_dark_witness :
  exists new simple g,
    slots (fst (Rebind.rebind_slot 4 "A" "Chara" RebindDemo.no_library "light" 0
                  RebindDemo.baked)) !! 0%nat = Some (Some new) /\
    materials (fst (Rebind.rebind_slot 4 "A" "Chara" RebindDemo.no_library "light" 0
                      RebindDemo.baked)) !! new = Some simple /\
    mat_simple simple = true /\ mat_textures simple = Some g /\
    node_image (fst (Rebind.rebind_slot 4 "A" "Chara" RebindDemo.no_library "light" 0
                       RebindDemo.baked)) g "light" =
      Some (image_name RebindDemo.face "light") /\
    node_image (fst (Rebind.rebind_slot 4 "A" "Chara" RebindDemo.no_library "light" 0
                       RebindDemo.baked)) g "dark" =
      Some (image_name RebindDemo.face "light").
Proof.
  apply (new_simple_material_shows_light_in_dark 4 "A" "Chara" RebindDemo.no_library
           0 1 RebindDemo.face RebindDemo.baked).
  - reflexivity.
  - reflexivity.
  - reflexivity.
  - reflexivity.
  - reflexivity.
  - reflexivity.
  - vm_compute. reflexivity.
Defined.

Lemma swapped_back_slot_is_restored_witness :
  materials (fst (Rebind.rebind_slot 4 "A" "Chara" RebindDemo.no_library "dark" 0
                    RebindDemo.swapped_back)) =
    materials RebindDemo.swapped_back /\
  exists simple sm g,
    slots (fst (Rebind.rebind_slot 4 "A" "Chara" RebindDemo.no_library "dark" 0
                  RebindDemo.swapped_back)) !! 0%nat = Some (Some simple) /\
    materials RebindDemo.swapped_back !! simple = Some sm /\
    mat_name sm = Str.remove_ORG "Face-ORG" /\ mat_textures sm = Some g /\
    node_image (fst (Rebind.rebind_slot 4 "A" "Chara" RebindDemo.no_library "dark" 0
                       RebindDemo.swapped_back)) g "dark" = Some "Face dark.png".
Proof.
  apply (swapped_back_slot_is_restored 4 "A" "Chara" RebindDemo.no_library "dark" 0 1
           {| mat_name := "Face-ORG"; mat_simple := false; mat_bake := true;
              mat_textures := None; mat_fake_user := true;
              mat_blend := "HASHED"; mat_back := true |}
           RebindDemo.swapped_back).
  - reflexivity.
  - reflexivity.
  - reflexivity.
  - reflexivity.
  - reflexivity.
  - reflexivity.
  - reflexivity.
  - vm_compute. reflexivity.
Defined.

Lemma rebind_of_simplified_slots_keeps_materials_witness :
  materials (fst (Rebind.rebind 4 "A" "Chara" RebindDemo.no_library
                    RebindDemo.simplified)) = materials RebindDemo.simplified /\
  slots (fst (Rebind.rebind 4 "A" "Chara" RebindDemo.no_library
                RebindDemo.simplified)) = slots RebindDemo.simplified /\
  images (fst (Rebind.rebind 4 "A" "Chara" RebindDemo.no_library
                 RebindDemo.simplified)) = images RebindDemo.simplified.
Proof.
  apply (rebind_of_simplified_slots_keeps_materials 4 "A" "Chara" RebindDemo.no_library
           RebindDemo.simplified).
  constructor; [|constructor].
  eexists 2%nat, _. repeat split.
Defined.

End RebindWitnesses.
